(** * The interactive trace debugger (mdb) command engine

    A shallow embedding of the command engine of
    [trace/mercury_trace_internal.c]: the line tokenizer, alias expansion,
    the command dispatch table, the session queue of pending command lines,
    the [fail], [retry], [ignore] and [quit] handlers and the scroll pager.

    C strings are [string]s; a line buffer that the tokenizer overwrites in
    place is a [list ascii] that ends in the terminating NUL; arrays of words
    are lists indexed with stdpp's lookup and insert; [int] and [MR_Unsigned]
    values are [Z] with the conversions of C written out. *)

From Stdlib Require Import ZArith Ascii String.
From stdpp Require Import base tactics option list strings pretty gmap.

Local Open Scope string_scope.
Local Open Scope list_scope.

(** ** Characters and C strings *)

Definition NUL : ascii := "000"%char.
Definition DOUBLE_QUOTE_CHAR : ascii := "034"%char.
Definition SINGLE_QUOTE_CHAR : ascii := "039"%char.
Definition ESCAPE_CHAR : ascii := "092"%char.

Definition MR_INIT_WORD_COUNT : nat := 20.
Definition MR_NUMBER_LEN : nat := 80.

(** [MR_isspace] and [MR_isdigit] wrap the functions of <ctype.h>, taken in
    the C locale. *)
Definition MR_isspace (c : ascii) : bool :=
  let n := N_of_ascii c in
  (n =? 32)%N || ((9 <=? n)%N && (n <=? 13)%N).

Definition MR_isdigit (c : ascii) : bool :=
  let n := N_of_ascii c in
  (48 <=? n)%N && (n <=? 57)%N.

(** [line[i]]: the buffers below always end in NUL and are never read past
    it. *)
Definition char_at (line : list ascii) (i : nat) : ascii :=
  default NUL (line !! i).

(** The C string that starts at offset [start] of a buffer. *)
Fixpoint until_NUL (l : list ascii) : list ascii :=
  match l with
  | [] => []
  | c :: l' => if Ascii.eqb c NUL then [] else c :: until_NUL l'
  end.

Definition cstring_at (line : list ascii) (start : nat) : string :=
  string_of_list_ascii (until_NUL (drop start line)).

(** The buffer holding a C string: its characters and the terminator. *)
Definition buffer_of (s : string) : list ascii :=
  list_ascii_of_string s ++ [NUL].

(** ** Machine integers *)

(** [int] is taken to be 32 bits wide and [MR_Unsigned] (an unsigned integer
    of the size of a machine word) 64 bits wide; their declarations are in
    headers outside this file. *)
Definition int_bits : Z := 32.
Definition MR_Unsigned_bits : Z := 64.

(** Conversion of an integer value to [int] (two's complement). *)
Definition to_int (z : Z) : Z :=
  ((z + 2 ^ (int_bits - 1)) mod 2 ^ int_bits - 2 ^ (int_bits - 1))%Z.

(** Conversion of an integer value to [MR_Unsigned]. *)
Definition to_MR_Unsigned (z : Z) : Z := (z mod 2 ^ MR_Unsigned_bits)%Z.

(** ** Results of the tokenizer

    The C functions return NULL or an error message; [OutOfFuel] is the
    model's own outcome for a loop that was not given enough iterations, and
    is shown below never to occur. *)
Inductive scan_result (A : Type) : Type :=
  | Scanned (a : A)
  | Problem (msg : string)
  | OutOfFuel.
Arguments Scanned {A} a.
Arguments Problem {A} msg.
Arguments OutOfFuel {A}.

(** ** The tokenizer *)

(** Modelled from the spec: [MR_ensure_big_enough] (a macro of
    mercury_array_macros.h, which is not among the sources) must
    "correctly grow the backing array" so that index [slot] is valid. The
    new slots hold unspecified values, here [junk]. *)
Definition MR_ensure_big_enough {A} (slot : nat) (arr : list A) (init : nat)
    (junk : A) : list A :=
  if decide (length arr <= slot) then
    let new_max :=
      if decide (length arr = 0) then Nat.max init (S slot)
      else Nat.max (2 * length arr) (S slot) in
    arr ++ replicate (new_max - length arr) junk
  else arr.

(** The state of the loop of [MR_trace_break_off_one_word] when it ends. *)
Record word_scan : Type := {
  ws_line : list ascii;
  ws_char_pos : nat;
  ws_lag : nat;
  ws_single_quoted : bool;
  ws_double_quoted : bool;
  ws_another : bool
}.

(** [line[char_pos - lag] = line[char_pos]], done only when [lag != 0]. *)
Definition copy_back (line : list ascii) (char_pos lag : nat) : list ascii :=
  if decide (lag = 0) then line
  else <[char_pos - lag := char_at line char_pos]> line.

Fixpoint break_off_loop (fuel : nat) (line : list ascii) (char_pos lag : nat)
    (single_quoted double_quoted : bool) : scan_result word_scan :=
  match fuel with
  | 0 => OutOfFuel
  | S fuel' =>
    let c := char_at line char_pos in
    if Ascii.eqb c NUL then
      Scanned {| ws_line := line; ws_char_pos := char_pos; ws_lag := lag;
                 ws_single_quoted := single_quoted;
                 ws_double_quoted := double_quoted; ws_another := false |}
    else if negb single_quoted && negb double_quoted && MR_isspace c then
      Scanned {| ws_line := line; ws_char_pos := char_pos; ws_lag := lag;
                 ws_single_quoted := single_quoted;
                 ws_double_quoted := double_quoted; ws_another := true |}
    else if negb double_quoted && Ascii.eqb c SINGLE_QUOTE_CHAR then
      break_off_loop fuel' line (S char_pos) (S lag)
        (negb single_quoted) double_quoted
    else if negb single_quoted && Ascii.eqb c DOUBLE_QUOTE_CHAR then
      break_off_loop fuel' (copy_back line char_pos lag) (S char_pos) lag
        single_quoted (negb double_quoted)
    else if Ascii.eqb c ESCAPE_CHAR then
      if Ascii.eqb (char_at line (S char_pos)) NUL then
        Problem "bad backslash"
      else
        break_off_loop fuel' (copy_back line (S char_pos) (S lag))
          (S (S char_pos)) (S lag) single_quoted double_quoted
    else
      break_off_loop fuel' (copy_back line char_pos lag) (S char_pos) lag
        single_quoted double_quoted
  end.

(** Returns the buffer as overwritten and [*new_char_pos_ptr]. *)
Definition MR_trace_break_off_one_word (line : list ascii) (char_pos : nat)
    : scan_result (list ascii * nat) :=
  match break_off_loop (S (length line)) line char_pos 0 false false with
  | OutOfFuel => OutOfFuel
  | Problem msg => Problem msg
  | Scanned ws =>
    if ws_single_quoted ws then Problem "unmatched single quote"
    else if ws_double_quoted ws then Problem "unmatched double quote"
    else
      Scanned (<[ws_char_pos ws - ws_lag ws := NUL]> (ws_line ws),
               if ws_another ws then S (ws_char_pos ws) else ws_char_pos ws)
  end.

(** [while (line[char_pos] != '\0' && MR_isspace(line[char_pos])) char_pos++] *)
Fixpoint skip_spaces (fuel : nat) (line : list ascii) (char_pos : nat)
    : scan_result nat :=
  match fuel with
  | 0 => OutOfFuel
  | S fuel' =>
    let c := char_at line char_pos in
    if negb (Ascii.eqb c NUL) && MR_isspace c then
      skip_spaces fuel' line (S char_pos)
    else Scanned char_pos
  end.

(** The [for (;;)] loop of [MR_trace_break_into_words]. [words] is the array
    of pointers into [line], each kept as its offset; [token_number] counts
    the words filled in. *)
Fixpoint break_into_words_loop (fuel : nat) (line : list ascii)
    (words : list nat) (token_number : nat) (char_pos : nat)
    : scan_result (list ascii * list nat * nat) :=
  match fuel with
  | 0 => OutOfFuel
  | S fuel' =>
    match skip_spaces (S (length line)) line char_pos with
    | OutOfFuel => OutOfFuel
    | Problem msg => Problem msg
    | Scanned char_pos =>
      if Ascii.eqb (char_at line char_pos) NUL then
        Scanned (line, words, token_number)
      else
        let words := MR_ensure_big_enough token_number words
                       MR_INIT_WORD_COUNT 0 in
        let words := <[token_number := char_pos]> words in
        match MR_trace_break_off_one_word line char_pos with
        | OutOfFuel => OutOfFuel
        | Problem msg => Problem msg
        | Scanned (line', new_char_pos) =>
          break_into_words_loop fuel' line' words (S token_number)
            new_char_pos
        end
    end
  end.

(** The words are returned as the strings their pointers denote once the
    line has been split: nothing writes to the buffer after that. The result
    is the array [*words_ptr] (its length is [*word_max_ptr]) and
    [*word_count]. *)
Definition MR_trace_break_into_words (line : string)
    : scan_result (list string * nat) :=
  let buf := buffer_of line in
  match break_into_words_loop (S (length buf)) buf [] 0 0 with
  | OutOfFuel => OutOfFuel
  | Problem msg => Problem msg
  | Scanned (buf', words, word_count) =>
    Scanned (cstring_at buf' <$> words, word_count)
  end.

(** The words an array holds: its first [word_count] slots. *)
Definition words_of (r : list string * nat) : list string :=
  take r.2 r.1.


(** The number that a sequence of decimal digits denotes, [None] for a
    word with a character that is not a digit. *)
Fixpoint digits_value (acc : Z) (s : string) : option Z :=
  match s with
  | EmptyString => Some acc
  | String c s' =>
    if MR_isdigit c then
      digits_value (acc * 10 + (Z.of_N (N_of_ascii c) - 48)) s'
    else None
  end.

(** Modelled from the spec: [MR_trace_is_natural_number] (of
    mercury_trace_util.c, which is not among the sources) tells whether a
    word "is a natural number", that is a nonempty sequence of decimal
    digits, and if so stores its value through an [int *]. What it gives is
    therefore an [int]: the number the digits denote when an [int] holds
    it. For a larger number C leaves the overflow undefined; the value is
    then taken as two's-complement arithmetic leaves it, and the properties
    below that name the number typed are stated for numbers that an [int]
    holds. *)
Definition MR_trace_is_natural_number (word : string) : option Z :=
  match word with
  | EmptyString => None
  | String _ _ => to_int <$> digits_value 0 word
  end.

(** [words[i]] for an array of words. *)
Definition word_at (words : list string) (i : nat) : string :=
  default "" (words !! i).

(** [*word]: the first character of a C string, the terminator if it is
    empty. *)
Definition first_char (word : string) : ascii :=
  match word with
  | EmptyString => NUL
  | String c _ => c
  end.

(** The loop of [MR_trace_parse_line] that copies the leading digits of the
    first word to [count_buf]; [s] is the rest of the word, [i] the number of
    digits copied so far. Returns [count_buf] and [s]. *)
Fixpoint number_prefix (s : string) (i : nat) (count_buf : string)
    : scan_result (string * string) :=
  match s with
  | EmptyString => Scanned (count_buf, s)
  | String c s' =>
    if MR_isdigit c then
      if decide (MR_NUMBER_LEN <= i) then Problem "too large a number"
      else number_prefix s' (S i) (count_buf +:+ String c EmptyString)
    else Scanned (count_buf, s)
  end.

(** [for (i = raw_word_count; i > 0; i--) raw_words[i] = raw_words[i-1];] *)
Fixpoint shift_words_up (i : nat) (raw_words : list string) : list string :=
  match i with
  | 0 => raw_words
  | S i' => shift_words_up i' (<[i := word_at raw_words i']> raw_words)
  end.

(** The first half of [MR_trace_parse_line]: a number prefix of the first
    word becomes a word of its own. *)
Definition split_number_prefix (raw_words : list string) (raw_word_count : nat)
    : scan_result (list string * nat) :=
  if bool_decide (0 < raw_word_count)
     && MR_isdigit (first_char (word_at raw_words 0))
  then
    match number_prefix (word_at raw_words 0) 0 "" with
    | OutOfFuel => OutOfFuel
    | Problem msg => Problem msg
    | Scanned (count_buf, s) =>
      if negb (Ascii.eqb (first_char s) NUL) then
        let raw_words := MR_ensure_big_enough raw_word_count raw_words
                           MR_INIT_WORD_COUNT "" in
        let raw_words := shift_words_up raw_word_count raw_words in
        let raw_words := <[0 := count_buf]> raw_words in
        let raw_words := <[1 := s]> raw_words in
        Scanned (raw_words, S raw_word_count)
      else Scanned (raw_words, raw_word_count)
    end
  else Scanned (raw_words, raw_word_count).

(** The second half: a leading number changes places with the command
    word. *)
Definition swap_number_first (raw_words : list string) (raw_word_count : nat)
    : list string * nat :=
  if bool_decide (1 < raw_word_count)
     && bool_decide (is_Some (MR_trace_is_natural_number (word_at raw_words 0)))
     && negb (bool_decide
                (is_Some (MR_trace_is_natural_number (word_at raw_words 1))))
  then
    let s := word_at raw_words 0 in
    let raw_words := <[0 := word_at raw_words 1]> raw_words in
    let raw_words := <[1 := s]> raw_words in
    (raw_words, raw_word_count)
  else (raw_words, raw_word_count).

Definition MR_trace_parse_line (line : string)
    : scan_result (list string * nat) :=
  match MR_trace_break_into_words line with
  | OutOfFuel => OutOfFuel
  | Problem msg => Problem msg
  | Scanned (raw_words, raw_word_count) =>
    match split_number_prefix raw_words raw_word_count with
    | OutOfFuel => OutOfFuel
    | Problem msg => Problem msg
    | Scanned (raw_words, raw_word_count) =>
      Scanned (swap_number_first raw_words raw_word_count)
    end
  end.

(** ** Alias expansion *)

(** Modelled from the spec: the Alias Table (mercury_trace_alias.c is not
    among the sources) is a "mapping from alias key ... to an ordered
    sequence of replacement words"; [MR_trace_lookup_alias] is its lookup
    and [MR_trace_add_alias] its insertion. *)
Abbreviation alias_table := (gmap string (list string)).

Definition MR_trace_lookup_alias (aliases : alias_table) (name : string)
    : option (list string) :=
  aliases !! name.

Definition MR_trace_add_alias (name : string) (words : list string)
    (aliases : alias_table) : alias_table :=
  <[name := words]> aliases.

(** [for (i = *word_count - 1; i >= alias_copy_start; i--)
       words[i + alias_word_count - alias_copy_start] = words[i];]
    The first argument is [i + 1]. *)
Fixpoint move_words_up (n : nat) (alias_copy_start alias_word_count : nat)
    (words : list string) : list string :=
  match n with
  | 0 => words
  | S i =>
    if decide (alias_copy_start <= i) then
      move_words_up i alias_copy_start alias_word_count
        (<[i + alias_word_count - alias_copy_start := word_at words i]> words)
    else words
  end.

(** [for (i = 0; i < alias_word_count; i++) words[i] = alias_words[i];] *)
Fixpoint copy_alias_body (alias_words : list string) (i : nat)
    (words : list string) : list string :=
  match alias_words with
  | [] => words
  | w :: alias_words' => copy_alias_body alias_words' (S i) (<[i := w]> words)
  end.

(** The lookup key and [alias_copy_start]. *)
Definition alias_key_of (words : list string) (word_count : nat)
    : string * nat :=
  if decide (word_count = 0) then ("EMPTY", 0)
  else if bool_decide (is_Some (MR_trace_is_natural_number (word_at words 0)))
  then ("NUMBER", 0)
  else (word_at words 0, 1).

Definition MR_trace_expand_aliases (aliases : alias_table)
    (words : list string) (word_count : nat) : list string * nat :=
  let '(alias_key, alias_copy_start) := alias_key_of words word_count in
  match MR_trace_lookup_alias aliases alias_key with
  | Some alias_words =>
    let alias_word_count := length alias_words in
    let words := MR_ensure_big_enough (word_count + alias_word_count) words
                   MR_INIT_WORD_COUNT "" in
    let words := move_words_up word_count alias_copy_start alias_word_count
                   words in
    let words := copy_alias_body alias_words 0 words in
    (words, word_count + alias_word_count - alias_copy_start)
  | None => (words, word_count)
  end.

(** ** The command dispatch table *)

Inductive MR_Next : Type := KEEP_INTERACTING | STOP_INTERACTING.

(** The handler functions, as the function pointers the table holds. *)
Module Handler.
Inductive t : Type :=
  | MR_trace_cmd_step
  | MR_trace_cmd_goto
  | MR_trace_cmd_next
  | MR_trace_cmd_finish
  | MR_trace_cmd_exception
  | MR_trace_cmd_return
  | MR_trace_cmd_forward
  | MR_trace_cmd_mindepth
  | MR_trace_cmd_maxdepth
  | MR_trace_cmd_continue
  | MR_trace_cmd_retry
  | MR_trace_cmd_level
  | MR_trace_cmd_up
  | MR_trace_cmd_down
  | MR_trace_cmd_vars
  | MR_trace_cmd_held_vars
  | MR_trace_cmd_print
  | MR_trace_cmd_browse
  | MR_trace_cmd_stack
  | MR_trace_cmd_current
  | MR_trace_cmd_view
  | MR_trace_cmd_hold
  | MR_trace_cmd_diff
  | MR_trace_cmd_dump
  | MR_trace_cmd_list
  | MR_trace_cmd_push_list_dir
  | MR_trace_cmd_pop_list_dir
  | MR_trace_cmd_break
  | MR_trace_cmd_condition
  | MR_trace_cmd_ignore
  | MR_trace_cmd_break_print
  | MR_trace_cmd_enable
  | MR_trace_cmd_disable
  | MR_trace_cmd_delete
  | MR_trace_cmd_register
  | MR_trace_cmd_modules
  | MR_trace_cmd_procedures
  | MR_trace_cmd_query
  | MR_trace_cmd_cc_query
  | MR_trace_cmd_io_query
  | MR_trace_cmd_table_io
  | MR_trace_cmd_printlevel
  | MR_trace_cmd_mmc_options
  | MR_trace_cmd_scroll
  | MR_trace_cmd_stack_default_limit
  | MR_trace_cmd_context
  | MR_trace_cmd_goal_paths
  | MR_trace_cmd_scope
  | MR_trace_cmd_echo
  | MR_trace_cmd_alias
  | MR_trace_cmd_unalias
  | MR_trace_cmd_document_category
  | MR_trace_cmd_document
  | MR_trace_cmd_help
  | MR_trace_cmd_dd
  | MR_trace_cmd_trust
  | MR_trace_cmd_untrust
  | MR_trace_cmd_trusted
  | MR_trace_cmd_set
  | MR_trace_cmd_source
  | MR_trace_cmd_save
  | MR_trace_cmd_quit
  | MR_trace_cmd_histogram_all
  | MR_trace_cmd_histogram_exp
  | MR_trace_cmd_clear_histogram
  | MR_trace_cmd_dice
  | MR_trace_cmd_var_details
  | MR_trace_cmd_term_size
  | MR_trace_cmd_flag
  | MR_trace_cmd_subgoal
  | MR_trace_cmd_consumer
  | MR_trace_cmd_gen_stack
  | MR_trace_cmd_cut_stack
  | MR_trace_cmd_pneg_stack
  | MR_trace_cmd_mm_stacks
  | MR_trace_cmd_nondet_stack
  | MR_trace_cmd_stack_regs
  | MR_trace_cmd_all_regs
  | MR_trace_cmd_debug_vars
  | MR_trace_cmd_stats
  | MR_trace_cmd_print_optionals
  | MR_trace_cmd_unhide_events
  | MR_trace_cmd_table
  | MR_trace_cmd_type_ctor
  | MR_trace_cmd_class_decl
  | MR_trace_cmd_all_type_ctors
  | MR_trace_cmd_all_class_decls
  | MR_trace_cmd_all_procedures
  | MR_trace_cmd_ambiguity.
End Handler.

(** An entry of the table. The two fields that serve command completion
    only ([MR_cmd_arg_strings], [MR_cmd_arg_completer]) are left out; a NULL
    pointer is [None]. *)
Record MR_Trace_Command_Info : Type := {
  MR_cmd_category : option string;
  MR_cmd_name : option string;
  MR_cmd_function : option Handler.t
}.

Definition command (category name : string) (f : Handler.t)
    : MR_Trace_Command_Info :=
  {| MR_cmd_category := Some category; MR_cmd_name := Some name;
     MR_cmd_function := Some f |}.

Definition MR_trace_command_infos : list MR_Trace_Command_Info :=
  [
    command "forward" "step" Handler.MR_trace_cmd_step;
    command "forward" "goto" Handler.MR_trace_cmd_goto;
    command "forward" "next" Handler.MR_trace_cmd_next;
    command "forward" "finish" Handler.MR_trace_cmd_finish;
    command "forward" "exception" Handler.MR_trace_cmd_exception;
    command "forward" "return" Handler.MR_trace_cmd_return;
    command "forward" "forward" Handler.MR_trace_cmd_forward;
    command "forward" "mindepth" Handler.MR_trace_cmd_mindepth;
    command "forward" "maxdepth" Handler.MR_trace_cmd_maxdepth;
    command "forward" "continue" Handler.MR_trace_cmd_continue;
    command "backward" "retry" Handler.MR_trace_cmd_retry;
    command "browsing" "level" Handler.MR_trace_cmd_level;
    command "browsing" "up" Handler.MR_trace_cmd_up;
    command "browsing" "down" Handler.MR_trace_cmd_down;
    command "browsing" "vars" Handler.MR_trace_cmd_vars;
    command "browsing" "held_vars" Handler.MR_trace_cmd_held_vars;
    command "browsing" "print" Handler.MR_trace_cmd_print;
    command "browsing" "browse" Handler.MR_trace_cmd_browse;
    command "browsing" "stack" Handler.MR_trace_cmd_stack;
    command "browsing" "current" Handler.MR_trace_cmd_current;
    command "browsing" "view" Handler.MR_trace_cmd_view;
    command "browsing" "hold" Handler.MR_trace_cmd_hold;
    command "browsing" "diff" Handler.MR_trace_cmd_diff;
    command "browsing" "dump" Handler.MR_trace_cmd_dump;
    command "browsing" "list" Handler.MR_trace_cmd_list;
    command "browsing" "push_list_dir" Handler.MR_trace_cmd_push_list_dir;
    command "browsing" "pop_list_dir" Handler.MR_trace_cmd_pop_list_dir;
    command "breakpoint" "break" Handler.MR_trace_cmd_break;
    command "breakpoint" "condition" Handler.MR_trace_cmd_condition;
    command "breakpoint" "ignore" Handler.MR_trace_cmd_ignore;
    command "breakpoint" "break_print" Handler.MR_trace_cmd_break_print;
    command "breakpoint" "enable" Handler.MR_trace_cmd_enable;
    command "breakpoint" "disable" Handler.MR_trace_cmd_disable;
    command "breakpoint" "delete" Handler.MR_trace_cmd_delete;
    command "breakpoint" "register" Handler.MR_trace_cmd_register;
    command "breakpoint" "modules" Handler.MR_trace_cmd_modules;
    command "breakpoint" "procedures" Handler.MR_trace_cmd_procedures;
    command "queries" "query" Handler.MR_trace_cmd_query;
    command "queries" "cc_query" Handler.MR_trace_cmd_cc_query;
    command "queries" "io_query" Handler.MR_trace_cmd_io_query;
    command "table_io" "table_io" Handler.MR_trace_cmd_table_io;
    command "parameter" "printlevel" Handler.MR_trace_cmd_printlevel;
    command "parameter" "mmc_options" Handler.MR_trace_cmd_mmc_options;
    command "parameter" "scroll" Handler.MR_trace_cmd_scroll;
    command "parameter" "stack_default_limit" Handler.MR_trace_cmd_stack_default_limit;
    command "parameter" "context" Handler.MR_trace_cmd_context;
    command "parameter" "goal_paths" Handler.MR_trace_cmd_goal_paths;
    command "parameter" "scope" Handler.MR_trace_cmd_scope;
    command "parameter" "echo" Handler.MR_trace_cmd_echo;
    command "parameter" "alias" Handler.MR_trace_cmd_alias;
    command "parameter" "unalias" Handler.MR_trace_cmd_unalias;
    command "help" "document_category" Handler.MR_trace_cmd_document_category;
    command "help" "document" Handler.MR_trace_cmd_document;
    command "help" "help" Handler.MR_trace_cmd_help;
    command "dd" "dd" Handler.MR_trace_cmd_dd;
    command "dd" "trust" Handler.MR_trace_cmd_trust;
    command "dd" "untrust" Handler.MR_trace_cmd_untrust;
    command "dd" "trusted" Handler.MR_trace_cmd_trusted;
    command "misc" "set" Handler.MR_trace_cmd_set;
    command "misc" "source" Handler.MR_trace_cmd_source;
    command "misc" "save" Handler.MR_trace_cmd_save;
    command "misc" "quit" Handler.MR_trace_cmd_quit;
    command "exp" "histogram_all" Handler.MR_trace_cmd_histogram_all;
    command "exp" "histogram_exp" Handler.MR_trace_cmd_histogram_exp;
    command "exp" "clear_histogram" Handler.MR_trace_cmd_clear_histogram;
    command "exp" "dice" Handler.MR_trace_cmd_dice;
    command "developer" "var_details" Handler.MR_trace_cmd_var_details;
    command "developer" "term_size" Handler.MR_trace_cmd_term_size;
    command "developer" "flag" Handler.MR_trace_cmd_flag;
    command "developer" "subgoal" Handler.MR_trace_cmd_subgoal;
    command "developer" "consumer" Handler.MR_trace_cmd_consumer;
    command "developer" "gen_stack" Handler.MR_trace_cmd_gen_stack;
    command "developer" "cut_stack" Handler.MR_trace_cmd_cut_stack;
    command "developer" "pneg_stack" Handler.MR_trace_cmd_pneg_stack;
    command "developer" "mm_stacks" Handler.MR_trace_cmd_mm_stacks;
    command "developer" "nondet_stack" Handler.MR_trace_cmd_nondet_stack;
    command "developer" "stack_regs" Handler.MR_trace_cmd_stack_regs;
    command "developer" "all_regs" Handler.MR_trace_cmd_all_regs;
    command "developer" "debug_vars" Handler.MR_trace_cmd_debug_vars;
    command "developer" "stats" Handler.MR_trace_cmd_stats;
    command "developer" "print_optionals" Handler.MR_trace_cmd_print_optionals;
    command "developer" "unhide_events" Handler.MR_trace_cmd_unhide_events;
    command "developer" "table" Handler.MR_trace_cmd_table;
    command "developer" "type_ctor" Handler.MR_trace_cmd_type_ctor;
    command "developer" "class_decl" Handler.MR_trace_cmd_class_decl;
    command "developer" "all_type_ctors" Handler.MR_trace_cmd_all_type_ctors;
    command "developer" "all_class_decls" Handler.MR_trace_cmd_all_class_decls;
    command "developer" "all_procedures" Handler.MR_trace_cmd_all_procedures;
    command "developer" "ambiguity" Handler.MR_trace_cmd_ambiguity;
    {| MR_cmd_category := None; MR_cmd_name := Some "NUMBER";
       MR_cmd_function := None |};
    {| MR_cmd_category := None; MR_cmd_name := Some "EMPTY";
       MR_cmd_function := None |};
    {| MR_cmd_category := None; MR_cmd_name := None;
       MR_cmd_function := None |}
  ].

(** [for (i = 0; MR_trace_command_infos[i].MR_cmd_name != NULL; i++)] *)
Fixpoint valid_command_loop (infos : list MR_Trace_Command_Info)
    (word : string) : option MR_Trace_Command_Info :=
  match infos with
  | [] => None
  | info :: infos' =>
    match MR_cmd_name info with
    | None => None
    | Some name =>
      if String.eqb name word then Some info
      else valid_command_loop infos' word
    end
  end.

Definition MR_trace_valid_command (word : string)
    : option MR_Trace_Command_Info :=
  valid_command_loop MR_trace_command_infos word.

Definition newline : string := String "010"%char EmptyString.

(** What [MR_trace_handle_cmd] does with a command line: it calls the
    handler of the entry found, which for an entry without a handler is a
    call through a null function pointer, or it reports an unknown command
    on [MR_mdb_err] and returns. *)
Inductive dispatch : Type :=
  | CallHandler (cmd_info : MR_Trace_Command_Info) (f : Handler.t)
  | CallNullPointer (cmd_info : MR_Trace_Command_Info)
  | UnknownCommand (err : string) (next : MR_Next).

Definition MR_trace_handle_cmd (words : list string) : dispatch :=
  match MR_trace_valid_command (word_at words 0) with
  | Some cmd_info =>
    match MR_cmd_function cmd_info with
    | Some f => CallHandler cmd_info f
    | None => CallNullPointer cmd_info
    end
  | None =>
    UnknownCommand
      ("Unknown command `" +:+ word_at words 0 +:+
       "'. Give the command `help' for help." +:+ newline)
      KEEP_INTERACTING
  end.

(** What [MR_trace_debug_cmd] does with a line, up to the call of the
    handler: a line that does not parse is reported on [MR_mdb_err]
    (the problem, then a full stop and a newline); an empty command line is
    ignored; any other goes to [MR_trace_handle_cmd]. *)
Inductive debug_cmd : Type :=
  | ParseProblem (err : string) (next : MR_Next)
  | EmptyCommand (next : MR_Next)
  | Dispatch (words : list string) (d : dispatch)
  | NoFuel.

Definition MR_trace_debug_cmd (aliases : alias_table) (line : string)
    : debug_cmd :=
  match MR_trace_parse_line line with
  | OutOfFuel => NoFuel
  | Problem problem =>
    ParseProblem (problem +:+ "." +:+ newline) KEEP_INTERACTING
  | Scanned (words, word_count) =>
    let '(words, word_count) :=
      MR_trace_expand_aliases aliases words word_count in
    if decide (word_count = 0) then EmptyCommand KEEP_INTERACTING
    else Dispatch (take word_count words)
           (MR_trace_handle_cmd (take word_count words))
  end.

(** ** The session: pending lines, input and output, settings *)

Inductive MR_Trace_Print_Level : Type :=
  | MR_PRINT_LEVEL_NONE
  | MR_PRINT_LEVEL_SOME
  | MR_PRINT_LEVEL_ALL.

(** When a breakpoint is to be ignored. *)
Inductive MR_Spy_Ignore_When : Type :=
  | MR_SPY_DONT_IGNORE
  | MR_SPY_IGNORE_INTERFACE
  | MR_SPY_IGNORE_ENTRY.

(** What the engine does to the world around it, in order: text written
    to [MR_mdb_out], text written to [MR_mdb_err], a prompt shown by
    [MR_trace_readline], the report of an event by
    [MR_trace_event_print_internal_report], and the calls of functions of
    other files whose work is not modelled here. *)
Inductive effect : Type :=
  | Out (text : string)
  | Err (text : string)
  | Prompt (text : string)
  | EventReport (event_number : Z)
  | Call_MR_ignore_spy_point (n : Z) (ignore_when : MR_Spy_Ignore_When)
      (ignore_count : Z)
  | Call_MR_maybe_print_spy_point (n : Z)
  | Call_MR_trace_var_print_list (print_list : list string)
  | Call_MR_trace_maybe_close_source_window.

(** The static variables of the file that the functions below read or
    write. [MR_line_queue] is the linked list from [MR_line_head] to
    [MR_line_tail]; [mdb_in] holds the lines that [MR_mdb_in] will still
    deliver, the end of input after them. *)
Record session : Type := {
  MR_line_queue : list string;
  mdb_in : list string;
  effects : list effect;
  MR_trace_internal_interacting : bool;
  MR_echo_commands : bool;
  MR_scroll_control : bool;
  MR_scroll_limit : Z;
  MR_scroll_next : Z;
  MR_default_print_level : MR_Trace_Print_Level;
  MR_current_cmd_name : string
}.

Definition set_line_queue (q : list string) (st : session) : session :=
  {| MR_line_queue := q;
     mdb_in := mdb_in st;
     effects := effects st;
     MR_trace_internal_interacting := MR_trace_internal_interacting st;
     MR_echo_commands := MR_echo_commands st;
     MR_scroll_control := MR_scroll_control st;
     MR_scroll_limit := MR_scroll_limit st;
     MR_scroll_next := MR_scroll_next st;
     MR_default_print_level := MR_default_print_level st;
     MR_current_cmd_name := MR_current_cmd_name st |}.

Definition set_mdb_in (l : list string) (st : session) : session :=
  {| MR_line_queue := MR_line_queue st;
     mdb_in := l;
     effects := effects st;
     MR_trace_internal_interacting := MR_trace_internal_interacting st;
     MR_echo_commands := MR_echo_commands st;
     MR_scroll_control := MR_scroll_control st;
     MR_scroll_limit := MR_scroll_limit st;
     MR_scroll_next := MR_scroll_next st;
     MR_default_print_level := MR_default_print_level st;
     MR_current_cmd_name := MR_current_cmd_name st |}.

Definition write (e : effect) (st : session) : session :=
  {| MR_line_queue := MR_line_queue st;
     mdb_in := mdb_in st;
     effects := effects st ++ [e];
     MR_trace_internal_interacting := MR_trace_internal_interacting st;
     MR_echo_commands := MR_echo_commands st;
     MR_scroll_control := MR_scroll_control st;
     MR_scroll_limit := MR_scroll_limit st;
     MR_scroll_next := MR_scroll_next st;
     MR_default_print_level := MR_default_print_level st;
     MR_current_cmd_name := MR_current_cmd_name st |}.

Definition set_internal_interacting (b : bool) (st : session) : session :=
  {| MR_line_queue := MR_line_queue st;
     mdb_in := mdb_in st;
     effects := effects st;
     MR_trace_internal_interacting := b;
     MR_echo_commands := MR_echo_commands st;
     MR_scroll_control := MR_scroll_control st;
     MR_scroll_limit := MR_scroll_limit st;
     MR_scroll_next := MR_scroll_next st;
     MR_default_print_level := MR_default_print_level st;
     MR_current_cmd_name := MR_current_cmd_name st |}.

Definition set_scroll_next (n : Z) (st : session) : session :=
  {| MR_line_queue := MR_line_queue st;
     mdb_in := mdb_in st;
     effects := effects st;
     MR_trace_internal_interacting := MR_trace_internal_interacting st;
     MR_echo_commands := MR_echo_commands st;
     MR_scroll_control := MR_scroll_control st;
     MR_scroll_limit := MR_scroll_limit st;
     MR_scroll_next := n;
     MR_default_print_level := MR_default_print_level st;
     MR_current_cmd_name := MR_current_cmd_name st |}.

(** *** The session queue *)

Definition MR_trace_getline_queue (st : session) : option string * session :=
  match MR_line_queue st with
  | contents :: rest => (Some contents, set_line_queue rest st)
  | [] => (None, st)
  end.

Definition MR_insert_line_at_head (contents : string) (st : session)
    : session :=
  set_line_queue (contents :: MR_line_queue st) st.

Definition MR_insert_line_at_tail (contents : string) (st : session)
    : session :=
  set_line_queue (MR_line_queue st ++ [contents]) st.

(** *** Reading lines *)

(** Modelled from the spec: [MR_trace_readline] (of
    mercury_trace_readline.c, which is not among the sources) must "print
    the prompt to mdb_out, read a line from mdb_in, and return it"; "if EOF
    occurs on an empty line, return NULL". *)
Definition MR_trace_readline (prompt : string) (st : session)
    : option string * session :=
  let st := write (Prompt prompt) st in
  match mdb_in st with
  | line :: rest => (Some line, set_mdb_in rest st)
  | [] => (None, st)
  end.

Definition MR_trace_getline (prompt : string) (st : session)
    : option string * session :=
  match MR_trace_getline_queue st with
  | (Some line, st) => (Some line, st)
  | (None, st) =>
    let st := set_internal_interacting true st in
    match MR_trace_readline prompt st with
    | (Some line, st) =>
      if MR_echo_commands st then
        (Some line, write (Out newline) (write (Out line) st))
      else (Some line, st)
    | (None, st) => (None, st)
    end
  end.

(** The loop of [MR_trace_continue_line] over the characters from [ptr] on:
    it ends at an unquoted, unescaped semicolon, with the text before it and
    the text after it, or at the end of the string. *)
Inductive continue_scan : Type :=
  | AtSemicolon (before after : string)
  | AtEnd (escaped single_quoted double_quoted : bool).

Fixpoint continue_line_loop (ptr : string)
    (escaped single_quoted double_quoted : bool) : continue_scan :=
  match ptr with
  | EmptyString => AtEnd escaped single_quoted double_quoted
  | String c ptr' =>
    if escaped then
      match continue_line_loop ptr' false single_quoted double_quoted with
      | AtSemicolon before after => AtSemicolon (String c before) after
      | r => r
      end
    else if Ascii.eqb c ESCAPE_CHAR then
      match continue_line_loop ptr' true single_quoted double_quoted with
      | AtSemicolon before after => AtSemicolon (String c before) after
      | r => r
      end
    else if negb double_quoted && Ascii.eqb c SINGLE_QUOTE_CHAR then
      match continue_line_loop ptr' false (negb single_quoted) double_quoted
      with
      | AtSemicolon before after => AtSemicolon (String c before) after
      | r => r
      end
    else if negb single_quoted && Ascii.eqb c DOUBLE_QUOTE_CHAR then
      match continue_line_loop ptr' false single_quoted (negb double_quoted)
      with
      | AtSemicolon before after => AtSemicolon (String c before) after
      | r => r
      end
    else if negb single_quoted && negb double_quoted && Ascii.eqb c ";"%char
    then AtSemicolon EmptyString ptr'
    else
      match continue_line_loop ptr' false single_quoted double_quoted with
      | AtSemicolon before after => AtSemicolon (String c before) after
      | r => r
      end
  end.

(** [*(ptr - 1) = ' '] at the end of a nonempty string. *)
Fixpoint replace_last_by_space (s : string) : string :=
  match s with
  | EmptyString => EmptyString
  | String c EmptyString => String " "%char EmptyString
  | String c s' => String c (replace_last_by_space s')
  end.

(** The result of [MR_trace_continue_line]: whether the line continues, the
    text from [ptr] on as overwritten, the two quote flags, the session. A
    semicolon is only recognised while both flags are off. *)
Definition MR_trace_continue_line (ptr : string)
    (single_quoted double_quoted : bool) (st : session)
    : bool * string * bool * bool * session :=
  match continue_line_loop ptr false single_quoted double_quoted with
  | AtSemicolon before after =>
    (false, before, false, false, MR_insert_line_at_head after st)
  | AtEnd escaped single_quoted double_quoted =>
    (single_quoted || double_quoted || escaped,
     if escaped then replace_last_by_space ptr else ptr,
     single_quoted, double_quoted, st)
  end.

(** The [while] loop of [MR_trace_get_command]. [cmd_chars] is the command
    read so far up to [ptr], and [ptr] the part that
    [MR_trace_continue_line] has still to look at. Every turn of the loop
    takes a line from the queue or from [MR_mdb_in], so the number of lines
    left bounds the number of turns. *)
Fixpoint get_command_loop (fuel : nat) (cmd_chars ptr : string)
    (single_quoted double_quoted : bool) (st : session)
    : option (string * session) :=
  match fuel with
  | 0 => None
  | S fuel' =>
    match MR_trace_continue_line ptr single_quoted double_quoted st with
    | (continues, ptr, single_quoted, double_quoted, st) =>
      if continues then
        match MR_trace_getline "> " st with
        | (None, st) => Some (cmd_chars +:+ ptr, st)
        | (Some line, st) =>
          get_command_loop fuel' (cmd_chars +:+ ptr) line
            single_quoted double_quoted st
        end
      else Some (cmd_chars +:+ ptr, st)
    end
  end.

Definition MR_trace_get_command (prompt : string) (st : session)
    : option (string * session) :=
  match MR_trace_getline prompt st with
  | (None, st) => Some ("quit", st)
  | (Some line, st) =>
    get_command_loop (S (length (MR_line_queue st) + length (mdb_in st)))
      EmptyString line false false st
  end.

(** ** Events and movement decisions *)

(** Modelled from the spec: the ports of [MR_Trace_Port] (declared in a
    header that is not among the sources) are "CALL, EXIT, REDO, FAIL,
    EXCEPTION, and several internal/disabled ports". *)
Inductive MR_Trace_Port : Type :=
  | MR_PORT_CALL
  | MR_PORT_EXIT
  | MR_PORT_REDO
  | MR_PORT_FAIL
  | MR_PORT_EXCEPTION
  | MR_PORT_COND
  | MR_PORT_THEN
  | MR_PORT_ELSE
  | MR_PORT_NEG_ENTER
  | MR_PORT_NEG_SUCCESS
  | MR_PORT_NEG_FAILURE
  | MR_PORT_DISJ
  | MR_PORT_SWITCH
  | MR_PORT_NONE.

Global Instance MR_Trace_Port_eq_dec : EqDecision MR_Trace_Port.
Proof. solve_decision. Defined.

(** The fields of [MR_Event_Info] that the handlers below read;
    [MR_sle_detism] stands for
    [MR_event_sll->MR_sll_entry->MR_sle_detism]. [MR_call_depth] is an
    [MR_Unsigned]. *)
Record MR_Event_Info : Type := {
  MR_event_number : Z;
  MR_call_seqno : Z;
  MR_call_depth : Z;
  MR_trace_port : MR_Trace_Port;
  MR_sle_detism : Z
}.

Inductive MR_Trace_Cmd_Type : Type :=
  | MR_CMD_GOTO
  | MR_CMD_NEXT
  | MR_CMD_FINISH
  | MR_CMD_FAIL
  | MR_CMD_RESUME_FORWARD
  | MR_CMD_EXCP
  | MR_CMD_RETURN
  | MR_CMD_MIN_DEPTH
  | MR_CMD_MAX_DEPTH
  | MR_CMD_TO_END.

(** The movement decision. [MR_trace_stop_depth] and [MR_trace_stop_event]
    are [MR_Unsigned]. *)
Record MR_Trace_Cmd_Info : Type := {
  MR_trace_cmd : MR_Trace_Cmd_Type;
  MR_trace_stop_depth : Z;
  MR_trace_stop_event : Z;
  MR_trace_print_level : MR_Trace_Print_Level;
  MR_trace_strict : bool;
  MR_trace_must_check : bool
}.

Definition set_trace_cmd (c : MR_Trace_Cmd_Type) (cmd : MR_Trace_Cmd_Info)
    : MR_Trace_Cmd_Info :=
  {| MR_trace_cmd := c; MR_trace_stop_depth := MR_trace_stop_depth cmd;
     MR_trace_stop_event := MR_trace_stop_event cmd;
     MR_trace_print_level := MR_trace_print_level cmd;
     MR_trace_strict := MR_trace_strict cmd;
     MR_trace_must_check := MR_trace_must_check cmd |}.

Definition set_trace_stop_depth (d : Z) (cmd : MR_Trace_Cmd_Info)
    : MR_Trace_Cmd_Info :=
  {| MR_trace_cmd := MR_trace_cmd cmd; MR_trace_stop_depth := d;
     MR_trace_stop_event := MR_trace_stop_event cmd;
     MR_trace_print_level := MR_trace_print_level cmd;
     MR_trace_strict := MR_trace_strict cmd;
     MR_trace_must_check := MR_trace_must_check cmd |}.

Definition set_trace_print_level (l : MR_Trace_Print_Level)
    (cmd : MR_Trace_Cmd_Info) : MR_Trace_Cmd_Info :=
  {| MR_trace_cmd := MR_trace_cmd cmd;
     MR_trace_stop_depth := MR_trace_stop_depth cmd;
     MR_trace_stop_event := MR_trace_stop_event cmd;
     MR_trace_print_level := l;
     MR_trace_strict := MR_trace_strict cmd;
     MR_trace_must_check := MR_trace_must_check cmd |}.

Definition set_trace_strict (b : bool) (cmd : MR_Trace_Cmd_Info)
    : MR_Trace_Cmd_Info :=
  {| MR_trace_cmd := MR_trace_cmd cmd;
     MR_trace_stop_depth := MR_trace_stop_depth cmd;
     MR_trace_stop_event := MR_trace_stop_event cmd;
     MR_trace_print_level := MR_trace_print_level cmd;
     MR_trace_strict := b;
     MR_trace_must_check := MR_trace_must_check cmd |}.

(** ** Messages shared by the handlers *)

Definition MR_trace_usage_cur_cmd (st : session) : session :=
  write (Err ("mdb: " +:+ MR_current_cmd_name st +:+
              ": usage error -- type `help " +:+ MR_current_cmd_name st +:+
              "' for help." +:+ newline)) st.

Definition MR_trace_do_noop (st : session) : session :=
  write (Err ("This command is a no-op from this port." +:+ newline)) st.

(** ** Option processing

    The handlers call [MR_getopt] or [MR_getopt_long] (of
    mercury_getopt.c, which is not among the sources) until it returns EOF
    or a code they do not know. A run of these calls over the words of a
    command is summed up by the codes returned, in order, each with the
    value of [MR_optarg], and by the words that are left from index
    [MR_optind - 1] on when EOF is returned: those are the words a handler
    goes on with, [*word_count] being their number. *)
Record getopt_run : Type := {
  go_codes : list (ascii * string);
  go_words : list string
}.

(** [struct MR_option], without its [flag] field, which is always NULL
    here. *)
Record MR_option : Type := {
  MR_option_name : string;
  MR_option_has_arg : bool;
  MR_option_val : ascii
}.

Definition MR_trace_movement_cmd_opts : list MR_option :=
  [ {| MR_option_name := "all"; MR_option_has_arg := false;
       MR_option_val := "a"%char |};
    {| MR_option_name := "none"; MR_option_has_arg := false;
       MR_option_val := "n"%char |};
    {| MR_option_name := "some"; MR_option_has_arg := false;
       MR_option_val := "s"%char |};
    {| MR_option_name := "nostrict"; MR_option_has_arg := false;
       MR_option_val := "N"%char |};
    {| MR_option_name := "strict"; MR_option_has_arg := false;
       MR_option_val := "S"%char |} ].

Definition MR_trace_retry_opts : list MR_option :=
  [ {| MR_option_name := "assume-all-io-is-tabled";
       MR_option_has_arg := false; MR_option_val := "a"%char |};
    {| MR_option_name := "force"; MR_option_has_arg := false;
       MR_option_val := "f"%char |};
    {| MR_option_name := "interactive"; MR_option_has_arg := false;
       MR_option_val := "i"%char |};
    {| MR_option_name := "only-if-safe"; MR_option_has_arg := false;
       MR_option_val := "o"%char |} ].

Definition MR_trace_ignore_count_opts : list MR_option :=
  [ {| MR_option_name := "ignore-entry"; MR_option_has_arg := true;
       MR_option_val := "E"%char |};
    {| MR_option_name := "ignore-interface"; MR_option_has_arg := true;
       MR_option_val := "I"%char |} ].

Inductive MR_Retry_Across_Io : Type :=
  | MR_RETRY_IO_FORCE
  | MR_RETRY_IO_INTERACTIVE
  | MR_RETRY_IO_ONLY_IF_SAFE.

Inductive MR_Retry_Result : Type :=
  | MR_RETRY_OK_DIRECT
  | MR_RETRY_OK_FINISH_FIRST
  | MR_RETRY_OK_FAIL_FIRST
  | MR_RETRY_ERROR.

(** How a handler ends: it returns, or the process exits. *)
Inductive handler_end : Type :=
  | Returns (next : MR_Next)
  | Exits (status : Z).

Definition EXIT_SUCCESS : Z := 0.

(** The breakpoint table as [MR_trace_cmd_ignore] reads it: whether each
    slot exists ([MR_spy_points[i]->spy_exists]), for the slots below
    [MR_spy_point_next], and the most recent one. The functions of
    mercury_trace_spy.c that it calls show as effects; they do not change
    what is read here. *)
Record spy_table : Type := {
  spy_exists : list bool;
  MR_most_recent_spy_point : Z
}.

Definition MR_spy_point_next (t : spy_table) : Z :=
  Z.of_nat (length (spy_exists t)).

(** [0 <= n && n < MR_spy_point_next && MR_spy_points[n]->spy_exists] *)
Definition spy_point_exists (t : spy_table) (n : Z) : bool :=
  bool_decide (0 <= n)%Z && bool_decide (n < MR_spy_point_next t)%Z
  && default false (spy_exists t !! Z.to_nat n).

(** The first character of a line that is not white space, NUL if there is
    none: [while (line[i] != 0 && MR_isspace(line[i])) i++;] and then
    [line[i]]. *)
Fixpoint first_nonspace (line : string) : ascii :=
  match line with
  | EmptyString => NUL
  | String c line' =>
    if negb (Ascii.eqb c NUL) && MR_isspace c then first_nonspace line'
    else c
  end.

(** ** The command handlers *)

Section Handlers.

(** The functions and macros of other files that decide what the handlers
    do. [MR_getopt] and [MR_getopt_long] take the words of the command and
    the option letters ([MR_getopt_long] also the long options) and give
    the run of calls as described above. [MR_trace_retry] gives its
    result, the problem it reports and the session it leaves. *)
Variable MR_getopt : list string -> string -> getopt_run.
Variable MR_getopt_long :
  list string -> string -> list MR_option -> getopt_run.
Variable MR_DETISM_DET_STACK : Z -> bool.
Variable MR_detism_names : Z -> string.
Variable MR_port_is_entry : MR_Trace_Port -> bool.
Variable MR_trace_retry :
  MR_Event_Info -> Z -> MR_Retry_Across_Io -> bool -> session ->
  MR_Retry_Result * string * session.
Variable MR_trace_var_print_list : list string -> Z.

(** *** Options of the movement commands *)

Definition MR_TRACE_MOVEMENT_OPTS : string := "NSans".

(** The [while] loop over the codes that [MR_getopt_long] returns; [None]
    at a code that is not an option of the command. *)
Fixpoint movement_cmd_opts_loop (codes : list (ascii * string))
    (cmd : MR_Trace_Cmd_Info) : option MR_Trace_Cmd_Info * MR_Trace_Cmd_Info :=
  match codes with
  | [] => (Some cmd, cmd)
  | (c, _) :: codes' =>
    if Ascii.eqb c "N"%char then
      movement_cmd_opts_loop codes' (set_trace_strict false cmd)
    else if Ascii.eqb c "S"%char then
      movement_cmd_opts_loop codes' (set_trace_strict true cmd)
    else if Ascii.eqb c "a"%char then
      movement_cmd_opts_loop codes'
        (set_trace_print_level MR_PRINT_LEVEL_ALL cmd)
    else if Ascii.eqb c "n"%char then
      movement_cmd_opts_loop codes'
        (set_trace_print_level MR_PRINT_LEVEL_NONE cmd)
    else if Ascii.eqb c "s"%char then
      movement_cmd_opts_loop codes'
        (set_trace_print_level MR_PRINT_LEVEL_SOME cmd)
    else (None, cmd)
  end.

(** Returns whether the options were accepted, [*cmd], [*words] and the
    session. *)
Definition MR_trace_options_movement_cmd (cmd : MR_Trace_Cmd_Info)
    (words : list string) (st : session)
    : bool * MR_Trace_Cmd_Info * list string * session :=
  let run := MR_getopt_long words MR_TRACE_MOVEMENT_OPTS
               MR_trace_movement_cmd_opts in
  match movement_cmd_opts_loop (go_codes run) cmd with
  | (None, cmd) => (false, cmd, words, MR_trace_usage_cur_cmd st)
  | (Some _, cmd) => (true, cmd, go_words run, st)
  end.

(** *** fail *)

(** [stop_depth], an [int], as the handler computes it from [depth], an
    [MR_Unsigned], and the words left after the options; [None] is the
    usage error. *)
Definition fail_stop_depth (depth : Z) (words : list string) : option Z :=
  if decide (length words = 2) then
    match MR_trace_is_natural_number (word_at words 1) with
    | Some n => Some (to_int (to_MR_Unsigned (depth - n)))
    | None => None
    end
  else if decide (length words = 1) then Some (to_int depth)
  else None.

Definition MR_trace_cmd_fail (words : list string) (cmd : MR_Trace_Cmd_Info)
    (event_info : MR_Event_Info) (st : session)
    : MR_Next * MR_Trace_Cmd_Info * session :=
  let detism := MR_sle_detism event_info in
  let depth := MR_call_depth event_info in
  let cmd := set_trace_strict true cmd in
  let cmd := set_trace_print_level (MR_default_print_level st) cmd in
  match MR_trace_options_movement_cmd cmd words st with
  | (false, cmd, _, st) => (KEEP_INTERACTING, cmd, st)
  | (true, cmd, words, st) =>
    match fail_stop_depth depth words with
    | None => (KEEP_INTERACTING, cmd, MR_trace_usage_cur_cmd st)
    | Some stop_depth =>
      if MR_DETISM_DET_STACK detism then
        (KEEP_INTERACTING, cmd,
         write (Err ("mdb: cannot continue until failure: " +:+
                     "selected procedure has determinism " +:+
                     MR_detism_names detism +:+ "." +:+ newline)) st)
      else if bool_decide (depth = to_MR_Unsigned stop_depth)
              && bool_decide (MR_trace_port event_info = MR_PORT_FAIL)
      then (KEEP_INTERACTING, cmd, MR_trace_do_noop st)
      else if bool_decide (depth = to_MR_Unsigned stop_depth)
              && bool_decide (MR_trace_port event_info = MR_PORT_EXCEPTION)
      then
        (KEEP_INTERACTING, cmd,
         write (Err ("mdb: cannot continue until failure: " +:+
                     "the call has raised an exception." +:+ newline)) st)
      else
        (STOP_INTERACTING,
         set_trace_stop_depth (to_MR_Unsigned stop_depth)
           (set_trace_cmd MR_CMD_FAIL cmd),
         st)
    end
  end.

(** *** retry

    [MR_trace_event_number], the number of the current event kept by the
    runtime, is read from the event. *)

Fixpoint retry_opts_loop (codes : list (ascii * string))
    (across_io : MR_Retry_Across_Io) (assume_all_io_is_tabled : bool)
    : bool * MR_Retry_Across_Io * bool :=
  match codes with
  | [] => (true, across_io, assume_all_io_is_tabled)
  | (c, _) :: codes' =>
    if Ascii.eqb c "a"%char then retry_opts_loop codes' across_io true
    else if Ascii.eqb c "f"%char then
      retry_opts_loop codes' MR_RETRY_IO_FORCE assume_all_io_is_tabled
    else if Ascii.eqb c "i"%char then
      retry_opts_loop codes' MR_RETRY_IO_INTERACTIVE assume_all_io_is_tabled
    else if Ascii.eqb c "o"%char then
      retry_opts_loop codes' MR_RETRY_IO_ONLY_IF_SAFE assume_all_io_is_tabled
    else (false, across_io, assume_all_io_is_tabled)
  end.

Definition MR_trace_options_retry (across_io : MR_Retry_Across_Io)
    (assume_all_io_is_tabled : bool) (words : list string) (st : session)
    : bool * MR_Retry_Across_Io * bool * list string * session :=
  let run := MR_getopt_long words "afio" MR_trace_retry_opts in
  match retry_opts_loop (go_codes run) across_io assume_all_io_is_tabled with
  | (false, across_io, assume) =>
    (false, across_io, assume, words, MR_trace_usage_cur_cmd st)
  | (true, across_io, assume) => (true, across_io, assume, go_words run, st)
  end.

(** The first lines of [MR_trace_cmd_retry]: [None] is the usage error that
    makes the handler return; otherwise the ancestor level (an [int], the
    one [MR_trace_is_natural_number] gives), the two settings for I/O and
    the session. When the options are refused the handler does not return:
    it goes on with the initial ancestor level. *)
Definition retry_arguments (words : list string) (st : session)
    : option (Z * MR_Retry_Across_Io * bool) * session :=
  match MR_trace_options_retry MR_RETRY_IO_INTERACTIVE false words st with
  | (false, across_io, assume, _, st) => (Some (0%Z, across_io, assume), st)
  | (true, across_io, assume, words, st) =>
    if decide (length words = 2) then
      match MR_trace_is_natural_number (word_at words 1) with
      | Some n => (Some (n, across_io, assume), st)
      | None => (None, MR_trace_usage_cur_cmd st)
      end
    else if decide (length words = 1) then (Some (0%Z, across_io, assume), st)
    else (None, MR_trace_usage_cur_cmd st)
  end.

Definition MR_trace_cmd_retry (words : list string) (cmd : MR_Trace_Cmd_Info)
    (event_info : MR_Event_Info) (st : session)
    : MR_Next * MR_Trace_Cmd_Info * session :=
  match retry_arguments words st with
  | (None, st) => (KEEP_INTERACTING, cmd, st)
  | (Some (ancestor_level, across_io, assume_all_io_is_tabled), st) =>
    if bool_decide (ancestor_level = 0%Z)
       && MR_port_is_entry (MR_trace_port event_info)
    then (KEEP_INTERACTING, cmd, MR_trace_do_noop st)
    else
      match MR_trace_retry event_info ancestor_level across_io
              assume_all_io_is_tabled st with
      | (MR_RETRY_OK_DIRECT, _, st) =>
        let cmd := set_trace_cmd MR_CMD_GOTO cmd in
        let cmd :=
          {| MR_trace_cmd := MR_trace_cmd cmd;
             MR_trace_stop_depth := MR_trace_stop_depth cmd;
             MR_trace_stop_event :=
               to_MR_Unsigned (MR_event_number event_info + 1);
             MR_trace_print_level := MR_trace_print_level cmd;
             MR_trace_strict := MR_trace_strict cmd;
             MR_trace_must_check := MR_trace_must_check cmd |} in
        let cmd := set_trace_strict false cmd in
        let cmd := set_trace_print_level (MR_default_print_level st) cmd in
        (STOP_INTERACTING, cmd, st)
      | (MR_RETRY_OK_FINISH_FIRST, _, st) =>
        let cmd := set_trace_cmd MR_CMD_FINISH cmd in
        let cmd :=
          set_trace_stop_depth
            (to_MR_Unsigned (MR_call_depth event_info - ancestor_level)) cmd in
        let cmd := set_trace_strict true cmd in
        let cmd := set_trace_print_level MR_PRINT_LEVEL_NONE cmd in
        (STOP_INTERACTING, cmd, MR_insert_line_at_head "retry -o" st)
      | (MR_RETRY_OK_FAIL_FIRST, _, st) =>
        let cmd := set_trace_cmd MR_CMD_FAIL cmd in
        let cmd :=
          set_trace_stop_depth
            (to_MR_Unsigned (MR_call_depth event_info - ancestor_level)) cmd in
        let cmd := set_trace_strict true cmd in
        let cmd := set_trace_print_level MR_PRINT_LEVEL_NONE cmd in
        (STOP_INTERACTING, cmd, MR_insert_line_at_head "retry -o" st)
      | (MR_RETRY_ERROR, problem, st) =>
        (KEEP_INTERACTING, cmd, write (Err (problem +:+ newline)) st)
      end
  end.

(** *** ignore *)

Fixpoint ignore_count_opts_loop (codes : list (ascii * string))
    (ignore_when : MR_Spy_Ignore_When) (ignore_count : Z)
    : bool * MR_Spy_Ignore_When * Z :=
  match codes with
  | [] => (true, ignore_when, ignore_count)
  | (c, MR_optarg) :: codes' =>
    if Ascii.eqb c "E"%char then
      match MR_trace_is_natural_number MR_optarg with
      | None => (false, ignore_when, ignore_count)
      | Some n => ignore_count_opts_loop codes' MR_SPY_IGNORE_ENTRY n
      end
    else if Ascii.eqb c "I"%char then
      match MR_trace_is_natural_number MR_optarg with
      | None => (false, ignore_when, ignore_count)
      | Some n => ignore_count_opts_loop codes' MR_SPY_IGNORE_INTERFACE n
      end
    else (false, ignore_when, ignore_count)
  end.

Definition MR_trace_options_ignore_count (ignore_when : MR_Spy_Ignore_When)
    (ignore_count : Z) (words : list string) (st : session)
    : bool * MR_Spy_Ignore_When * Z * list string * session :=
  let run := MR_getopt_long words "E:I:" MR_trace_ignore_count_opts in
  match ignore_count_opts_loop (go_codes run) ignore_when ignore_count with
  | (false, ignore_when, ignore_count) =>
    (false, ignore_when, ignore_count, words, MR_trace_usage_cur_cmd st)
  | (true, ignore_when, ignore_count) =>
    (true, ignore_when, ignore_count, go_words run, st)
  end.

(** The loop of the [ignore *] case over the slots [i], [i + 1], ... of the
    table: [exists_from] holds [spy_exists] of these slots. The index that
    goes to [MR_ignore_spy_point] and [MR_maybe_print_spy_point] is the
    variable [n] of the handler, not [i]. Returns [count] and the
    session. *)
Fixpoint ignore_all_loop (exists_from : list bool) (i : Z) (n : Z)
    (ignore_when : MR_Spy_Ignore_When) (ignore_count : Z) (count : Z)
    (st : session) : Z * session :=
  match exists_from with
  | [] => (count, st)
  | spy_exists_i :: rest =>
    if spy_exists_i then
      let st := write (Call_MR_ignore_spy_point n ignore_when ignore_count)
                  st in
      let st := write (Call_MR_maybe_print_spy_point n) st in
      ignore_all_loop rest (i + 1) n ignore_when ignore_count (count + 1) st
    else
      ignore_all_loop rest (i + 1) n ignore_when ignore_count count st
  end.

(** [n] is declared without a value: [n_initial] is whatever the variable
    holds before [MR_trace_is_natural_number] stores a number in it, which
    it does only for a word that is one. [n] and [ignore_count] are
    [int]s. *)
Definition MR_trace_cmd_ignore (n_initial : Z) (table : spy_table)
    (words : list string) (st : session) : MR_Next * session :=
  match MR_trace_options_ignore_count MR_SPY_IGNORE_ENTRY 1 words st with
  | (false, _, _, _, st) => (KEEP_INTERACTING, st)
  | (true, ignore_when, ignore_count, words, st) =>
    let is_number :=
      if decide (length words = 2) then
        MR_trace_is_natural_number (word_at words 1)
      else None in
    match is_number with
    | Some n =>
      if spy_point_exists table n then
        let st := write (Call_MR_ignore_spy_point n ignore_when ignore_count)
                    st in
        (KEEP_INTERACTING, write (Call_MR_maybe_print_spy_point n) st)
      else
        (KEEP_INTERACTING,
         write (Err ("mdb: break point #" +:+ pretty n +:+
                     " does not exist." +:+ newline)) st)
    | None =>
      let n := n_initial in
      if bool_decide (length words = 2) && String.eqb (word_at words 1) "*"
      then
        match ignore_all_loop (spy_exists table) 0 n ignore_when ignore_count
                0 st with
        | (count, st) =>
          if bool_decide (count = 0%Z) then
            (KEEP_INTERACTING,
             write (Err ("There are no break points." +:+ newline)) st)
          else (KEEP_INTERACTING, st)
        end
      else if bool_decide (length words = 1) then
        if spy_point_exists table (MR_most_recent_spy_point table) then
          let n := MR_most_recent_spy_point table in
          let st := write (Call_MR_ignore_spy_point n ignore_when
                             ignore_count) st in
          (KEEP_INTERACTING, write (Call_MR_maybe_print_spy_point n) st)
        else
          (KEEP_INTERACTING,
           write (Err ("mdb: there is no most recent break point." +:+
                       newline)) st)
      else (KEEP_INTERACTING, MR_trace_usage_cur_cmd st)
    end
  end.

(** *** quit *)

Fixpoint confirmed_opts_loop (codes : list (ascii * string))
    (confirmed : bool) : bool * bool :=
  match codes with
  | [] => (true, confirmed)
  | (c, _) :: codes' =>
    if Ascii.eqb c "n"%char || Ascii.eqb c "N"%char then
      confirmed_opts_loop codes' false
    else if Ascii.eqb c "y"%char || Ascii.eqb c "Y"%char then
      confirmed_opts_loop codes' true
    else (false, confirmed)
  end.

Definition MR_trace_options_confirmed (confirmed : bool)
    (words : list string) (st : session)
    : bool * bool * list string * session :=
  let run := MR_getopt words "NYny" in
  match confirmed_opts_loop (go_codes run) confirmed with
  | (false, confirmed) => (false, confirmed, words, MR_trace_usage_cur_cmd st)
  | (true, confirmed) => (true, confirmed, go_words run, st)
  end.

Definition MR_trace_cmd_quit (words : list string) (st : session)
    : handler_end * session :=
  match MR_trace_options_confirmed false words st with
  | (false, _, _, st) => (Returns KEEP_INTERACTING, st)
  | (true, confirmed, words, st) =>
    if decide (length words = 1) then
      let '(confirmed, st) :=
        if negb confirmed then
          match MR_trace_getline "mdb: are you sure you want to quit? " st
          with
          | (None, st) => (true, st)
          | (Some line2, st) =>
            if Ascii.eqb (first_nonspace line2) "y"%char
               || Ascii.eqb (first_nonspace line2) "Y"%char
            then (true, st)
            else (confirmed, st)
          end
        else (confirmed, st) in
      if confirmed then
        (Exits EXIT_SUCCESS, write Call_MR_trace_maybe_close_source_window st)
      else (Returns KEEP_INTERACTING, st)
    else (Returns KEEP_INTERACTING, MR_trace_usage_cur_cmd st)
  end.

(** ** The scroll pager *)

(** How the [--more--] dialogue ends: the report goes on, or [q] hands over
    to [MR_trace_event_internal(cmd, MR_TRUE, NULL, event_info)]. *)
Inductive more_end : Type :=
  | GoOn (cmd : MR_Trace_Cmd_Info) (st : session)
  | QuitReport (cmd : MR_Trace_Cmd_Info) (st : session).

(** The dialogue from the label [try_again] on. Every turn takes a line
    from the queue or from [MR_mdb_in]. *)
Fixpoint more_prompt_loop (fuel : nat) (cmd : MR_Trace_Cmd_Info)
    (st : session) : option more_end :=
  match fuel with
  | 0 => None
  | S fuel' =>
    match MR_trace_getline "--more-- " st with
    | (None, st) => Some (GoOn cmd st)
    | (Some buf, st) =>
      let c := first_nonspace buf in
      if negb (Ascii.eqb c NUL) && negb (MR_isspace c) then
        if Ascii.eqb c "a"%char then
          Some (GoOn (set_trace_print_level MR_PRINT_LEVEL_ALL cmd) st)
        else if Ascii.eqb c "n"%char then
          Some (GoOn (set_trace_print_level MR_PRINT_LEVEL_NONE cmd) st)
        else if Ascii.eqb c "s"%char then
          Some (GoOn (set_trace_print_level MR_PRINT_LEVEL_SOME cmd) st)
        else if Ascii.eqb c "q"%char then Some (QuitReport cmd st)
        else
          more_prompt_loop fuel'  cmd
            (write (Err ("unknown command, try again" +:+ newline)) st)
      else Some (GoOn cmd st)
    end
  end.

(** How [MR_trace_event_internal_report] ends: it has printed the report,
    or it returns what the interactive entry point returns. *)
Inductive report_end : Type :=
  | Reported (cmd : MR_Trace_Cmd_Info) (st : session)
  | Interactive (cmd : MR_Trace_Cmd_Info) (st : session).

(** The report itself, after the pause if there was one. *)
Definition print_report (cmd : MR_Trace_Cmd_Info) (print_list : list string)
    (event_info : MR_Event_Info) (st : session) : report_end :=
  let st := write (EventReport (MR_event_number event_info)) st in
  let st := set_scroll_next (MR_scroll_next st + 1) st in
  match print_list with
  | [] => Reported cmd st
  | _ :: _ =>
    let st := write (Call_MR_trace_var_print_list print_list) st in
    Reported cmd
      (set_scroll_next
         (MR_scroll_next st + MR_trace_var_print_list print_list) st)
  end.

Definition MR_trace_event_internal_report (cmd : MR_Trace_Cmd_Info)
    (print_list : list string) (event_info : MR_Event_Info) (st : session)
    : option report_end :=
  let len := Z.of_nat (length print_list) in
  if MR_scroll_control st
     && bool_decide (MR_scroll_next st + len >= MR_scroll_limit st - 1)%Z
  then
    match more_prompt_loop
            (S (length (MR_line_queue st) + length (mdb_in st))) cmd st with
    | None => None
    | Some (QuitReport cmd st) => Some (Interactive cmd st)
    | Some (GoOn cmd st) =>
      Some (print_report cmd print_list event_info (set_scroll_next 0 st))
    end
  else Some (print_report cmd print_list event_info st).

End Handlers.

(** ** Sample values

    A session at its first prompt, a movement decision, an event, and the
    behaviour of [MR_getopt] and [MR_getopt_long] on a command line that
    carries no options: EOF at the first call, with [MR_optind] equal to
    1. *)
Definition sample_session (queue input : list string) : session :=
  {| MR_line_queue := queue; mdb_in := input; effects := [];
     MR_trace_internal_interacting := false; MR_echo_commands := false;
     MR_scroll_control := true; MR_scroll_limit := 24; MR_scroll_next := 0;
     MR_default_print_level := MR_PRINT_LEVEL_SOME;
     MR_current_cmd_name := "" |}.

Definition sample_cmd : MR_Trace_Cmd_Info :=
  {| MR_trace_cmd := MR_CMD_GOTO; MR_trace_stop_depth := 0;
     MR_trace_stop_event := 0; MR_trace_print_level := MR_PRINT_LEVEL_SOME;
     MR_trace_strict := false; MR_trace_must_check := false |}.

Definition sample_event (depth : Z) (port : MR_Trace_Port) : MR_Event_Info :=
  {| MR_event_number := 10; MR_call_seqno := 3; MR_call_depth := depth;
     MR_trace_port := port; MR_sle_detism := 3 |}.

Definition getopt_no_options (words : list string) (optstring : string)
    : getopt_run :=
  {| go_codes := []; go_words := words |}.

Definition getopt_long_no_options (words : list string) (optstring : string)
    (longopts : list MR_option) : getopt_run :=
  {| go_codes := []; go_words := words |}.

(** A sample of [MR_getopt_long] that knows the short options. A word after
    the command that is [-] and one letter is an option: its code is the
    letter when [optstring] has it, and [?] when it has not. The options
    are moved in front of the other words, as the function of the C library
    moves them, so that the words left start with the last option, or with
    the command when there is no option. *)
Definition sample_option_code (optstring : string) (word : string)
    : option (ascii * string) :=
  match word with
  | String "-" (String c EmptyString) =>
    if existsb (Ascii.eqb c) (list_ascii_of_string optstring)
       && negb (Ascii.eqb c ":"%char)
    then Some (c, "")
    else Some ("?"%char, "")
  | _ => None
  end.

Fixpoint sample_getopt_scan (optstring : string) (arguments : list string)
    (last : string) : list (ascii * string) * string * list string :=
  match arguments with
  | [] => ([], last, [])
  | w :: arguments' =>
    match sample_option_code optstring w with
    | Some code =>
      match sample_getopt_scan optstring arguments' w with
      | (codes, last, others) => (code :: codes, last, others)
      end
    | None =>
      match sample_getopt_scan optstring arguments' last with
      | (codes, last, others) => (codes, last, w :: others)
      end
    end
  end.

Definition sample_getopt_long (words : list string) (optstring : string)
    (longopts : list MR_option) : getopt_run :=
  match sample_getopt_scan optstring (drop 1 words) (word_at words 0) with
  | (codes, last, others) =>
    {| go_codes := codes; go_words := last :: others |}
  end.

Definition sample_getopt (words : list string) (optstring : string)
    : getopt_run :=
  sample_getopt_long words optstring [].

(** The number of lines that can still be read: those of the queue and
    those of [MR_mdb_in]. *)
Definition lines_left (st : session) : nat :=
  length (MR_line_queue st) + length (mdb_in st).

(** A session whose page holds [limit] lines, of which [next] are taken. *)
Definition sample_page (limit next : Z) (queue input : list string)
    : session :=
  {| MR_line_queue := queue; mdb_in := input; effects := [];
     MR_trace_internal_interacting := false; MR_echo_commands := false;
     MR_scroll_control := true; MR_scroll_limit := limit;
     MR_scroll_next := next;
     MR_default_print_level := MR_PRINT_LEVEL_SOME;
     MR_current_cmd_name := "" |}.

(** Reports of events without a print list, one after the other, as long as
    each report is made. *)
Fixpoint report_events (MR_trace_var_print_list : list string -> Z)
    (cmd : MR_Trace_Cmd_Info) (events : list MR_Event_Info) (st : session)
    : option report_end :=
  match events with
  | [] => Some (Reported cmd st)
  | event_info :: events' =>
    match MR_trace_event_internal_report MR_trace_var_print_list cmd []
            event_info st with
    | Some (Reported cmd st) =>
      report_events MR_trace_var_print_list cmd events' st
    | r => r
    end
  end.

(** ** Notions used to state the properties *)

(** The words of a result of the tokenizer. *)
Definition words_result (r : scan_result (list string * nat))
    : scan_result (list string) :=
  match r with
  | Scanned a => Scanned (words_of a)
  | Problem msg => Problem msg
  | OutOfFuel => OutOfFuel
  end.

(** A word made of decimal digits only. *)
Fixpoint all_digits (s : string) : bool :=
  match s with
  | EmptyString => true
  | String c s' => MR_isdigit c && all_digits s'
  end.

(** How a line ends for a reader that knows the quoting rules of the
    spec ("single- and double-quote pairs suppress word-splitting", "a
    backslash escapes the following character") and nothing of the
    tokenizer: complete, inside a single-quoted or a double-quoted part
    (the quote is unmatched), or on a backslash that has no character left
    to escape. A quote character counts as a quote unless it is escaped or
    stands inside a part quoted by the other kind. *)
Inductive line_end : Type :=
  | Complete
  | UnmatchedSingleQuote
  | UnmatchedDoubleQuote
  | LoneBackslash.

Fixpoint lex_end (single_quoted double_quoted : bool) (l : list ascii)
    : line_end :=
  match l with
  | [] =>
    if single_quoted then UnmatchedSingleQuote
    else if double_quoted then UnmatchedDoubleQuote
    else Complete
  | c :: l' =>
    if Ascii.eqb c ESCAPE_CHAR then
      match l' with
      | [] => LoneBackslash
      | _ :: l'' => lex_end single_quoted double_quoted l''
      end
    else if Ascii.eqb c SINGLE_QUOTE_CHAR && negb double_quoted then
      lex_end (negb single_quoted) double_quoted l'
    else if Ascii.eqb c DOUBLE_QUOTE_CHAR && negb single_quoted then
      lex_end single_quoted (negb double_quoted) l'
    else lex_end single_quoted double_quoted l'
  end.

(** The characters of a line as C sees them: those before the first NUL. *)
Definition line_chars (line : string) : list ascii :=
  until_NUL (list_ascii_of_string line).

(** A word of 81 digits followed by a letter. *)
Definition digits_81 : string :=
  "123456789123456789123456789123456789123456789123456789123456789123456789123456789".

Definition long_number_line : string := digits_81 +:+ "x".

(** An alias table in which [step] itself is an alias, of [next]. *)
Definition aliases_step_is_next : alias_table :=
  MR_trace_add_alias "step" ["next"] ∅.

(** The error message for each way a line can end badly. *)
Definition problem_of_end (e : line_end) : option string :=
  match e with
  | Complete => None
  | UnmatchedSingleQuote => Some "unmatched single quote"
  | UnmatchedDoubleQuote => Some "unmatched double quote"
  | LoneBackslash => Some "bad backslash"
  end.

(** The tokenizer writes only behind the place it reads: from [pos] on,
    the buffer still holds the characters [rest] of the line that are left
    to read, the terminator, and whatever follows it ([after]). *)
Definition unread (after : list ascii) (buf : list ascii) (pos : nat)
    (rest : list ascii) : Prop :=
  drop pos buf = rest ++ NUL :: after /\ NUL ∉ rest.

(** What the loop of [MR_trace_break_off_one_word] achieves when started
    with [rest] left to read in the buffer [buf], inside or outside
    quotes. *)
Definition word_scan_ok (after : list ascii) (buf : list ascii)
    (single_quoted double_quoted : bool) (rest : list ascii)
    (r : scan_result word_scan) : Prop :=
  match r with
  | OutOfFuel => False
  | Problem msg =>
    msg = "bad backslash"
    /\ lex_end single_quoted double_quoted rest = LoneBackslash
  | Scanned ws =>
    length (ws_line ws) = length buf
    /\ ws_lag ws <= ws_char_pos ws
    /\ exists rest',
         unread after (ws_line ws) (ws_char_pos ws) rest'
         /\ length rest' <= length rest
         /\ if ws_another ws then
              ws_single_quoted ws = false /\ ws_double_quoted ws = false
              /\ (exists c r, rest' = c :: r /\ MR_isspace c = true)
              /\ lex_end single_quoted double_quoted rest
                 = lex_end false false rest'
            else
              rest' = []
              /\ lex_end single_quoted double_quoted rest
                 = lex_end (ws_single_quoted ws) (ws_double_quoted ws) []
  end.

(** ** Sourcing a file of commands *)

(** The loop of [MR_trace_source_from_open_file] over the lines that
    [MR_trace_readline_raw] (of mercury_trace_readline.c, which is not
    among the sources) reads from the file until it returns NULL. [chain]
    holds the lines linked so far, from the new [MR_line_head] to
    [prev_line]. *)
Fixpoint source_lines_loop (contents : list string) (chain : list string)
    : list string :=
  match contents with
  | [] => chain
  | line :: contents' => source_lines_loop contents' (chain ++ [line])
  end.

(** [fp] stands for the open file: the lines it holds. When at least one
    line was read, the last one is linked to the old head of the queue. *)
Definition MR_trace_source_from_open_file (fp : list string) (st : session)
    : session :=
  let old_head := MR_line_queue st in
  let st :=
    match source_lines_loop fp [] with
    | [] => st
    | line :: chain => set_line_queue ((line :: chain) ++ old_head) st
    end in
  set_internal_interacting false st.

(** [k] calls of [MR_trace_getline], one after the other: the lines they
    return and the session they leave. *)
Fixpoint getlines (prompt : string) (k : nat) (st : session)
    : list (option string) * session :=
  match k with
  | 0 => ([], st)
  | S k' =>
    match MR_trace_getline prompt st with
    | (line, st) =>
      match getlines prompt k' st with
      | (lines, st) => (line :: lines, st)
      end
    end
  end.

(** The session in which a report ends. *)
Definition report_session (r : report_end) : session :=
  match r with
  | Reported _ st => st
  | Interactive _ st => st
  end.

(** The scan of [MR_trace_continue_line] keeps a backslash that it has
    just read in [escaped]; [lex_end] looks one character ahead instead.
    [pending escaped l] is the text [l] with that backslash in front. *)
Definition pending (escaped : bool) (l : list ascii) : list ascii :=
  if escaped then ESCAPE_CHAR :: l else l.

(** ** More setters *)

Definition set_trace_stop_event (e : Z) (cmd : MR_Trace_Cmd_Info)
    : MR_Trace_Cmd_Info :=
  {| MR_trace_cmd := MR_trace_cmd cmd;
     MR_trace_stop_depth := MR_trace_stop_depth cmd;
     MR_trace_stop_event := e;
     MR_trace_print_level := MR_trace_print_level cmd;
     MR_trace_strict := MR_trace_strict cmd;
     MR_trace_must_check := MR_trace_must_check cmd |}.

Definition set_trace_must_check (b : bool) (cmd : MR_Trace_Cmd_Info)
    : MR_Trace_Cmd_Info :=
  {| MR_trace_cmd := MR_trace_cmd cmd;
     MR_trace_stop_depth := MR_trace_stop_depth cmd;
     MR_trace_stop_event := MR_trace_stop_event cmd;
     MR_trace_print_level := MR_trace_print_level cmd;
     MR_trace_strict := MR_trace_strict cmd;
     MR_trace_must_check := b |}.

Definition set_echo_commands (b : bool) (st : session) : session :=
  {| MR_line_queue := MR_line_queue st;
     mdb_in := mdb_in st;
     effects := effects st;
     MR_trace_internal_interacting := MR_trace_internal_interacting st;
     MR_echo_commands := b;
     MR_scroll_control := MR_scroll_control st;
     MR_scroll_limit := MR_scroll_limit st;
     MR_scroll_next := MR_scroll_next st;
     MR_default_print_level := MR_default_print_level st;
     MR_current_cmd_name := MR_current_cmd_name st |}.

Definition set_scroll_control (b : bool) (st : session) : session :=
  {| MR_line_queue := MR_line_queue st;
     mdb_in := mdb_in st;
     effects := effects st;
     MR_trace_internal_interacting := MR_trace_internal_interacting st;
     MR_echo_commands := MR_echo_commands st;
     MR_scroll_control := b;
     MR_scroll_limit := MR_scroll_limit st;
     MR_scroll_next := MR_scroll_next st;
     MR_default_print_level := MR_default_print_level st;
     MR_current_cmd_name := MR_current_cmd_name st |}.

Definition set_scroll_limit (n : Z) (st : session) : session :=
  {| MR_line_queue := MR_line_queue st;
     mdb_in := mdb_in st;
     effects := effects st;
     MR_trace_internal_interacting := MR_trace_internal_interacting st;
     MR_echo_commands := MR_echo_commands st;
     MR_scroll_control := MR_scroll_control st;
     MR_scroll_limit := n;
     MR_scroll_next := MR_scroll_next st;
     MR_default_print_level := MR_default_print_level st;
     MR_current_cmd_name := MR_current_cmd_name st |}.

Definition set_default_print_level (l : MR_Trace_Print_Level) (st : session)
    : session :=
  {| MR_line_queue := MR_line_queue st;
     mdb_in := mdb_in st;
     effects := effects st;
     MR_trace_internal_interacting := MR_trace_internal_interacting st;
     MR_echo_commands := MR_echo_commands st;
     MR_scroll_control := MR_scroll_control st;
     MR_scroll_limit := MR_scroll_limit st;
     MR_scroll_next := MR_scroll_next st;
     MR_default_print_level := l;
     MR_current_cmd_name := MR_current_cmd_name st |}.

Definition set_current_cmd_name (name : string) (st : session) : session :=
  {| MR_line_queue := MR_line_queue st;
     mdb_in := mdb_in st;
     effects := effects st;
     MR_trace_internal_interacting := MR_trace_internal_interacting st;
     MR_echo_commands := MR_echo_commands st;
     MR_scroll_control := MR_scroll_control st;
     MR_scroll_limit := MR_scroll_limit st;
     MR_scroll_next := MR_scroll_next st;
     MR_default_print_level := MR_default_print_level st;
     MR_current_cmd_name := name |}.

(** [fprintf(MR_mdb_out, ...)] under [if (MR_trace_internal_interacting)]. *)
Definition write_if_interacting (text : string) (st : session) : session :=
  if MR_trace_internal_interacting st then write (Out text) st else st.

(** ** The forward movement commands

    [MR_trace_event_number], the number of the current event kept by the
    runtime, is read from the event, as for [retry].
    [MR_init_trace_check_integrity] (a macro of a header that is not among
    the sources) touches a field of the decision that is not part of
    [MR_Trace_Cmd_Info] here. *)

Section Movement.

(** [MR_getopt_long] as above. [MR_port_is_final] is a macro of a header
    that is not among the sources, and [MR_trace_is_unsigned] a function of
    mercury_trace_util.c, which is not either: it tells whether a word
    denotes an [MR_Unsigned] and gives its value. *)
Variable MR_getopt_long :
  list string -> string -> list MR_option -> getopt_run.
Variable MR_port_is_final : MR_Trace_Port -> bool.
Variable MR_trace_is_unsigned : string -> option Z.

(** [n] is an [int], the one [MR_trace_is_natural_number] gives; it is
    added to [MR_trace_event_number], an [MR_Unsigned]. *)
Definition MR_trace_cmd_step (words : list string) (cmd : MR_Trace_Cmd_Info)
    (event_info : MR_Event_Info) (st : session)
    : MR_Next * MR_Trace_Cmd_Info * session :=
  let cmd := set_trace_strict false cmd in
  let cmd := set_trace_print_level (MR_default_print_level st) cmd in
  match MR_trace_options_movement_cmd MR_getopt_long cmd words st with
  | (false, cmd, _, st) => (KEEP_INTERACTING, cmd, st)
  | (true, cmd, words, st) =>
    if decide (length words = 1) then
      (STOP_INTERACTING,
       set_trace_stop_event
         (to_MR_Unsigned (MR_event_number event_info + 1))
         (set_trace_cmd MR_CMD_GOTO cmd),
       st)
    else
      match
        if decide (length words = 2) then
          MR_trace_is_natural_number (word_at words 1)
        else None
      with
      | Some n =>
        (STOP_INTERACTING,
         set_trace_stop_event
           (to_MR_Unsigned (MR_event_number event_info + n))
           (set_trace_cmd MR_CMD_GOTO cmd),
         st)
      | None => (KEEP_INTERACTING, cmd, MR_trace_usage_cur_cmd st)
      end
  end.

Definition MR_trace_cmd_goto (words : list string) (cmd : MR_Trace_Cmd_Info)
    (event_info : MR_Event_Info) (st : session)
    : MR_Next * MR_Trace_Cmd_Info * session :=
  let cmd := set_trace_strict true cmd in
  let cmd := set_trace_print_level (MR_default_print_level st) cmd in
  match MR_trace_options_movement_cmd MR_getopt_long cmd words st with
  | (false, cmd, _, st) => (KEEP_INTERACTING, cmd, st)
  | (true, cmd, words, st) =>
    match
      if decide (length words = 2) then MR_trace_is_unsigned (word_at words 1)
      else None
    with
    | Some n =>
      if bool_decide (MR_event_number event_info < n)%Z then
        (STOP_INTERACTING,
         set_trace_stop_event n (set_trace_cmd MR_CMD_GOTO cmd), st)
      else
        (KEEP_INTERACTING, cmd,
         write (Err ("The debugger cannot go to a past event." +:+ newline))
           st)
    | None => (KEEP_INTERACTING, cmd, MR_trace_usage_cur_cmd st)
    end
  end.

(** [next] and [finish] compute [stop_depth] as [fail] does. *)
Definition MR_trace_cmd_next (words : list string) (cmd : MR_Trace_Cmd_Info)
    (event_info : MR_Event_Info) (st : session)
    : MR_Next * MR_Trace_Cmd_Info * session :=
  let depth := MR_call_depth event_info in
  let cmd := set_trace_strict true cmd in
  let cmd := set_trace_print_level (MR_default_print_level st) cmd in
  match MR_trace_options_movement_cmd MR_getopt_long cmd words st with
  | (false, cmd, _, st) => (KEEP_INTERACTING, cmd, st)
  | (true, cmd, words, st) =>
    match fail_stop_depth depth words with
    | None => (KEEP_INTERACTING, cmd, MR_trace_usage_cur_cmd st)
    | Some stop_depth =>
      if bool_decide (depth = to_MR_Unsigned stop_depth)
         && MR_port_is_final (MR_trace_port event_info)
      then (KEEP_INTERACTING, cmd, MR_trace_do_noop st)
      else
        (STOP_INTERACTING,
         set_trace_stop_depth (to_MR_Unsigned stop_depth)
           (set_trace_cmd MR_CMD_NEXT cmd),
         st)
    end
  end.

Definition MR_trace_cmd_finish (words : list string) (cmd : MR_Trace_Cmd_Info)
    (event_info : MR_Event_Info) (st : session)
    : MR_Next * MR_Trace_Cmd_Info * session :=
  let depth := MR_call_depth event_info in
  let cmd := set_trace_strict true cmd in
  let cmd := set_trace_print_level (MR_default_print_level st) cmd in
  match MR_trace_options_movement_cmd MR_getopt_long cmd words st with
  | (false, cmd, _, st) => (KEEP_INTERACTING, cmd, st)
  | (true, cmd, words, st) =>
    match fail_stop_depth depth words with
    | None => (KEEP_INTERACTING, cmd, MR_trace_usage_cur_cmd st)
    | Some stop_depth =>
      if bool_decide (depth = to_MR_Unsigned stop_depth)
         && MR_port_is_final (MR_trace_port event_info)
      then (KEEP_INTERACTING, cmd, MR_trace_do_noop st)
      else
        (STOP_INTERACTING,
         set_trace_stop_depth (to_MR_Unsigned stop_depth)
           (set_trace_cmd MR_CMD_FINISH cmd),
         st)
    end
  end.

Definition MR_trace_cmd_exception (words : list string)
    (cmd : MR_Trace_Cmd_Info) (event_info : MR_Event_Info) (st : session)
    : MR_Next * MR_Trace_Cmd_Info * session :=
  let cmd := set_trace_strict true cmd in
  let cmd := set_trace_print_level (MR_default_print_level st) cmd in
  match MR_trace_options_movement_cmd MR_getopt_long cmd words st with
  | (false, cmd, _, st) => (KEEP_INTERACTING, cmd, st)
  | (true, cmd, words, st) =>
    if decide (length words = 1) then
      if negb (bool_decide (MR_trace_port event_info = MR_PORT_EXCEPTION))
      then (STOP_INTERACTING, set_trace_cmd MR_CMD_EXCP cmd, st)
      else (KEEP_INTERACTING, cmd, MR_trace_do_noop st)
    else (KEEP_INTERACTING, cmd, MR_trace_usage_cur_cmd st)
  end.

Definition MR_trace_cmd_return (words : list string) (cmd : MR_Trace_Cmd_Info)
    (event_info : MR_Event_Info) (st : session)
    : MR_Next * MR_Trace_Cmd_Info * session :=
  let cmd := set_trace_strict true cmd in
  let cmd := set_trace_print_level (MR_default_print_level st) cmd in
  match MR_trace_options_movement_cmd MR_getopt_long cmd words st with
  | (false, cmd, _, st) => (KEEP_INTERACTING, cmd, st)
  | (true, cmd, words, st) =>
    if decide (length words = 1) then
      if bool_decide (MR_trace_port event_info = MR_PORT_EXIT)
      then (STOP_INTERACTING, set_trace_cmd MR_CMD_RETURN cmd, st)
      else (KEEP_INTERACTING, cmd, MR_trace_do_noop st)
    else (KEEP_INTERACTING, cmd, MR_trace_usage_cur_cmd st)
  end.

Definition MR_trace_cmd_forward (words : list string) (cmd : MR_Trace_Cmd_Info)
    (event_info : MR_Event_Info) (st : session)
    : MR_Next * MR_Trace_Cmd_Info * session :=
  let cmd := set_trace_strict true cmd in
  let cmd := set_trace_print_level (MR_default_print_level st) cmd in
  match MR_trace_options_movement_cmd MR_getopt_long cmd words st with
  | (false, cmd, _, st) => (KEEP_INTERACTING, cmd, st)
  | (true, cmd, words, st) =>
    if decide (length words = 1) then
      let port := MR_trace_port event_info in
      if bool_decide (port = MR_PORT_FAIL) || bool_decide (port = MR_PORT_REDO)
         || bool_decide (port = MR_PORT_EXCEPTION)
      then (STOP_INTERACTING, set_trace_cmd MR_CMD_RESUME_FORWARD cmd, st)
      else (KEEP_INTERACTING, cmd, MR_trace_do_noop st)
    else (KEEP_INTERACTING, cmd, MR_trace_usage_cur_cmd st)
  end.

(** [newdepth] is an [int], stored in [MR_trace_stop_depth], an
    [MR_Unsigned]; so it is for [maxdepth]. *)
Definition MR_trace_cmd_mindepth (words : list string)
    (cmd : MR_Trace_Cmd_Info) (event_info : MR_Event_Info) (st : session)
    : MR_Next * MR_Trace_Cmd_Info * session :=
  let cmd := set_trace_strict true cmd in
  let cmd := set_trace_print_level (MR_default_print_level st) cmd in
  match MR_trace_options_movement_cmd MR_getopt_long cmd words st with
  | (false, cmd, _, st) => (KEEP_INTERACTING, cmd, st)
  | (true, cmd, words, st) =>
    match
      if decide (length words = 2) then
        MR_trace_is_natural_number (word_at words 1)
      else None
    with
    | Some newdepth =>
      (STOP_INTERACTING,
       set_trace_stop_depth (to_MR_Unsigned newdepth)
         (set_trace_cmd MR_CMD_MIN_DEPTH cmd),
       st)
    | None => (KEEP_INTERACTING, cmd, MR_trace_usage_cur_cmd st)
    end
  end.

Definition MR_trace_cmd_maxdepth (words : list string)
    (cmd : MR_Trace_Cmd_Info) (event_info : MR_Event_Info) (st : session)
    : MR_Next * MR_Trace_Cmd_Info * session :=
  let cmd := set_trace_strict true cmd in
  let cmd := set_trace_print_level (MR_default_print_level st) cmd in
  match MR_trace_options_movement_cmd MR_getopt_long cmd words st with
  | (false, cmd, _, st) => (KEEP_INTERACTING, cmd, st)
  | (true, cmd, words, st) =>
    match
      if decide (length words = 2) then
        MR_trace_is_natural_number (word_at words 1)
      else None
    with
    | Some newdepth =>
      (STOP_INTERACTING,
       set_trace_stop_depth (to_MR_Unsigned newdepth)
         (set_trace_cmd MR_CMD_MAX_DEPTH cmd),
       st)
    | None => (KEEP_INTERACTING, cmd, MR_trace_usage_cur_cmd st)
    end
  end.

End Movement.

(** ** Settings *)

(** [MR_default_print_level] always holds one of the three levels here, so
    the [default:] case of the [switch] has no counterpart. *)
Definition MR_trace_cmd_printlevel (words : list string) (st : session)
    : MR_Next * session :=
  if decide (length words = 2) then
    if String.eqb (word_at words 1) "none" then
      (KEEP_INTERACTING,
       write_if_interacting ("Default print level set to `none'." +:+ newline)
         (set_default_print_level MR_PRINT_LEVEL_NONE st))
    else if String.eqb (word_at words 1) "some" then
      (KEEP_INTERACTING,
       write_if_interacting ("Default print level set to `some'." +:+ newline)
         (set_default_print_level MR_PRINT_LEVEL_SOME st))
    else if String.eqb (word_at words 1) "all" then
      (KEEP_INTERACTING,
       write_if_interacting ("Default print level set to `all'." +:+ newline)
         (set_default_print_level MR_PRINT_LEVEL_ALL st))
    else (KEEP_INTERACTING, MR_trace_usage_cur_cmd st)
  else if decide (length words = 1) then
    let st := write (Out "The default print level is ") st in
    (KEEP_INTERACTING,
     write (Out (match MR_default_print_level st with
                 | MR_PRINT_LEVEL_NONE => "`none'." +:+ newline
                 | MR_PRINT_LEVEL_SOME => "`some'." +:+ newline
                 | MR_PRINT_LEVEL_ALL => "`all'." +:+ newline
                 end)) st)
  else (KEEP_INTERACTING, MR_trace_usage_cur_cmd st).

(** [n] and [MR_scroll_limit] are [int]s: the page size set is the [int]
    that [MR_trace_is_natural_number] gives. *)
Definition MR_trace_cmd_scroll (words : list string) (st : session)
    : MR_Next * session :=
  if decide (length words = 2) then
    if String.eqb (word_at words 1) "off" then
      (KEEP_INTERACTING,
       write_if_interacting ("Scroll control disabled." +:+ newline)
         (set_scroll_control false st))
    else if String.eqb (word_at words 1) "on" then
      (KEEP_INTERACTING,
       write_if_interacting ("Scroll control enabled." +:+ newline)
         (set_scroll_control true st))
    else
      match MR_trace_is_natural_number (word_at words 1) with
      | Some n =>
        (KEEP_INTERACTING,
         write_if_interacting
           ("Scroll window size set to " +:+ pretty n +:+ "." +:+ newline)
           (set_scroll_limit n st))
      | None => (KEEP_INTERACTING, MR_trace_usage_cur_cmd st)
      end
  else if decide (length words = 1) then
    let st := write (Out "Scroll control is ") st in
    let st := write (Out (if MR_scroll_control st then "on" else "off")) st in
    (KEEP_INTERACTING,
     write (Out (", scroll window size is " +:+ pretty (MR_scroll_limit st)
                 +:+ "." +:+ newline)) st)
  else (KEEP_INTERACTING, MR_trace_usage_cur_cmd st).

Definition MR_trace_cmd_echo (words : list string) (st : session)
    : MR_Next * session :=
  if decide (length words = 2) then
    if String.eqb (word_at words 1) "off" then
      (KEEP_INTERACTING,
       write_if_interacting ("Command echo disabled." +:+ newline)
         (set_echo_commands false st))
    else if String.eqb (word_at words 1) "on" then
      let st :=
        if negb (MR_echo_commands st) then
          set_echo_commands true (write (Out ("echo on" +:+ newline)) st)
        else st in
      (KEEP_INTERACTING,
       write_if_interacting ("Command echo enabled." +:+ newline) st)
    else (KEEP_INTERACTING, MR_trace_usage_cur_cmd st)
  else if decide (length words = 1) then
    let st := write (Out "Command echo is ") st in
    (KEEP_INTERACTING,
     write (Out (if MR_echo_commands st then "on." +:+ newline
                 else "off." +:+ newline)) st)
  else (KEEP_INTERACTING, MR_trace_usage_cur_cmd st).

(** ** The interactive loop *)

Section Interaction.

Variable MR_getopt : list string -> string -> getopt_run.
Variable MR_getopt_long :
  list string -> string -> list MR_option -> getopt_run.
Variable MR_port_is_final : MR_Trace_Port -> bool.
Variable MR_trace_is_unsigned : string -> option Z.

(** The call through [cmd_info->MR_cmd_function], with the arguments
    [words], [word_count], [cmd], [event_info] and [jumpaddr], for the
    handlers of the table modelled above that work on the decision and the
    session only; [None] for the others. ([MR_trace_cmd_fail] is in no entry
    of the table.) *)
Definition call_handler (f : Handler.t) (words : list string)
    (cmd : MR_Trace_Cmd_Info) (event_info : MR_Event_Info) (st : session)
    : option (handler_end * MR_Trace_Cmd_Info * session) :=
  let returns (r : MR_Next * MR_Trace_Cmd_Info * session) :=
    Some (Returns r.1.1, r.1.2, r.2) in
  let keeps (r : MR_Next * session) := Some (Returns r.1, cmd, r.2) in
  match f with
  | Handler.MR_trace_cmd_step =>
    returns (MR_trace_cmd_step MR_getopt_long words cmd event_info st)
  | Handler.MR_trace_cmd_goto =>
    returns (MR_trace_cmd_goto MR_getopt_long MR_trace_is_unsigned words cmd
               event_info st)
  | Handler.MR_trace_cmd_next =>
    returns (MR_trace_cmd_next MR_getopt_long MR_port_is_final words cmd
               event_info st)
  | Handler.MR_trace_cmd_finish =>
    returns (MR_trace_cmd_finish MR_getopt_long MR_port_is_final words cmd
               event_info st)
  | Handler.MR_trace_cmd_exception =>
    returns (MR_trace_cmd_exception MR_getopt_long words cmd event_info st)
  | Handler.MR_trace_cmd_return =>
    returns (MR_trace_cmd_return MR_getopt_long words cmd event_info st)
  | Handler.MR_trace_cmd_forward =>
    returns (MR_trace_cmd_forward MR_getopt_long words cmd event_info st)
  | Handler.MR_trace_cmd_mindepth =>
    returns (MR_trace_cmd_mindepth MR_getopt_long words cmd event_info st)
  | Handler.MR_trace_cmd_maxdepth =>
    returns (MR_trace_cmd_maxdepth MR_getopt_long words cmd event_info st)
  | Handler.MR_trace_cmd_printlevel => keeps (MR_trace_cmd_printlevel words st)
  | Handler.MR_trace_cmd_scroll => keeps (MR_trace_cmd_scroll words st)
  | Handler.MR_trace_cmd_echo => keeps (MR_trace_cmd_echo words st)
  | Handler.MR_trace_cmd_quit =>
    match MR_trace_cmd_quit MR_getopt words st with
    | (e, st) => Some (e, cmd, st)
    end
  | _ => None
  end.

(** How the [do ... while (res == KEEP_INTERACTING)] loop of
    [MR_trace_event_internal] ends: with the decision that goes back to the
    runtime, with the exit of the process, in a call through a null
    function pointer, or in a handler that is not modelled. [NoFuelLeft] is
    the model's own outcome, as [OutOfFuel] above. *)
Inductive interaction : Type :=
  | Decided (cmd : MR_Trace_Cmd_Info) (st : session)
  | Exited (status : Z) (st : session)
  | CalledNull (cmd_info : MR_Trace_Command_Info) (st : session)
  | NotModelled (f : Handler.t) (words : list string) (st : session)
  | NoFuelLeft.

(** The loop and what follows it in [MR_trace_event_internal]. The
    dispatcher stores the name of the command for the usage messages before
    it calls the handler. The alias table does not change: the handlers
    that change it are not among those of [call_handler]. *)
Fixpoint interaction_loop (fuel : nat) (aliases : alias_table)
    (cmd : MR_Trace_Cmd_Info) (event_info : MR_Event_Info) (st : session)
    : interaction :=
  match fuel with
  | 0 => NoFuelLeft
  | S fuel' =>
    match MR_trace_get_command "mdb> " st with
    | None => NoFuelLeft
    | Some (line, st) =>
      match MR_trace_debug_cmd aliases line with
      | NoFuel => NoFuelLeft
      | ParseProblem err _ =>
        interaction_loop fuel' aliases cmd event_info (write (Err err) st)
      | EmptyCommand _ => interaction_loop fuel' aliases cmd event_info st
      | Dispatch _ (UnknownCommand err _) =>
        interaction_loop fuel' aliases cmd event_info (write (Err err) st)
      | Dispatch _ (CallNullPointer cmd_info) => CalledNull cmd_info st
      | Dispatch words (CallHandler cmd_info f) =>
        let st := set_current_cmd_name (default "" (MR_cmd_name cmd_info)) st
        in
        match call_handler f words cmd event_info st with
        | None => NotModelled f words st
        | Some (Exits status, _, st) => Exited status st
        | Some (Returns KEEP_INTERACTING, cmd, st) =>
          interaction_loop fuel' aliases cmd event_info st
        | Some (Returns STOP_INTERACTING, cmd, st) =>
          Decided
            (set_trace_must_check
               (negb (MR_trace_strict cmd)
                || match MR_trace_print_level cmd with
                   | MR_PRINT_LEVEL_NONE => false
                   | _ => true
                   end)
               cmd)
            (set_scroll_next 0 st)
        end
      end
    end
  end.

End Interaction.

(** The characters that are left to read, each line counted with its end:
    what a turn of the loop uses up. *)
Definition chars_left (st : session) : nat :=
  sum_list ((fun line => S (String.length line))
              <$> (MR_line_queue st ++ mdb_in st)).

(** ** Completion of command names *)

Section Completer.

(** [MR_strneq(s1, s2, n)] is a macro of mercury_std.h, which is not among
    the sources. *)
Variable MR_strneq : string -> string -> nat -> bool.

(** The [while (1)] loop of [MR_trace_command_completer_next] over the
    entries from [command_index] on, which [infos] holds. Returns the
    completion and [*data]. The table ends in an entry without a name, so
    the loop does not run off its end; the model returns NULL there. *)
Fixpoint command_completer_loop (infos : list MR_Trace_Command_Info)
    (word : string) (word_len : nat) (command_index : nat)
    : option string * nat :=
  match infos with
  | [] => (None, command_index)
  | info :: infos' =>
    let command_index := S command_index in
    match MR_cmd_name info with
    | None => (None, command_index)
    | Some command =>
      if bool_decide (is_Some (MR_cmd_category info))
         && MR_strneq word command word_len
      then (Some command, command_index)
      else command_completer_loop infos' word word_len command_index
    end
  end.

Definition MR_trace_command_completer_next (word : string) (word_len : nat)
    (data : nat) : option string * nat :=
  command_completer_loop (drop data MR_trace_command_infos) word word_len data.

(** The completions that a caller gets who calls the completer again and
    again, each time with the [*data] of the call before, until it returns
    NULL. *)
Fixpoint completions (fuel : nat) (word : string) (word_len : nat)
    (data : nat) : list string :=
  match fuel with
  | 0 => []
  | S fuel' =>
    match MR_trace_command_completer_next word word_len data with
    | (Some command, data) => command :: completions fuel' word word_len data
    | (None, _) => []
    end
  end.

(** The names of the entries, up to the first one without a name, that have
    a category and start like [word]. *)
Fixpoint matching_commands (infos : list MR_Trace_Command_Info)
    (word : string) (word_len : nat) : list string :=
  match infos with
  | [] => []
  | info :: infos' =>
    match MR_cmd_name info with
    | None => []
    | Some command =>
      if bool_decide (is_Some (MR_cmd_category info))
         && MR_strneq word command word_len
      then command :: matching_commands infos' word word_len
      else matching_commands infos' word word_len
    end
  end.

End Completer.

(** ** The alias command *)

(** What the handler asks of mercury_trace_alias.c besides the insertion:
    the calls of [MR_trace_print_all_aliases] and [MR_trace_print_alias], in
    order. *)
Inductive alias_call : Type :=
  | Call_MR_trace_print_all_aliases
  | Call_MR_trace_print_alias (name : string).

(** [words] holds the [word_count] words of the command; [words+2] with
    [word_count-2] is what is left without the first two. *)
Definition MR_trace_cmd_alias (words : list string) (aliases : alias_table)
    (st : session) : MR_Next * alias_table * list alias_call * session :=
  if decide (length words = 1) then
    (KEEP_INTERACTING, aliases, [Call_MR_trace_print_all_aliases], st)
  else if decide (length words = 2) then
    (KEEP_INTERACTING, aliases, [Call_MR_trace_print_alias (word_at words 1)],
     st)
  else
    match MR_trace_valid_command (word_at words 2) with
    | Some _ =>
      (KEEP_INTERACTING,
       MR_trace_add_alias (word_at words 1) (drop 2 words) aliases,
       if MR_trace_internal_interacting st
       then [Call_MR_trace_print_alias (word_at words 1)] else [],
       st)
    | None =>
      (KEEP_INTERACTING, aliases, [],
       write (Out ("`" +:+ word_at words 2 +:+ "' is not a valid command." +:+
                   newline)) st)
    end.

(** Every replacement starts with the name of an entry of the command
    table. *)
Definition alias_bodies_are_commands (aliases : alias_table) : Prop :=
  forall name alias_words,
    aliases !! name = Some alias_words ->
    exists command rest,
      alias_words = command :: rest
      /\ is_Some (MR_trace_valid_command command).

(** ** Enabling and disabling break points *)

Module Spy.

(** The two fields of a break point that [enable] and [disable] read and
    write. *)
Record MR_Spy_Point : Type := {
  spy_exists : bool;
  spy_enabled : bool
}.

Definition set_spy_enabled (b : bool) (p : MR_Spy_Point) : MR_Spy_Point :=
  {| spy_exists := spy_exists p; spy_enabled := b |}.

(** [MR_spy_points], of which [MR_spy_point_next] is the length, and
    [MR_most_recent_spy_point]. *)
Record table : Type := {
  MR_spy_points : list MR_Spy_Point;
  MR_most_recent_spy_point : Z
}.

Definition MR_spy_point_next (t : table) : Z :=
  Z.of_nat (length (MR_spy_points t)).

Definition set_spy_points (l : list MR_Spy_Point) (t : table) : table :=
  {| MR_spy_points := l;
     MR_most_recent_spy_point := MR_most_recent_spy_point t |}.

(** [0 <= n && n < MR_spy_point_next && MR_spy_points[n]->spy_exists] *)
Definition exists_at (t : table) (n : Z) : bool :=
  bool_decide (0 <= n)%Z && bool_decide (n < MR_spy_point_next t)%Z
  && default false (spy_exists <$> MR_spy_points t !! Z.to_nat n).

(** [MR_spy_points[n]->spy_enabled = b] *)
Definition enable_at (b : bool) (n : Z) (t : table) : table :=
  set_spy_points
    (alter (set_spy_enabled b) (Z.to_nat n) (MR_spy_points t)) t.

(** The loop of the [*] case from slot [i] on. Returns the table, the slots
    given to [MR_print_spy_point], in order, and [count]. *)
Fixpoint enable_all_loop (b : bool) (fuel : nat) (i : Z) (t : table)
    (printed : list Z) (count : Z) : table * list Z * Z :=
  match fuel with
  | 0 => (t, printed, count)
  | S fuel' =>
    if bool_decide (i < MR_spy_point_next t)%Z then
      if default false (spy_exists <$> MR_spy_points t !! Z.to_nat i) then
        enable_all_loop b fuel' (i + 1) (enable_at b i t) (printed ++ [i])
          (count + 1)
      else enable_all_loop b fuel' (i + 1) t printed count
    else (t, printed, count)
  end.

(** [MR_trace_cmd_enable] is [enable_or_disable true "mdb: there is no most
    recent break point."] and [MR_trace_cmd_disable] is [enable_or_disable
    false "There is no most recent break point."]: the two functions differ
    in the flag they store and in that message only. Returns the table, the
    slots given to [MR_print_spy_point(MR_mdb_out, slot, MR_FALSE)], and the
    session. *)
Definition enable_or_disable (b : bool) (no_recent : string)
    (words : list string) (t : table) (st : session)
    : MR_Next * table * list Z * session :=
  match
    if decide (length words = 2) then
      MR_trace_is_natural_number (word_at words 1)
    else None
  with
  | Some n =>
    if exists_at t n then (KEEP_INTERACTING, enable_at b n t, [n], st)
    else
      (KEEP_INTERACTING, t, [],
       write (Err ("mdb: break point #" +:+ pretty n +:+
                   " does not exist." +:+ newline)) st)
  | None =>
    if bool_decide (length words = 2) && String.eqb (word_at words 1) "*"
    then
      match enable_all_loop b (length (MR_spy_points t)) 0 t [] 0 with
      | (t, printed, count) =>
        if bool_decide (count = 0%Z) then
          (KEEP_INTERACTING, t, printed,
           write (Err ("There are no break points." +:+ newline)) st)
        else (KEEP_INTERACTING, t, printed, st)
      end
    else if bool_decide (length words = 1) then
      if exists_at t (MR_most_recent_spy_point t) then
        (KEEP_INTERACTING, enable_at b (MR_most_recent_spy_point t) t,
         [MR_most_recent_spy_point t], st)
      else (KEEP_INTERACTING, t, [], write (Err (no_recent +:+ newline)) st)
    else (KEEP_INTERACTING, t, [], MR_trace_usage_cur_cmd st)
  end.

Definition MR_trace_cmd_enable (words : list string) (t : table)
    (st : session) : MR_Next * table * list Z * session :=
  enable_or_disable true "mdb: there is no most recent break point." words t
    st.

Definition MR_trace_cmd_disable (words : list string) (t : table)
    (st : session) : MR_Next * table * list Z * session :=
  enable_or_disable false "There is no most recent break point." words t st.

End Spy.

(** ** Initialisation files and the source command *)

Definition MDBRC_FILENAME : string := ".mdbrc".

Section Files.

(** The world outside: [getenv], and [fopen(filename, "r")] giving the
    lines of the file, or NULL, in which case [open_error filename] is
    [strerror(errno)]. *)
Variable getenv : string -> option string.
Variable fopen : string -> option (list string).
Variable open_error : string -> string.
Variable MR_getopt_long :
  list string -> string -> list MR_option -> getopt_run.

Definition MR_trace_source (filename : string) (ignore_errors : bool)
    (st : session) : bool * session :=
  match fopen filename with
  | Some fp => (true, MR_trace_source_from_open_file fp st)
  | None =>
    (false,
     write (Err (filename +:+ ": " +:+ open_error filename +:+ "." +:+
                 newline)) st)
  end.

Definition MR_trace_internal_init_from_env (st : session) : session :=
  match getenv "MERCURY_DEBUGGER_INIT" with
  | Some init => (MR_trace_source init false st).2
  | None => st
  end.

Definition MR_trace_internal_init_from_local (st : session) : session :=
  match fopen MDBRC_FILENAME with
  | Some fp => MR_trace_source_from_open_file fp st
  | None => st
  end.

Definition MR_trace_internal_init_from_home_dir (st : session) : session :=
  match getenv "HOME" with
  | None => st
  | Some env =>
    match fopen (env +:+ "/" +:+ MDBRC_FILENAME) with
    | Some fp => MR_trace_source_from_open_file fp st
    | None => st
    end
  end.

(** The three calls of [MR_trace_internal_ensure_init] that source the
    initialisation files, in the order of the code. *)
Definition source_init_files (st : session) : session :=
  let st := MR_trace_internal_init_from_home_dir st in
  let st := MR_trace_internal_init_from_local st in
  MR_trace_internal_init_from_env st.

Definition MR_trace_ignore_opts : list MR_option :=
  [ {| MR_option_name := "ignore-errors"; MR_option_has_arg := false;
       MR_option_val := "i"%char |} ].

Fixpoint ignore_opts_loop (codes : list (ascii * string))
    (ignore_errors : bool) : bool * bool :=
  match codes with
  | [] => (true, ignore_errors)
  | (c, _) :: codes' =>
    if Ascii.eqb c "i"%char then ignore_opts_loop codes' true
    else (false, ignore_errors)
  end.

Definition MR_trace_options_ignore (ignore_errors : bool)
    (words : list string) (st : session)
    : bool * bool * list string * session :=
  let run := MR_getopt_long words "i" MR_trace_ignore_opts in
  match ignore_opts_loop (go_codes run) ignore_errors with
  | (false, ignore_errors) =>
    (false, ignore_errors, words, MR_trace_usage_cur_cmd st)
  | (true, ignore_errors) => (true, ignore_errors, go_words run, st)
  end.

Definition MR_trace_cmd_source (words : list string) (st : session)
    : MR_Next * session :=
  match MR_trace_options_ignore false words st with
  | (false, _, _, st) => (KEEP_INTERACTING, st)
  | (true, ignore_errors, words, st) =>
    if decide (length words = 2) then
      (KEEP_INTERACTING,
       (MR_trace_source (word_at words 1) ignore_errors st).2)
    else (KEEP_INTERACTING, MR_trace_usage_cur_cmd st)
  end.

End Files.

(** ** What the tokenizer computes

    The words of a line as a function of its characters, with no buffer:
    single quotes and backslashes are dropped, double quotes are kept, a
    character after a backslash is taken as it is, and white space ends a
    word outside quotes only. *)

(** The characters of the word that starts at the head of [l], and the text
    that is left after it. *)
Fixpoint word_chars (single_quoted double_quoted : bool) (l : list ascii)
    : list ascii * list ascii :=
  match l with
  | [] => ([], [])
  | c :: l' =>
    if negb single_quoted && negb double_quoted && MR_isspace c then ([], l')
    else if negb double_quoted && Ascii.eqb c SINGLE_QUOTE_CHAR then
      word_chars (negb single_quoted) double_quoted l'
    else if negb single_quoted && Ascii.eqb c DOUBLE_QUOTE_CHAR then
      match word_chars single_quoted (negb double_quoted) l' with
      | (w, rest) => (c :: w, rest)
      end
    else if Ascii.eqb c ESCAPE_CHAR then
      match l' with
      | [] => ([], [])
      | c' :: l'' =>
        match word_chars single_quoted double_quoted l'' with
        | (w, rest) => (c' :: w, rest)
        end
      end
    else
      match word_chars single_quoted double_quoted l' with
      | (w, rest) => (c :: w, rest)
      end
  end.

Fixpoint drop_spaces (l : list ascii) : list ascii :=
  match l with
  | [] => []
  | c :: l' => if MR_isspace c then drop_spaces l' else l
  end.

(** At most [fuel] words; a text has fewer words than characters. *)
Fixpoint split_words (fuel : nat) (l : list ascii) : list (list ascii) :=
  match fuel with
  | 0 => []
  | S fuel' =>
    match drop_spaces l with
    | [] => []
    | c :: l' =>
      match word_chars false false (c :: l') with
      | (w, rest) => w :: split_words fuel' rest
      end
    end
  end.

Definition words_of_line (line : string) : list string :=
  string_of_list_ascii
    <$> split_words (S (length (line_chars line))) (line_chars line).

(** ** More notions used to state the properties *)

(** What a movement handler leaves alone when it has run: nothing is read,
    no setting changes, and either the dialogue goes on, the kind and the
    targets of the decision are as before and one message on [MR_mdb_err]
    says why, or the decision is of the handler's kind and nothing was
    written. *)
Definition movement_outcome (kind : MR_Trace_Cmd_Type)
    (cmd : MR_Trace_Cmd_Info) (st : session)
    (r : MR_Next * MR_Trace_Cmd_Info * session) : Prop :=
  match r with
  | (KEEP_INTERACTING, cmd', st') =>
    MR_trace_cmd cmd' = MR_trace_cmd cmd
    /\ MR_trace_stop_depth cmd' = MR_trace_stop_depth cmd
    /\ MR_trace_stop_event cmd' = MR_trace_stop_event cmd
    /\ exists msg, st' = write (Err msg) st
  | (STOP_INTERACTING, cmd', st') => MR_trace_cmd cmd' = kind /\ st' = st
  end.


(** The slots of [points] that exist, numbered from [i] on, in order. *)
Fixpoint existing_slots (i : Z) (points : list Spy.MR_Spy_Point) : list Z :=
  match points with
  | [] => []
  | p :: points' =>
    if Spy.spy_exists p then i :: existing_slots (i + 1) points'
    else existing_slots (i + 1) points'
  end.

(** A break point with its enabled flag set to [b] if it exists, and as it
    is if it does not. *)
Definition enabled_if_exists (b : bool) (p : Spy.MR_Spy_Point)
    : Spy.MR_Spy_Point :=
  if Spy.spy_exists p then Spy.set_spy_enabled b p else p.

(** * Properties *)

(** ** Command dispatch *)

(** The loop of [MR_trace_valid_command] finds nothing for a word that is
    the name of no entry. *)
Lemma valid_command_loop_no_name (infos : list MR_Trace_Command_Info)
    (word : string) :
  (forall info, info ∈ infos -> MR_cmd_name info <> Some word) ->
  valid_command_loop infos word = None.
Proof.
  induction infos as [|info infos IH]; intros Hno; [reflexivity|].
  simpl. destruct (MR_cmd_name info) as [name|] eqn:Hname; [|reflexivity].
  destruct (String.eqb_spec name word) as [->|Hne].
  - exfalso. apply (Hno info); [left|exact Hname].
  - apply IH. intros info' Hin. apply Hno. by right.
Qed.

(** A first word that names no entry of the table is reported as an
    unknown command, and the engine keeps interacting. *)
Lemma handle_cmd_unknown (words : list string) :
  (forall info, info ∈ MR_trace_command_infos ->
     MR_cmd_name info <> Some (word_at words 0)) ->
  MR_trace_handle_cmd words =
    UnknownCommand
      ("Unknown command `" +:+ word_at words 0 +:+
       "'. Give the command `help' for help." +:+ newline)
      KEEP_INTERACTING.
Proof.
  intros Hno. unfold MR_trace_handle_cmd, MR_trace_valid_command.
  by rewrite valid_command_loop_no_name.
Qed.

(** An entry that the lookup returns has the name looked up. *)
Lemma valid_command_loop_name (infos : list MR_Trace_Command_Info)
    (word : string) (info : MR_Trace_Command_Info) :
  valid_command_loop infos word = Some info ->
  info ∈ infos /\ MR_cmd_name info = Some word.
Proof.
  induction infos as [|info' infos IH]; simpl; [discriminate|].
  destruct (MR_cmd_name info') as [name|] eqn:Hname; [|discriminate].
  destruct (String.eqb_spec name word) as [->|Hne].
  - intros [= <-]. split; [left|exact Hname].
  - intros H. destruct (IH H) as [Hin Hn]. split; [by right|exact Hn].
Qed.

(** C1, at the inputs where the code departs from it. The entries "NUMBER"
    and "EMPTY" of the table have a name and no handler;
    [MR_trace_valid_command] returns them like any other entry, and
    [MR_trace_handle_cmd] then calls their handler, a null function
    pointer, where an unknown command should be reported. With no alias
    for the word, the line [NUMBER] reaches that call. *)
Theorem handle_cmd_reserved_entry_calls_null :
  MR_trace_handle_cmd ["NUMBER"] =
    CallNullPointer {| MR_cmd_category := None; MR_cmd_name := Some "NUMBER";
                       MR_cmd_function := None |}
  /\ MR_trace_handle_cmd ["EMPTY"] =
    CallNullPointer {| MR_cmd_category := None; MR_cmd_name := Some "EMPTY";
                       MR_cmd_function := None |}
  /\ MR_trace_debug_cmd ∅ "NUMBER" =
    Dispatch ["NUMBER"]
      (CallNullPointer {| MR_cmd_category := None;
                          MR_cmd_name := Some "NUMBER";
                          MR_cmd_function := None |}).
Proof. repeat split; vm_compute; reflexivity. Qed.

(** ** The ignore command *)

(** The effects of the loop of [ignore *]: two calls for every slot that
    exists, all of them on the index [n]. *)
Lemma ignore_all_loop_effects (exists_from : list bool) (i n : Z)
    (ignore_when : MR_Spy_Ignore_When) (ignore_count count : Z)
    (st : session) :
  let k := length (filter (fun b : bool => b = true) exists_from) in
  ignore_all_loop exists_from i n ignore_when ignore_count count st =
    ((count + Z.of_nat k)%Z,
     {| MR_line_queue := MR_line_queue st; mdb_in := mdb_in st;
        effects :=
          effects st ++
          concat (replicate k
                    [Call_MR_ignore_spy_point n ignore_when ignore_count;
                     Call_MR_maybe_print_spy_point n]);
        MR_trace_internal_interacting := MR_trace_internal_interacting st;
        MR_echo_commands := MR_echo_commands st;
        MR_scroll_control := MR_scroll_control st;
        MR_scroll_limit := MR_scroll_limit st;
        MR_scroll_next := MR_scroll_next st;
        MR_default_print_level := MR_default_print_level st;
        MR_current_cmd_name := MR_current_cmd_name st |}).
Proof.
  revert i count st.
  induction exists_from as [|b rest IH]; intros i count st; simpl.
  - rewrite Z.add_0_r, app_nil_r. by destruct st.
  - destruct b.
    + rewrite filter_cons_True by done. rewrite IH. simpl.
      f_equal; [lia|]. f_equal. rewrite <- !app_assoc. reflexivity.
    + rewrite filter_cons_False by done. apply IH.
Qed.

(** C2. In the [ignore *] case the handler makes its calls of
    [MR_ignore_spy_point] and [MR_maybe_print_spy_point] once for every
    breakpoint that exists, and every one of these calls gets the variable
    [n] of the handler, which no statement of this case sets: the value it
    happens to hold, never the index of the breakpoint the loop is at. *)
Theorem ignore_all_passes_the_same_n
    (MR_getopt_long : list string -> string -> list MR_option -> getopt_run)
    (n_initial : Z) (table : spy_table) (words : list string) (st : session)
    (ignore_when : MR_Spy_Ignore_When) (ignore_count : Z) (w0 : string)
    (st1 : session) :
  MR_trace_options_ignore_count MR_getopt_long MR_SPY_IGNORE_ENTRY 1 words st
    = (true, ignore_when, ignore_count, [w0; "*"], st1) ->
  let k := length (filter (fun b : bool => b = true) (spy_exists table)) in
  exists st',
    MR_trace_cmd_ignore MR_getopt_long n_initial table words st
      = (KEEP_INTERACTING, st')
    /\ effects st' =
         effects st1 ++
         concat (replicate k
                   [Call_MR_ignore_spy_point n_initial ignore_when
                      ignore_count;
                    Call_MR_maybe_print_spy_point n_initial]) ++
         (if decide (k = 0)
          then [Err ("There are no break points." +:+ newline)] else []).
Proof.
  intros Hopts k. unfold MR_trace_cmd_ignore. rewrite Hopts.
  change (length [w0; "*"]) with 2.
  change (MR_trace_is_natural_number (word_at [w0; "*"] 1)) with (@None Z).
  simpl. rewrite ignore_all_loop_effects. fold k.
  destruct (decide (k = 0)) as [Hk|Hk].
  - rewrite Hk. simpl. eexists. split; [reflexivity|]. simpl.
    by rewrite app_nil_r.
  - rewrite bool_decide_eq_false_2 by lia.
    eexists. split; [reflexivity|]. simpl. by rewrite app_nil_r.
Qed.

Lemma ignore_all_passes_the_same_n_witness :
  exists st',
    MR_trace_cmd_ignore getopt_long_no_options 77
      {| spy_exists := [true; false; true]; MR_most_recent_spy_point := 2 |}
      ["ignore"; "*"] (sample_session [] [])
      = (KEEP_INTERACTING, st')
    /\ effects st' =
         [Call_MR_ignore_spy_point 77 MR_SPY_IGNORE_ENTRY 1;
          Call_MR_maybe_print_spy_point 77;
          Call_MR_ignore_spy_point 77 MR_SPY_IGNORE_ENTRY 1;
          Call_MR_maybe_print_spy_point 77].
Proof.
  apply (ignore_all_passes_the_same_n getopt_long_no_options 77
           {| spy_exists := [true; false; true];
              MR_most_recent_spy_point := 2 |}
           ["ignore"; "*"] (sample_session [] []) MR_SPY_IGNORE_ENTRY 1
           "ignore" (sample_session [] [])).
  reflexivity.
Defined.

(** ** Reading commands *)

Lemma MR_trace_getline_Some (prompt : string) (st : session) (line : string)
    (st' : session) :
  MR_trace_getline prompt st = (Some line, st') ->
  S (lines_left st') = lines_left st.
Proof.
  unfold MR_trace_getline, MR_trace_getline_queue, MR_trace_readline,
    lines_left.
  destruct st as [q i e a b c d f g h]; simpl.
  destruct q as [|l q]; simpl.
  - destruct i as [|l i]; simpl; [discriminate|].
    destruct b; intros [= <- <-]; simpl; lia.
  - intros [= <- <-]. simpl. lia.
Qed.

(** [MR_trace_continue_line] puts a line back on the queue only when it
    says that the command is complete. *)
Lemma MR_trace_continue_line_true (ptr : string) (sq dq : bool)
    (st : session) (ptr' : string) (sq' dq' : bool) (st' : session) :
  MR_trace_continue_line ptr sq dq st = (true, ptr', sq', dq', st') ->
  st' = st.
Proof.
  unfold MR_trace_continue_line.
  destruct (continue_line_loop ptr false sq dq); [discriminate|].
  by intros [= _ _ _ _ <-].
Qed.

(** The loop of [MR_trace_get_command] ends: the lines left bound its
    turns. *)
Lemma get_command_loop_total (fuel : nat) (cmd_chars ptr : string)
    (sq dq : bool) (st : session) :
  lines_left st < fuel ->
  is_Some (get_command_loop fuel cmd_chars ptr sq dq st).
Proof.
  revert cmd_chars ptr sq dq st.
  induction fuel as [|fuel IH]; intros cmd_chars ptr sq dq st Hlt; [lia|].
  simpl.
  destruct (MR_trace_continue_line ptr sq dq st)
    as [[[[continues ptr'] sq'] dq'] st'] eqn:Hcont.
  destruct continues; [|by eexists].
  apply MR_trace_continue_line_true in Hcont as ->.
  destruct (MR_trace_getline "> " st) as [[line|] st''] eqn:Hget;
    [|by eexists].
  apply IH. apply MR_trace_getline_Some in Hget. lia.
Qed.

(** [MR_trace_get_command] always returns a command. *)
Lemma MR_trace_get_command_total (prompt : string) (st : session) :
  is_Some (MR_trace_get_command prompt st).
Proof.
  unfold MR_trace_get_command.
  destruct (MR_trace_getline prompt st) as [[line|] st']; [|by eexists].
  apply get_command_loop_total. unfold lines_left. lia.
Qed.

(** C3. When the read of a command meets the end of input (the queue is
    empty and [MR_mdb_in] has no line left), [MR_trace_get_command]
    returns the command [quit]; when the user types the line [quit], it
    returns the same command. The interpreter is therefore handed the same
    line in both cases, and does the same with it. *)
Theorem get_command_at_eof_is_typed_quit (prompt : string)
    (st_eof st_eof' st_typed st_typed' : session) :
  MR_trace_getline prompt st_eof = (None, st_eof') ->
  MR_trace_getline prompt st_typed = (Some "quit", st_typed') ->
  MR_trace_get_command prompt st_eof = Some ("quit", st_eof')
  /\ MR_trace_get_command prompt st_typed = Some ("quit", st_typed')
  /\ forall aliases line_eof line_typed,
       fst <$> MR_trace_get_command prompt st_eof = Some line_eof ->
       fst <$> MR_trace_get_command prompt st_typed = Some line_typed ->
       MR_trace_debug_cmd aliases line_eof
       = MR_trace_debug_cmd aliases line_typed.
Proof.
  intros Heof Htyped.
  assert (H1 : MR_trace_get_command prompt st_eof = Some ("quit", st_eof')).
  { unfold MR_trace_get_command. by rewrite Heof. }
  assert (H2 : MR_trace_get_command prompt st_typed
               = Some ("quit", st_typed')).
  { unfold MR_trace_get_command. rewrite Htyped. reflexivity. }
  split; [exact H1|]. split; [exact H2|].
  intros aliases l1 l2. rewrite H1, H2. simpl. by intros [= <-] [= <-].
Qed.

Lemma get_command_at_eof_is_typed_quit_witness :
  MR_trace_get_command "mdb> " (sample_session [] [])
    = Some ("quit",
            set_internal_interacting true
              (write (Prompt "mdb> ")
                 (set_internal_interacting true (sample_session [] []))))
  /\ MR_trace_get_command "mdb> " (sample_session [] ["quit"])
    = Some ("quit",
            set_mdb_in []
              (write (Prompt "mdb> ")
                 (set_internal_interacting true
                    (sample_session [] ["quit"])))).
Proof.
  pose proof (get_command_at_eof_is_typed_quit "mdb> "
                (sample_session [] []) _ (sample_session [] ["quit"]) _
                eq_refl eq_refl) as (H1 & H2 & _).
  split; [exact H1|exact H2].
Defined.

(** ** The fail command *)

(** Options change the strictness and the print level of a decision, never
    its command kind or its stop depth. *)
Lemma movement_cmd_opts_loop_keeps (codes : list (ascii * string))
    (cmd : MR_Trace_Cmd_Info) :
  MR_trace_cmd (movement_cmd_opts_loop codes cmd).2 = MR_trace_cmd cmd
  /\ MR_trace_stop_depth (movement_cmd_opts_loop codes cmd).2
     = MR_trace_stop_depth cmd.
Proof.
  revert cmd. induction codes as [|[c arg] codes IH]; intros cmd; simpl;
    [done|].
  repeat case_match; try done;
    match goal with
    | |- context [movement_cmd_opts_loop codes ?c'] =>
        destruct (IH c') as [-> ->]; done
    end.
Qed.

Lemma MR_trace_options_movement_cmd_keeps
    (MR_getopt_long : list string -> string -> list MR_option -> getopt_run)
    (cmd : MR_Trace_Cmd_Info) (words : list string) (st : session)
    (ok : bool) (cmd1 : MR_Trace_Cmd_Info) (words1 : list string)
    (st1 : session) :
  MR_trace_options_movement_cmd MR_getopt_long cmd words st
    = (ok, cmd1, words1, st1) ->
  MR_trace_cmd cmd1 = MR_trace_cmd cmd
  /\ MR_trace_stop_depth cmd1 = MR_trace_stop_depth cmd.
Proof.
  unfold MR_trace_options_movement_cmd.
  pose proof (movement_cmd_opts_loop_keeps
                (go_codes (MR_getopt_long words MR_TRACE_MOVEMENT_OPTS
                             MR_trace_movement_cmd_opts)) cmd) as Hk.
  destruct (movement_cmd_opts_loop _ cmd) as [[c|] cmd'];
    intros [= _ <- _ _]; exact Hk.
Qed.

(** For a call depth and a number of levels that an [int] holds, the stop
    depth of [fail n] is the depth less [n] when that is not negative. *)
Lemma fail_stop_depth_in_range (depth n : Z) (w0 w1 : string) :
  MR_trace_is_natural_number w1 = Some n ->
  (0 <= n <= depth)%Z -> (depth < 2 ^ 31)%Z ->
  fail_stop_depth depth [w0; w1] = Some (depth - n)%Z
  /\ to_MR_Unsigned (depth - n) = (depth - n)%Z.
Proof.
  intros Hn Hrange Hdepth. unfold fail_stop_depth. simpl.
  change (word_at [w0; w1] 1) with w1. rewrite Hn.
  unfold to_int, to_MR_Unsigned, int_bits, MR_Unsigned_bits.
  change (2 ^ (32 - 1))%Z with 2147483648%Z.
  change (2 ^ 32)%Z with 4294967296%Z.
  change (2 ^ 31)%Z with 2147483648%Z in Hdepth.
  change (2 ^ 64)%Z with 18446744073709551616%Z.
  rewrite (Z.mod_small (depth - n)) by lia.
  rewrite (Z.mod_small (depth - n + 2147483648)) by lia.
  split; [f_equal; lia|reflexivity].
Qed.

(** C4. Let the options of a [fail] command be accepted (leaving the
    decision [cmd1], the words [words1] and the session [st1]) and let its
    words give the stop depth, [D] as an [MR_Unsigned]. Then, in this
    order: if the determinism of the procedure uses the det stack, the
    handler reports the error that names the determinism and keeps
    interacting; if the depth is [D] and the port is FAIL, it reports a
    no-op, by the message [This command is a no-op from this port.] on
    [MR_mdb_err], and keeps interacting; if the depth is [D] and the port
    is EXCEPTION, it reports that the call has raised an exception and
    keeps interacting; otherwise it stops interacting with the decision
    FAIL and the stop depth [D]. Where it keeps interacting, the command
    kind and the stop depth of the decision are as they were. [D] is the
    current depth for [fail] without a number, and the current depth less
    [n] for [fail n] with [n] between 0 and the depth (for a depth that an
    [int] holds). *)
Theorem fail_command_cases
    (MR_getopt_long : list string -> string -> list MR_option -> getopt_run)
    (MR_DETISM_DET_STACK : Z -> bool) (MR_detism_names : Z -> string)
    (words : list string) (cmd : MR_Trace_Cmd_Info)
    (event_info : MR_Event_Info) (st : session)
    (cmd1 : MR_Trace_Cmd_Info) (words1 : list string) (st1 : session)
    (stop_depth : Z) :
  MR_trace_options_movement_cmd MR_getopt_long
    (set_trace_print_level (MR_default_print_level st)
       (set_trace_strict true cmd)) words st
    = (true, cmd1, words1, st1) ->
  fail_stop_depth (MR_call_depth event_info) words1 = Some stop_depth ->
  let D := to_MR_Unsigned stop_depth in
  let detism := MR_sle_detism event_info in
  let depth := MR_call_depth event_info in
  let port := MR_trace_port event_info in
  let result :=
    MR_trace_cmd_fail MR_getopt_long MR_DETISM_DET_STACK MR_detism_names
      words cmd event_info st in
  (MR_DETISM_DET_STACK detism = true ->
   result =
     (KEEP_INTERACTING, cmd1,
      write (Err ("mdb: cannot continue until failure: " +:+
                  "selected procedure has determinism " +:+
                  MR_detism_names detism +:+ "." +:+ newline)) st1))
  /\ (MR_DETISM_DET_STACK detism = false -> depth = D ->
      port = MR_PORT_FAIL ->
      result =
        (KEEP_INTERACTING, cmd1,
         write (Err ("This command is a no-op from this port." +:+ newline))
           st1))
  /\ (MR_DETISM_DET_STACK detism = false -> depth = D ->
      port = MR_PORT_EXCEPTION ->
      result =
        (KEEP_INTERACTING, cmd1,
         write (Err ("mdb: cannot continue until failure: " +:+
                     "the call has raised an exception." +:+ newline)) st1))
  /\ (MR_DETISM_DET_STACK detism = false ->
      ~ (depth = D /\ (port = MR_PORT_FAIL \/ port = MR_PORT_EXCEPTION)) ->
      exists cmd',
        result = (STOP_INTERACTING, cmd', st1)
        /\ MR_trace_cmd cmd' = MR_CMD_FAIL
        /\ MR_trace_stop_depth cmd' = D
        /\ MR_trace_strict cmd' = MR_trace_strict cmd1
        /\ MR_trace_print_level cmd' = MR_trace_print_level cmd1)
  /\ MR_trace_cmd cmd1 = MR_trace_cmd cmd
  /\ MR_trace_stop_depth cmd1 = MR_trace_stop_depth cmd
  /\ (forall w0, words1 = [w0] -> (0 <= depth < 2 ^ 31)%Z -> D = depth)
  /\ (forall w0 w1 n,
        words1 = [w0; w1] -> MR_trace_is_natural_number w1 = Some n ->
        (0 <= n <= depth)%Z -> (depth < 2 ^ 31)%Z -> D = (depth - n)%Z).
Proof.
  intros Hopts Hdepth D detism depth port result.
  assert (Hres : result =
    if MR_DETISM_DET_STACK detism then
      (KEEP_INTERACTING, cmd1,
       write (Err ("mdb: cannot continue until failure: " +:+
                   "selected procedure has determinism " +:+
                   MR_detism_names detism +:+ "." +:+ newline)) st1)
    else if bool_decide (depth = D) && bool_decide (port = MR_PORT_FAIL)
    then (KEEP_INTERACTING, cmd1, MR_trace_do_noop st1)
    else if bool_decide (depth = D) && bool_decide (port = MR_PORT_EXCEPTION)
    then
      (KEEP_INTERACTING, cmd1,
       write (Err ("mdb: cannot continue until failure: " +:+
                   "the call has raised an exception." +:+ newline)) st1)
    else
      (STOP_INTERACTING,
       set_trace_stop_depth D (set_trace_cmd MR_CMD_FAIL cmd1), st1)).
  { subst result. unfold MR_trace_cmd_fail. rewrite Hopts.
    fold depth. fold depth in Hdepth. rewrite Hdepth. reflexivity. }
  repeat split.
  - intros Hdet. by rewrite Hres, Hdet.
  - intros Hdet Hd Hp. rewrite Hres, Hdet.
    by rewrite (bool_decide_eq_true_2 _ Hd), (bool_decide_eq_true_2 _ Hp).
  - intros Hdet Hd Hp. rewrite Hres, Hdet.
    rewrite (bool_decide_eq_true_2 _ Hd), (bool_decide_eq_true_2 _ Hp).
    rewrite (bool_decide_eq_false_2 (port = MR_PORT_FAIL))
      by (rewrite Hp; discriminate).
    reflexivity.
  - intros Hdet Hnot. rewrite Hres, Hdet.
    assert (Hgo : bool_decide (depth = D) && bool_decide (port = MR_PORT_FAIL)
                  = false
                  /\ bool_decide (depth = D)
                     && bool_decide (port = MR_PORT_EXCEPTION) = false).
    { split; apply andb_false_iff;
        destruct (decide (depth = D)) as [Hd|Hd];
        try (left; by apply bool_decide_eq_false_2);
        right; apply bool_decide_eq_false_2; intros Hp; apply Hnot; auto. }
    destruct Hgo as [-> ->].
    eexists. split; [reflexivity|]. done.
  - by apply MR_trace_options_movement_cmd_keeps in Hopts as [-> _].
  - by apply MR_trace_options_movement_cmd_keeps in Hopts as [_ ->].
  - intros w0 -> Hrange. fold depth in Hdepth.
    unfold fail_stop_depth in Hdepth. simpl in Hdepth.
    injection Hdepth as <-. subst D.
    unfold to_int, to_MR_Unsigned, int_bits, MR_Unsigned_bits.
    change (2 ^ (32 - 1))%Z with 2147483648%Z.
    change (2 ^ 32)%Z with 4294967296%Z.
    change (2 ^ 31)%Z with 2147483648%Z in Hrange.
    change (2 ^ 64)%Z with 18446744073709551616%Z.
    rewrite (Z.mod_small (depth + 2147483648)) by lia.
    rewrite Z.mod_small by lia. lia.
  - intros w0 w1 n -> Hn Hrange Hsmall.
    destruct (fail_stop_depth_in_range depth n w0 w1 Hn Hrange Hsmall)
      as [Hsd HD].
    fold depth in Hdepth. rewrite Hsd in Hdepth. injection Hdepth as <-.
    done.
Qed.

Lemma fail_command_cases_witness :
  MR_trace_cmd_fail sample_getopt_long (fun _ => false)
    (fun _ => "nondet") ["fail"] sample_cmd
    (sample_event 4 MR_PORT_FAIL) (sample_session [] [])
  = (KEEP_INTERACTING,
     set_trace_print_level MR_PRINT_LEVEL_SOME
       (set_trace_strict true sample_cmd),
     write (Err ("This command is a no-op from this port." +:+ newline))
       (sample_session [] [])).
Proof.
  pose proof (fail_command_cases sample_getopt_long (fun _ => false)
                (fun _ => "nondet") ["fail"] sample_cmd
                (sample_event 4 MR_PORT_FAIL) (sample_session [] [])
                _ _ _ 4%Z eq_refl eq_refl) as (_ & Hnoop & _).
  apply Hnoop; reflexivity.
Defined.

(** ** The retry command *)

(** C5. Whenever the handler calls [MR_trace_retry] (its arguments are
    accepted, giving the ancestor level, and the command is not the no-op
    of level 0 at an entry port) and [MR_trace_retry] answers
    [MR_RETRY_OK_FINISH_FIRST], the handler puts the line [retry -o] at the
    head of the queue that [MR_trace_retry] left, makes the decision FINISH
    with the stop depth that is the call depth less the ancestor level (in
    [MR_Unsigned] arithmetic, so exactly that for a level up to the
    depth), and stops interacting. *)
Theorem retry_finish_first
    (MR_getopt_long : list string -> string -> list MR_option -> getopt_run)
    (MR_port_is_entry : MR_Trace_Port -> bool)
    (MR_trace_retry :
       MR_Event_Info -> Z -> MR_Retry_Across_Io -> bool -> session ->
       MR_Retry_Result * string * session)
    (words : list string) (cmd : MR_Trace_Cmd_Info)
    (event_info : MR_Event_Info) (st st1 st2 : session)
    (ancestor_level : Z) (across_io : MR_Retry_Across_Io)
    (assume_all_io_is_tabled : bool) (problem : string) :
  retry_arguments MR_getopt_long words st
    = (Some (ancestor_level, across_io, assume_all_io_is_tabled), st1) ->
  bool_decide (ancestor_level = 0%Z)
    && MR_port_is_entry (MR_trace_port event_info) = false ->
  MR_trace_retry event_info ancestor_level across_io
    assume_all_io_is_tabled st1
    = (MR_RETRY_OK_FINISH_FIRST, problem, st2) ->
  exists cmd' st',
    MR_trace_cmd_retry MR_getopt_long MR_port_is_entry MR_trace_retry
      words cmd event_info st
      = (STOP_INTERACTING, cmd', st')
    /\ st' = MR_insert_line_at_head "retry -o" st2
    /\ MR_line_queue st' = "retry -o" :: MR_line_queue st2
    /\ MR_trace_cmd cmd' = MR_CMD_FINISH
    /\ MR_trace_stop_depth cmd'
       = to_MR_Unsigned (MR_call_depth event_info - ancestor_level)
    /\ ((0 <= ancestor_level <= MR_call_depth event_info)%Z ->
        (MR_call_depth event_info < 2 ^ 64)%Z ->
        MR_trace_stop_depth cmd'
        = (MR_call_depth event_info - ancestor_level)%Z).
Proof.
  intros Hargs Hnoop Hretry. unfold MR_trace_cmd_retry.
  rewrite Hargs, Hnoop, Hretry.
  eexists _, _. split; [reflexivity|]. repeat split.
  intros Hlevel Hdepth. simpl. unfold to_MR_Unsigned, MR_Unsigned_bits.
  apply Z.mod_small. lia.
Qed.

Lemma retry_finish_first_witness :
  exists cmd' st',
    MR_trace_cmd_retry getopt_long_no_options
      (fun port => bool_decide (port = MR_PORT_CALL))
      (fun _ _ _ _ st => (MR_RETRY_OK_FINISH_FIRST, "", st))
      ["retry"; "2"] sample_cmd (sample_event 5 MR_PORT_EXIT)
      (sample_session ["print *"] [])
      = (STOP_INTERACTING, cmd', st')
    /\ MR_line_queue st' = ["retry -o"; "print *"]
    /\ MR_trace_cmd cmd' = MR_CMD_FINISH
    /\ MR_trace_stop_depth cmd' = 3%Z.
Proof.
  destruct (retry_finish_first getopt_long_no_options
              (fun port => bool_decide (port = MR_PORT_CALL))
              (fun _ _ _ _ st => (MR_RETRY_OK_FINISH_FIRST, "", st))
              ["retry"; "2"] sample_cmd (sample_event 5 MR_PORT_EXIT)
              (sample_session ["print *"] []) _ _ 2%Z
              MR_RETRY_IO_INTERACTIVE false "" eq_refl eq_refl eq_refl)
    as (cmd' & st' & Hrun & _ & Hqueue & Hcmd & Hdepth & _).
  exists cmd', st'. repeat split; assumption.
Defined.

(** ** The quit command *)

(** Reading a line leaves the settings of the session alone. *)
Lemma MR_trace_getline_settings (prompt : string) (st : session)
    (line : option string) (st' : session) :
  MR_trace_getline prompt st = (line, st') ->
  MR_echo_commands st' = MR_echo_commands st
  /\ MR_scroll_control st' = MR_scroll_control st
  /\ MR_scroll_limit st' = MR_scroll_limit st
  /\ MR_scroll_next st' = MR_scroll_next st
  /\ MR_default_print_level st' = MR_default_print_level st
  /\ MR_current_cmd_name st' = MR_current_cmd_name st.
Proof.
  unfold MR_trace_getline, MR_trace_getline_queue, MR_trace_readline.
  destruct st as [q i e a b c d f g h]; simpl.
  destruct q as [|l q]; simpl.
  - destruct i as [|l i]; simpl.
    + by intros [= <- <-].
    + destruct b; by intros [= <- <-].
  - by intros [= <- <-].
Qed.

(** C10, as stated, fails: the confirmation is read by [MR_trace_getline],
    which takes a line that is pending in the queue before it asks
    anything. From the line [quit; step] the command [quit] is read and
    [ step] is left in the queue; the handler takes that line for the
    reply, shows no question and returns KEEP_INTERACTING with the queue
    empty. The command [step] is lost: the session is not as it was. *)
Lemma quit_takes_a_pending_line_for_the_reply :
  exists st1 st2,
    MR_trace_get_command "mdb> " (sample_session [] ["quit; step"])
    = Some ("quit", st1)
    /\ MR_line_queue st1 = [" step"]
    /\ MR_trace_cmd_quit sample_getopt ["quit"] st1
       = (Returns KEEP_INTERACTING, st2)
    /\ MR_line_queue st2 = []
    /\ effects st2 = effects st1
    /\ st2 <> st1.
Proof.
  eexists _, _. vm_compute. repeat split. intros H. discriminate H.
Qed.

(** C10, amended. Let [quit] come without a flag that confirms it: its
    options are accepted with [confirmed] still false and no word is left
    but the command. The handler then reads a line with the prompt of the
    confirmation. At the end of input the process exits; on a reply whose
    first character that is not white space is [y] or [Y] the process
    exits; on any other reply the handler returns KEEP_INTERACTING, and
    the session is the one the read has left. The settings are those from
    before the command, but the reply has been used up: a line that was
    pending in the queue is taken for the reply and removed, and nothing
    is shown; with no line pending, the question is shown, the reply is
    taken from [MR_mdb_in] and [MR_trace_internal_interacting] is set. *)
Theorem quit_asks_confirmation
    (MR_getopt : list string -> string -> getopt_run)
    (words : list string) (st st1 : session) (w0 : string) :
  MR_trace_options_confirmed MR_getopt false words st
    = (true, false, [w0], st1) ->
  let result := MR_trace_cmd_quit MR_getopt words st in
  let read :=
    MR_trace_getline "mdb: are you sure you want to quit? " st1 in
  (forall st2, read = (None, st2) ->
     result =
       (Exits EXIT_SUCCESS, write Call_MR_trace_maybe_close_source_window st2))
  /\ (forall reply st2, read = (Some reply, st2) ->
        first_nonspace reply = "y"%char \/ first_nonspace reply = "Y"%char ->
        result =
          (Exits EXIT_SUCCESS,
           write Call_MR_trace_maybe_close_source_window st2))
  /\ (forall reply st2, read = (Some reply, st2) ->
        first_nonspace reply <> "y"%char ->
        first_nonspace reply <> "Y"%char ->
        result = (Returns KEEP_INTERACTING, st2)
        /\ MR_echo_commands st2 = MR_echo_commands st
        /\ MR_scroll_control st2 = MR_scroll_control st
        /\ MR_scroll_limit st2 = MR_scroll_limit st
        /\ MR_scroll_next st2 = MR_scroll_next st
        /\ MR_default_print_level st2 = MR_default_print_level st
        /\ MR_current_cmd_name st2 = MR_current_cmd_name st
        /\ match MR_line_queue st with
           | pending :: queue =>
             reply = pending /\ st2 = set_line_queue queue st
           | [] =>
             exists input,
               mdb_in st = reply :: input
               /\ MR_line_queue st2 = [] /\ mdb_in st2 = input
               /\ MR_trace_internal_interacting st2 = true
               /\ exists more,
                    effects st2
                    = effects st ++
                      Prompt "mdb: are you sure you want to quit? " :: more
           end).
Proof.
  intros Hopts result read.
  assert (Hst : st1 = st).
  { revert Hopts. unfold MR_trace_options_confirmed.
    destruct (confirmed_opts_loop _ false) as [[] c]; by intros [= _ _ <-]. }
  subst result read. unfold MR_trace_cmd_quit. rewrite Hopts. simpl.
  split; [|split].
  - by intros st2 ->.
  - intros reply st2 -> [Hy|Hy]; rewrite Hy; reflexivity.
  - intros reply st2 Hread Hy HY. split.
    + rewrite Hread. apply Ascii.eqb_neq in Hy, HY. by rewrite Hy, HY.
    + subst st1.
      pose proof (MR_trace_getline_settings _ _ _ _ Hread)
        as (? & ? & ? & ? & ? & ?).
      repeat (split; [done|]).
      revert Hread.
      unfold MR_trace_getline, MR_trace_getline_queue, MR_trace_readline.
      destruct (MR_line_queue st) as [|pending queue] eqn:Hq; simpl.
      * destruct (mdb_in st) as [|l input] eqn:Hin; simpl; [done|].
        destruct (MR_echo_commands st); intros [= <- <-]; exists input;
          simpl; rewrite ?Hq; repeat split; try done; eexists;
          rewrite <- ?app_assoc; reflexivity.
      * by intros [= <- <-].
Qed.

Lemma quit_asks_confirmation_witness :
  MR_trace_cmd_quit getopt_no_options ["quit"] (sample_session [] ["no"])
  = (Returns KEEP_INTERACTING,
     set_mdb_in []
       (write (Prompt "mdb: are you sure you want to quit? ")
          (set_internal_interacting true (sample_session [] ["no"])))).
Proof.
  pose proof (quit_asks_confirmation getopt_no_options ["quit"]
                (sample_session [] ["no"]) _ "quit" eq_refl)
    as (_ & _ & Hno).
  apply (Hno "no"); [reflexivity|discriminate|discriminate].
Defined.

(** ** The scroll pager *)

Lemma more_prompt_loop_fuel (fuel1 fuel2 : nat) (cmd : MR_Trace_Cmd_Info)
    (st : session) :
  lines_left st < fuel1 -> lines_left st < fuel2 ->
  more_prompt_loop fuel1 cmd st = more_prompt_loop fuel2 cmd st
  /\ is_Some (more_prompt_loop fuel1 cmd st).
Proof.
  revert fuel2 cmd st.
  induction fuel1 as [|fuel1 IH]; intros fuel2 cmd st H1 H2; [lia|].
  destruct fuel2 as [|fuel2]; [lia|]. simpl.
  destruct (MR_trace_getline "--more-- " st) as [[buf|] st1] eqn:Hget;
    [|split; [done|by eexists]].
  apply MR_trace_getline_Some in Hget.
  repeat case_match; try (split; [done|by eexists]).
  apply IH; unfold lines_left in *; simpl; lia.
Qed.

(** The report is always made or handed over: the dialogue ends. *)
Lemma MR_trace_event_internal_report_total
    (MR_trace_var_print_list : list string -> Z) (cmd : MR_Trace_Cmd_Info)
    (print_list : list string) (event_info : MR_Event_Info) (st : session) :
  is_Some (MR_trace_event_internal_report MR_trace_var_print_list cmd
             print_list event_info st).
Proof.
  unfold MR_trace_event_internal_report.
  case_match; [|by eexists].
  destruct (more_prompt_loop_fuel
              (S (length (MR_line_queue st) + length (mdb_in st)))
              (S (lines_left st)) cmd st) as [_ [r Hr]];
    [unfold lines_left; lia..|].
  rewrite Hr. destruct r; by eexists.
Qed.

(** C6, as stated, fails where a line is pending in the queue: the pause
    reads its reply with [MR_trace_getline], which takes that line and
    shows no prompt. With the scroll on and a page of 5 lines, let the line
    [next] be pending (the rest of a line such as [step 5; next]): four
    reports are printed, and the fifth report attempt issues no [--more--]
    prompt at all. It takes [next] for the reply, sets the print level to
    NONE for its first letter, and prints the report; the command [next]
    is lost. *)
Lemma pager_takes_a_pending_line_for_the_reply :
  exists st5,
    report_events (fun _ => 0%Z) sample_cmd
      [sample_event 1 MR_PORT_CALL; sample_event 2 MR_PORT_CALL;
       sample_event 2 MR_PORT_EXIT; sample_event 1 MR_PORT_EXIT;
       sample_event 1 MR_PORT_CALL]
      (sample_page 5 0 ["next"] ["all"])
    = Some (Reported (set_trace_print_level MR_PRINT_LEVEL_NONE sample_cmd)
              st5)
    /\ effects st5 =
         [EventReport 10; EventReport 10; EventReport 10; EventReport 10;
          EventReport 10]
    /\ MR_line_queue st5 = [] /\ mdb_in st5 = ["all"].
Proof.
  vm_compute. eexists. repeat split.
Qed.

(** After white space comes the end of the line or a character that is not
    white space. *)
Lemma first_nonspace_not_space (line : string) :
  first_nonspace line = NUL \/ MR_isspace (first_nonspace line) = false.
Proof.
  induction line as [|c line IH]; simpl; [by left|].
  destruct (Ascii.eqb c NUL) eqn:Hc; simpl.
  - left. by apply Ascii.eqb_eq.
  - destruct (MR_isspace c) eqn:Hs; [exact IH|by right].
Qed.

(** Four reports without a print list on a fresh page of 5 lines are made
    without a pause and read no input; they leave the count at 4, where the
    next report pauses. *)
Lemma four_reports_fill_a_page_of_five
    (MR_trace_var_print_list : list string -> Z) (cmd : MR_Trace_Cmd_Info)
    (e1 e2 e3 e4 : MR_Event_Info) (st : session) :
  MR_scroll_control st = true -> MR_scroll_limit st = 5%Z ->
  MR_scroll_next st = 0%Z ->
  exists st4,
    report_events MR_trace_var_print_list cmd [e1; e2; e3; e4] st
      = Some (Reported cmd st4)
    /\ effects st4 =
         effects st ++
         [EventReport (MR_event_number e1); EventReport (MR_event_number e2);
          EventReport (MR_event_number e3); EventReport (MR_event_number e4)]
    /\ MR_line_queue st4 = MR_line_queue st /\ mdb_in st4 = mdb_in st
    /\ MR_scroll_control st4 = true /\ MR_scroll_limit st4 = 5%Z
    /\ MR_scroll_next st4 = 4%Z.
Proof.
  destruct st as [q i e a b c d f g h]; simpl. intros -> -> ->.
  eexists. split; [reflexivity|]. simpl.
  rewrite <- !app_assoc. simpl. done.
Qed.

(** C6, amended. The pager pauses before it prints a report exactly when
    the scroll is on and the count of lines shown since the last pause plus
    the number of items of the print list would reach the page size, a
    line being kept for the prompt: count plus items is at least the page
    size less one, which is the reading that the example of the page of 5
    lines fixes. The pause reads a reply with [MR_trace_getline]: a line
    that is pending in the queue is taken for the reply and no prompt is
    shown; with no line pending the prompt [--more--] is shown and the
    reply is read from [MR_mdb_in]. At the end of input and on a blank
    reply the count is reset and the report printed; [a], [n] and [s] as
    the first character that is not white space set the print level to
    ALL, NONE and SOME, the count is reset and the report printed; [q]
    hands over to the interactive entry point; any other reply is answered
    by [unknown command, try again] and the pause starts again. With a
    page of 5 lines and no line pending, four reports without a print list
    are printed without a pause, and the fifth shows the prompt first. *)
Theorem pager_pauses_one_line_before_the_page_is_full
    (MR_trace_var_print_list : list string -> Z) (cmd : MR_Trace_Cmd_Info)
    (print_list : list string) (event_info : MR_Event_Info) (st : session) :
  let len := Z.of_nat (length print_list) in
  let report := MR_trace_event_internal_report MR_trace_var_print_list in
  let print := print_report MR_trace_var_print_list in
  let read := MR_trace_getline "--more-- " st in
  let pauses :=
    MR_scroll_control st = true
    /\ (MR_scroll_next st + len >= MR_scroll_limit st - 1)%Z in
  (~ pauses ->
   report cmd print_list event_info st
   = Some (print cmd print_list event_info st))
  /\ (pauses ->
      (forall pending queue,
         MR_line_queue st = pending :: queue ->
         read = (Some pending, set_line_queue queue st))
      /\ (MR_line_queue st = [] ->
          exists more,
            effects read.2 = effects st ++ Prompt "--more-- " :: more)
      /\ (read.1 = None ->
          report cmd print_list event_info st
          = Some (print cmd print_list event_info
                    (set_scroll_next 0 read.2)))
      /\ (forall buf, read.1 = Some buf ->
          let c := first_nonspace buf in
          (c = NUL ->
           report cmd print_list event_info st
           = Some (print cmd print_list event_info
                     (set_scroll_next 0 read.2)))
          /\ (c = "a"%char ->
              report cmd print_list event_info st
              = Some (print (set_trace_print_level MR_PRINT_LEVEL_ALL cmd)
                        print_list event_info (set_scroll_next 0 read.2)))
          /\ (c = "n"%char ->
              report cmd print_list event_info st
              = Some (print (set_trace_print_level MR_PRINT_LEVEL_NONE cmd)
                        print_list event_info (set_scroll_next 0 read.2)))
          /\ (c = "s"%char ->
              report cmd print_list event_info st
              = Some (print (set_trace_print_level MR_PRINT_LEVEL_SOME cmd)
                        print_list event_info (set_scroll_next 0 read.2)))
          /\ (c = "q"%char ->
              report cmd print_list event_info st
              = Some (Interactive cmd read.2))
          /\ (c <> NUL -> c <> "a"%char -> c <> "n"%char ->
              c <> "s"%char -> c <> "q"%char ->
              report cmd print_list event_info st
              = report cmd print_list event_info
                  (write (Err ("unknown command, try again" +:+ newline))
                     read.2))))
  /\ (forall e1 e2 e3 e4,
        MR_scroll_control st = true -> MR_scroll_limit st = 5%Z ->
        MR_scroll_next st = 0%Z ->
        exists st4,
          report_events MR_trace_var_print_list cmd [e1; e2; e3; e4] st
            = Some (Reported cmd st4)
          /\ effects st4 =
               effects st ++
               [EventReport (MR_event_number e1);
                EventReport (MR_event_number e2);
                EventReport (MR_event_number e3);
                EventReport (MR_event_number e4)]
          /\ MR_scroll_control st4 = true
          /\ (MR_scroll_next st4 + 0 >= MR_scroll_limit st4 - 1)%Z)
  /\ (exists st5,
        report_events (fun _ => 0%Z) sample_cmd
          [sample_event 1 MR_PORT_CALL; sample_event 2 MR_PORT_CALL;
           sample_event 2 MR_PORT_EXIT; sample_event 1 MR_PORT_EXIT;
           sample_event 1 MR_PORT_CALL]
          (sample_page 5 0 [] [])
        = Some (Reported sample_cmd st5)
        /\ effects st5 =
             [EventReport 10; EventReport 10; EventReport 10; EventReport 10;
              Prompt "--more-- "; EventReport 10]).
Proof.
  intros len report print read pauses.
  split; [|split; [|split]].
  - intros Hno. subst report print. unfold MR_trace_event_internal_report.
    fold len. case_match eqn:Hc; [|done].
    exfalso. apply Hno. apply andb_true_iff in Hc as [Hc1 Hc2].
    split; [done|]. by apply bool_decide_eq_true_1 in Hc2.
  - intros [Hon Hfull].
    assert (Hcond : MR_scroll_control st
                    && bool_decide
                         (MR_scroll_next st + len >= MR_scroll_limit st - 1)%Z
                    = true).
    { rewrite Hon. simpl. by apply bool_decide_eq_true_2. }
    assert (Hrun : forall r,
              more_prompt_loop
                (S (length (MR_line_queue st) + length (mdb_in st))) cmd st
              = r ->
              report cmd print_list event_info st =
              match r with
              | None => None
              | Some (QuitReport cmd st) => Some (Interactive cmd st)
              | Some (GoOn cmd st) =>
                Some (print cmd print_list event_info (set_scroll_next 0 st))
              end).
    { intros r <-. subst report print.
      unfold MR_trace_event_internal_report. fold len. by rewrite Hcond. }
    split; [|split; [|split]].
    + intros pending queue Hq. subst read.
      unfold MR_trace_getline, MR_trace_getline_queue. by rewrite Hq.
    + intros Hq. subst read.
      unfold MR_trace_getline, MR_trace_getline_queue, MR_trace_readline.
      rewrite Hq. simpl. destruct (mdb_in st) as [|l i]; simpl.
      * by eexists.
      * destruct (MR_echo_commands st); simpl.
        -- eexists. rewrite <- !app_assoc. reflexivity.
        -- by eexists.
    + intros Hread. rewrite (Hrun _ eq_refl). simpl. subst read.
      destruct (MR_trace_getline "--more-- " st) as [[buf|] st1];
        simpl in *; [discriminate|done].
    + intros buf Hread c. subst read.
      destruct (MR_trace_getline "--more-- " st) as [rd st1] eqn:Hget.
      simpl in Hread. subst rd. simpl.
      assert (Hstep : more_prompt_loop
                        (S (length (MR_line_queue st) + length (mdb_in st)))
                        cmd st
                      = if negb (Ascii.eqb c NUL) && negb (MR_isspace c) then
                          if Ascii.eqb c "a"%char then
                            Some (GoOn (set_trace_print_level
                                          MR_PRINT_LEVEL_ALL cmd) st1)
                          else if Ascii.eqb c "n"%char then
                            Some (GoOn (set_trace_print_level
                                          MR_PRINT_LEVEL_NONE cmd) st1)
                          else if Ascii.eqb c "s"%char then
                            Some (GoOn (set_trace_print_level
                                          MR_PRINT_LEVEL_SOME cmd) st1)
                          else if Ascii.eqb c "q"%char then
                            Some (QuitReport cmd st1)
                          else
                            more_prompt_loop
                              (length (MR_line_queue st)
                               + length (mdb_in st)) cmd
                              (write (Err ("unknown command, try again"
                                           +:+ newline)) st1)
                        else Some (GoOn cmd st1)).
      { simpl. by rewrite Hget. }
      repeat split.
      * intros Hc. rewrite (Hrun _ Hstep), Hc. reflexivity.
      * intros Hc. rewrite (Hrun _ Hstep), Hc. reflexivity.
      * intros Hc. rewrite (Hrun _ Hstep), Hc. reflexivity.
      * intros Hc. rewrite (Hrun _ Hstep), Hc. reflexivity.
      * intros Hc. rewrite (Hrun _ Hstep), Hc. reflexivity.
      * intros H0 Ha Hn Hs Hq.
        destruct (first_nonspace_not_space buf) as [HN|Hsp]; [done|].
        fold c in Hsp.
        apply Ascii.eqb_neq in H0, Ha, Hn, Hs, Hq.
        rewrite (Hrun _ Hstep), H0, Hsp, Ha, Hn, Hs, Hq. simpl.
        pose proof (MR_trace_getline_settings _ _ _ _ Hget)
          as (_ & Hsc & Hsl & Hsn & _).
        pose proof (MR_trace_getline_Some _ _ _ _ Hget) as Hlines.
        subst report print. unfold MR_trace_event_internal_report at 1.
        fold len. simpl.
        rewrite Hsc, Hsl, Hsn, Hcond.
        destruct (more_prompt_loop_fuel
                    (length (MR_line_queue st) + length (mdb_in st))
                    (S (length (MR_line_queue st1) + length (mdb_in st1)))
                    cmd
                    (write (Err ("unknown command, try again" +:+ newline))
                       st1)) as [-> _];
          [unfold lines_left in *; simpl; lia..|].
        reflexivity.
  - intros e1 e2 e3 e4 Hon Hlim Hnext.
    destruct (four_reports_fill_a_page_of_five MR_trace_var_print_list cmd
                e1 e2 e3 e4 st Hon Hlim Hnext)
      as (st4 & Hrep & Heff & _ & _ & Hon4 & Hlim4 & Hnext4).
    exists st4. repeat split; try done. rewrite Hlim4, Hnext4. lia.
  - vm_compute. eexists. split; reflexivity.
Qed.

Lemma pager_pauses_one_line_before_the_page_is_full_witness :
  MR_trace_event_internal_report (fun _ => 0%Z) sample_cmd []
    (sample_event 1 MR_PORT_CALL) (sample_page 5 4 [] ["  all"])
  = Some (print_report (fun _ => 0%Z)
            (set_trace_print_level MR_PRINT_LEVEL_ALL sample_cmd) []
            (sample_event 1 MR_PORT_CALL)
            (set_scroll_next 0
               (MR_trace_getline "--more-- "
                  (sample_page 5 4 [] ["  all"])).2)).
Proof.
  pose proof (pager_pauses_one_line_before_the_page_is_full (fun _ => 0%Z)
                sample_cmd [] (sample_event 1 MR_PORT_CALL)
                (sample_page 5 4 [] ["  all"])) as (_ & Hpause & _).
  destruct Hpause as (_ & _ & _ & Hreply);
    [split; [reflexivity|discriminate]|].
  destruct (Hreply "  all" eq_refl) as (_ & Ha & _).
  apply Ha. reflexivity.
Defined.

(** ** Arrays of words *)

Lemma MR_ensure_big_enough_length {A} (slot : nat) (arr : list A)
    (init : nat) (junk : A) :
  slot < length (MR_ensure_big_enough slot arr init junk).
Proof.
  unfold MR_ensure_big_enough. case_decide as Hle; [|lia].
  rewrite length_app, length_replicate. case_decide; lia.
Qed.

Lemma MR_ensure_big_enough_app {A} (slot : nat) (arr : list A)
    (init : nat) (junk : A) :
  exists more, MR_ensure_big_enough slot arr init junk = arr ++ more.
Proof.
  unfold MR_ensure_big_enough. case_decide.
  - by eexists.
  - exists []. by rewrite app_nil_r.
Qed.

Lemma MR_ensure_big_enough_take {A} (n slot : nat) (arr : list A)
    (init : nat) (junk : A) :
  n <= length arr ->
  take n (MR_ensure_big_enough slot arr init junk) = take n arr.
Proof.
  intros Hn. destruct (MR_ensure_big_enough_app slot arr init junk)
    as [more ->].
  by rewrite take_app_le.
Qed.

Lemma word_at_take (words : list string) (n i : nat) :
  i < n -> word_at (take n words) i = word_at words i.
Proof. intros Hi. unfold word_at. by rewrite lookup_take_lt. Qed.

Lemma shift_words_up_spec (n : nat) (arr : list string) :
  n < length arr ->
  shift_words_up n arr = word_at arr 0 :: take n arr ++ drop (S n) arr.
Proof.
  revert arr. induction n as [|n IH]; intros arr Hn; simpl.
  - destruct arr as [|w arr]; [simpl in Hn; lia|]. simpl.
    by rewrite drop_0.
  - rewrite IH by (rewrite length_insert; lia).
    unfold word_at at 1. rewrite list_lookup_insert_ne by lia.
    fold (word_at arr 0). f_equal.
    rewrite take_insert_ge by lia.
    rewrite drop_insert_ge by lia.
    replace (S n - S n) with 0 by lia.
    destruct (lookup_lt_is_Some_2 arr n) as [w Hw]; [lia|].
    rewrite (take_S_r _ _ _ Hw). unfold word_at. rewrite Hw. simpl.
    rewrite <- app_assoc. f_equal.
    destruct (lookup_lt_is_Some_2 arr (S n) Hn) as [w' Hw'].
    rewrite (drop_S _ _ _ Hw'). reflexivity.
Qed.

(** ** Numbers *)

Lemma append_String (c : ascii) (s t : string) :
  String c s +:+ t = String c (s +:+ t).
Proof. reflexivity. Qed.

Lemma append_empty_r (s : string) : s +:+ "" = s.
Proof.
  induction s as [|c s IH]; [done|]. by rewrite append_String, IH.
Qed.

Lemma append_assoc_string (s1 s2 s3 : string) :
  (s1 +:+ s2) +:+ s3 = s1 +:+ (s2 +:+ s3).
Proof.
  induction s1 as [|c s1 IH]; [done|]. by rewrite !append_String, IH.
Qed.

Lemma number_prefix_digits (d t : string) (i : nat) (count_buf : string) :
  all_digits d = true -> MR_isdigit (first_char t) = false ->
  i + String.length d <= MR_NUMBER_LEN ->
  number_prefix (d +:+ t) i count_buf = Scanned (count_buf +:+ d, t).
Proof.
  revert i count_buf.
  induction d as [|c d IH]; intros i count_buf Hd Ht Hlen.
  - change ("" +:+ t) with t. rewrite append_empty_r.
    destruct t as [|c t]; [done|]. simpl in *. by rewrite Ht.
  - rewrite append_String. simpl.
    simpl in Hd. apply andb_true_iff in Hd as [Hc Hd]. rewrite Hc.
    simpl in Hlen. case_decide; [lia|].
    rewrite IH by (done || lia).
    by rewrite append_assoc_string.
Qed.

Lemma number_prefix_too_large (d t : string) (i : nat) (count_buf : string) :
  all_digits d = true -> i <= MR_NUMBER_LEN ->
  MR_NUMBER_LEN < i + String.length d ->
  number_prefix (d +:+ t) i count_buf = Problem "too large a number".
Proof.
  revert i count_buf.
  induction d as [|c d IH]; intros i count_buf Hd Hi Hlen; simpl in *;
    [lia|].
  apply andb_true_iff in Hd as [Hc Hd]. rewrite Hc.
  case_decide; [done|]. apply IH; (done || lia).
Qed.

Lemma digits_value_all_digits (s : string) (acc : Z) :
  all_digits s = true -> is_Some (digits_value acc s).
Proof.
  revert acc. induction s as [|c s IH]; intros acc Hs; simpl in *;
    [by eexists|].
  apply andb_true_iff in Hs as [Hc Hs]. rewrite Hc. by apply IH.
Qed.

Lemma is_natural_number_digits (s : string) :
  s <> "" -> all_digits s = true -> is_Some (MR_trace_is_natural_number s).
Proof.
  intros Hne Hs. destruct s as [|c s]; [done|].
  unfold MR_trace_is_natural_number. apply fmap_is_Some.
  by apply digits_value_all_digits.
Qed.

Lemma is_natural_number_first_char (s : string) :
  MR_isdigit (first_char s) = false -> MR_trace_is_natural_number s = None.
Proof. destruct s as [|c s]; [done|]. simpl. by intros ->. Qed.

Lemma all_digits_first_char (s : string) :
  s <> "" -> all_digits s = true -> MR_isdigit (first_char s) = true.
Proof.
  destruct s as [|c s]; [done|]. simpl. intros _ H.
  by apply andb_true_iff in H as [? _].
Qed.

Lemma first_char_append (d t : string) :
  d <> "" -> first_char (d +:+ t) = first_char d.
Proof. by destruct d. Qed.

(** ** Splitting a number prefix and swapping it with the command word *)

Lemma split_number_prefix_words (raw : list string) (n : nat)
    (d t : string) (others : list string) :
  n <= length raw -> take n raw = (d +:+ t) :: others ->
  d <> "" -> all_digits d = true -> String.length d <= MR_NUMBER_LEN ->
  first_char t <> NUL -> MR_isdigit (first_char t) = false ->
  exists raw',
    split_number_prefix raw n = Scanned (raw', S n)
    /\ S n <= length raw' /\ take (S n) raw' = d :: t :: others.
Proof.
  intros Hn Htake Hd Hdigits Hlen HtNUL Ht.
  assert (Hn0 : 0 < n) by (destruct n; [by rewrite take_0 in Htake|lia]).
  assert (Hw0 : word_at raw 0 = d +:+ t).
  { rewrite <- (word_at_take raw n 0 Hn0), Htake. done. }
  unfold split_number_prefix. rewrite Hw0.
  rewrite bool_decide_eq_true_2 by done.
  rewrite first_char_append, all_digits_first_char by done. simpl.
  rewrite number_prefix_digits by (done || simpl; lia). simpl.
  apply Ascii.eqb_neq in HtNUL. rewrite HtNUL. simpl.
  eexists. split; [reflexivity|].
  pose proof (MR_ensure_big_enough_length n raw MR_INIT_WORD_COUNT "")
    as Hbig.
  pose proof (MR_ensure_big_enough_take n n raw MR_INIT_WORD_COUNT "" Hn)
    as Htk.
  set (arr := MR_ensure_big_enough n raw MR_INIT_WORD_COUNT "") in *.
  rewrite shift_words_up_spec by done. rewrite Htk, Htake. simpl.
  apply (f_equal length) in Htake as Hl.
  rewrite length_take in Hl. simpl in Hl.
  split; [rewrite length_app; lia|].
  change ("" +:+ d) with d. f_equal.
  destruct n as [|n']; [lia|]. simpl. f_equal.
  rewrite take_app_le by lia. apply take_ge. lia.
Qed.

Lemma swap_number_first_words (raw : list string) (n : nat)
    (w0 w1 : string) (others : list string) :
  n <= length raw -> take n raw = w0 :: w1 :: others ->
  is_Some (MR_trace_is_natural_number w0) ->
  MR_trace_is_natural_number w1 = None ->
  words_of (swap_number_first raw n) = w1 :: w0 :: others.
Proof.
  intros Hn Htake Hw0 Hw1.
  apply (f_equal length) in Htake as Hl.
  rewrite length_take in Hl. simpl in Hl.
  assert (H0 : word_at raw 0 = w0).
  { rewrite <- (word_at_take raw n 0), Htake by lia. done. }
  assert (H1 : word_at raw 1 = w1).
  { rewrite <- (word_at_take raw n 1), Htake by lia. done. }
  unfold swap_number_first. rewrite H0, H1, Hw1.
  rewrite bool_decide_eq_true_2 by lia.
  rewrite bool_decide_eq_true_2 by done.
  rewrite bool_decide_eq_false_2 by (intros [? ?]; done). simpl.
  unfold words_of. simpl.
  rewrite !take_insert_lt by lia. rewrite Htake. done.
Qed.

Lemma swap_number_first_unchanged (raw : list string) (n : nat) :
  (n <= 1 \/ MR_trace_is_natural_number (word_at raw 0) = None
   \/ is_Some (MR_trace_is_natural_number (word_at raw 1))) ->
  swap_number_first raw n = (raw, n).
Proof.
  intros H. unfold swap_number_first.
  destruct H as [H|[H|H]].
  - by rewrite bool_decide_eq_false_2 by lia.
  - rewrite H. rewrite (bool_decide_eq_false_2 (is_Some None))
      by (intros [? ?]; done).
    by rewrite andb_false_r.
  - rewrite (bool_decide_eq_true_2 _ H). simpl. by rewrite andb_false_r.
Qed.

(** ** Facts about the words the tokenizer returns *)

Lemma break_into_words_loop_S (fuel : nat) (line : list ascii)
    (words : list nat) (token_number char_pos : nat) :
  break_into_words_loop (S fuel) line words token_number char_pos =
  match skip_spaces (S (length line)) line char_pos with
  | OutOfFuel => OutOfFuel
  | Problem msg => Problem msg
  | Scanned char_pos =>
    if Ascii.eqb (char_at line char_pos) NUL then
      Scanned (line, words, token_number)
    else
      match MR_trace_break_off_one_word line char_pos with
      | OutOfFuel => OutOfFuel
      | Problem msg => Problem msg
      | Scanned (line', new_char_pos) =>
        break_into_words_loop fuel line'
          (<[token_number := char_pos]>
             (MR_ensure_big_enough token_number words MR_INIT_WORD_COUNT 0))
          (S token_number) new_char_pos
      end
  end.
Proof. reflexivity. Qed.

Lemma break_into_words_loop_count (fuel : nat) (buf : list ascii)
    (words : list nat) (token_number char_pos : nat) (buf' : list ascii)
    (words' : list nat) (n : nat) :
  token_number <= length words ->
  break_into_words_loop fuel buf words token_number char_pos
    = Scanned (buf', words', n) ->
  n <= length words'.
Proof.
  revert buf words token_number char_pos.
  induction fuel as [|fuel IH]; intros buf words tn pos Htn;
    [discriminate|].
  rewrite break_into_words_loop_S.
  destruct (skip_spaces (S (length buf)) buf pos) as [pos'| |];
    try discriminate.
  case_match.
  - by intros [= <- <- <-].
  - destruct (MR_trace_break_off_one_word buf pos') as [[buf1 pos1]| |];
      try discriminate.
    apply IH. rewrite length_insert.
    pose proof (MR_ensure_big_enough_length tn words MR_INIT_WORD_COUNT 0).
    lia.
Qed.

Lemma until_NUL_no_NUL (l : list ascii) (c : ascii) :
  In c (until_NUL l) -> c <> NUL.
Proof.
  induction l as [|c' l IH]; simpl; [done|].
  destruct (Ascii.eqb_spec c' NUL) as [->|Hne]; simpl; [done|].
  intros [<-|Hin]; [done|by apply IH].
Qed.

Lemma cstring_at_no_NUL (buf : list ascii) (start : nat) (c : ascii) :
  In c (list_ascii_of_string (cstring_at buf start)) -> c <> NUL.
Proof.
  unfold cstring_at. rewrite list_ascii_of_string_of_list_ascii.
  apply until_NUL_no_NUL.
Qed.

(** The array that [MR_trace_break_into_words] returns has room for the
    words it counts, and no word holds a NUL. *)
Lemma MR_trace_break_into_words_words (line : string) (raw : list string)
    (n : nat) :
  MR_trace_break_into_words line = Scanned (raw, n) ->
  n <= length raw
  /\ forall w c, w ∈ take n raw -> In c (list_ascii_of_string w) -> c <> NUL.
Proof.
  unfold MR_trace_break_into_words.
  destruct (break_into_words_loop _ _ [] 0 0) as [[[buf' words] k]| |] eqn:Hl;
    try discriminate.
  intros [= <- <-]. split.
  - rewrite length_fmap.
    eapply break_into_words_loop_count; [|exact Hl]. simpl. lia.
  - intros w c Hw. apply elem_of_take in Hw as (i & Hw & _).
    rewrite list_lookup_fmap in Hw.
    destruct (words !! i) as [p|]; [|discriminate].
    injection Hw as <-. apply cstring_at_no_NUL.
Qed.

Lemma first_char_of_suffix (d t : string) :
  (forall c, In c (list_ascii_of_string (d +:+ t)) -> c <> NUL) ->
  t <> "" -> first_char t <> NUL.
Proof.
  intros Hno Ht. destruct t as [|c t]; [done|]. simpl.
  apply Hno. clear Hno Ht. induction d as [|c' d IH]; simpl; auto.
Qed.

(** ** Number prefixes *)

(** C7, as stated, fails: the first token of this line has a numeric
    prefix (81 digits) before a letter, and the parser does not split
    the prefix off: it gives no words at all but the error of the guard on
    the length of a number. *)
Lemma number_prefix_of_81_digits_is_refused :
  words_result (MR_trace_break_into_words long_number_line)
    = Scanned [digits_81 +:+ "x"]
  /\ all_digits digits_81 = true
  /\ MR_trace_parse_line long_number_line = Problem "too large a number".
Proof. repeat split; vm_compute; reflexivity. Qed.

(** C7, amended. After word splitting: if the first token is a number of
    at most 80 digits followed by something that is not a digit, the
    number is split off as a word of its own, and since that number is
    then followed by a word that is not a number the two change places; a
    first token with more than 80 leading digits is refused with the error
    [too large a number]; if the first word is a number of at most 80
    digits and the second word is not a number, the two change places; a
    line whose first word does not start with a digit keeps its words as
    they are. In particular the lines [3 step], [step 3] and [3step] all
    give the words [step] and [3]. *)
Theorem parse_line_number_prefix_normalization (line : string)
    (raw : list string) (n : nat) :
  MR_trace_break_into_words line = Scanned (raw, n) ->
  (forall d t others,
     take n raw = (d +:+ t) :: others ->
     d <> "" -> all_digits d = true -> String.length d <= MR_NUMBER_LEN ->
     t <> "" -> MR_isdigit (first_char t) = false ->
     words_result (MR_trace_parse_line line) = Scanned (t :: d :: others))
  /\ (forall d t others,
        take n raw = (d +:+ t) :: others ->
        all_digits d = true -> MR_NUMBER_LEN < String.length d ->
        MR_trace_parse_line line = Problem "too large a number")
  /\ (forall number word others,
        take n raw = number :: word :: others ->
        number <> "" -> all_digits number = true ->
        String.length number <= MR_NUMBER_LEN ->
        MR_trace_is_natural_number word = None ->
        words_result (MR_trace_parse_line line)
        = Scanned (word :: number :: others))
  /\ (forall word others,
        take n raw = word :: others ->
        MR_isdigit (first_char word) = false ->
        words_result (MR_trace_parse_line line) = Scanned (word :: others))
  /\ words_result (MR_trace_parse_line "3 step") = Scanned ["step"; "3"]
  /\ words_result (MR_trace_parse_line "step 3") = Scanned ["step"; "3"]
  /\ words_result (MR_trace_parse_line "3step") = Scanned ["step"; "3"].
Proof.
  intros Hraw.
  destruct (MR_trace_break_into_words_words line raw n Hraw) as [Hn HNUL].
  unfold MR_trace_parse_line. rewrite Hraw.
  split; [|split; [|split; [|split]]].
  - intros d t others Htake Hd Hdigits Hlen Ht Htd.
    assert (HtNUL : first_char t <> NUL).
    { apply (first_char_of_suffix d); [|done].
      intros c. apply HNUL. rewrite Htake. left. }
    destruct (split_number_prefix_words raw n d t others)
      as (raw' & -> & Hn' & Htake'); try done.
    simpl. f_equal.
    apply swap_number_first_words; try done.
    + by apply is_natural_number_digits.
    + by apply is_natural_number_first_char.
  - intros d t others Htake Hdigits Hlen.
    assert (Hd : d <> "") by (intros ->; simpl in Hlen; lia).
    assert (Hn0 : 0 < n) by (destruct n; [by rewrite take_0 in Htake|lia]).
    assert (Hw0 : word_at raw 0 = d +:+ t).
    { rewrite <- (word_at_take raw n 0 Hn0), Htake. done. }
    unfold split_number_prefix. rewrite Hw0.
    rewrite bool_decide_eq_true_2 by done.
    rewrite first_char_append, all_digits_first_char by done. simpl.
    by rewrite number_prefix_too_large by (done || simpl; lia).
  - intros number word others Htake Hne Hdigits Hlen Hword.
    assert (Hn0 : 0 < n) by (destruct n; [by rewrite take_0 in Htake|lia]).
    assert (Hw0 : word_at raw 0 = number).
    { rewrite <- (word_at_take raw n 0 Hn0), Htake. done. }
    unfold split_number_prefix. rewrite Hw0.
    rewrite bool_decide_eq_true_2 by done.
    rewrite all_digits_first_char by done. simpl.
    rewrite <- (append_empty_r number) at 1.
    rewrite number_prefix_digits by (done || simpl; lia). simpl.
    f_equal. apply swap_number_first_words; try done.
    by apply is_natural_number_digits.
  - intros word others Htake Hword.
    assert (Hn0 : 0 < n) by (destruct n; [by rewrite take_0 in Htake|lia]).
    assert (Hw0 : word_at raw 0 = word).
    { rewrite <- (word_at_take raw n 0 Hn0), Htake. done. }
    unfold split_number_prefix. rewrite Hw0, Hword.
    rewrite andb_false_r. simpl.
    rewrite swap_number_first_unchanged.
    + unfold words_of. simpl. by rewrite Htake.
    + right. left. rewrite Hw0. by apply is_natural_number_first_char.
  - repeat split; vm_compute; reflexivity.
Qed.

Lemma parse_line_number_prefix_normalization_witness :
  words_result (MR_trace_parse_line "12x34 y") = Scanned ["x34"; "12"; "y"].
Proof.
  edestruct (parse_line_number_prefix_normalization "12x34 y")
    as (Hsplit & _); [reflexivity|].
  apply (Hsplit "12" "x34" ["y"]);
    [reflexivity|discriminate|reflexivity|vm_compute; lia|discriminate
    |reflexivity].
Defined.

(** ** Alias expansion *)

Lemma move_words_up_spec (n alias_copy_start alias_word_count : nat)
    (arr : list string) :
  alias_copy_start <= alias_word_count -> alias_copy_start <= n ->
  n + alias_word_count - alias_copy_start <= length arr ->
  move_words_up n alias_copy_start alias_word_count arr =
    take alias_word_count arr ++ drop alias_copy_start (take n arr) ++
    drop (n + alias_word_count - alias_copy_start) arr.
Proof.
  intros Hshift. revert arr.
  induction n as [|i IH]; intros arr Hstart Hlen.
  - simpl. assert (alias_copy_start = 0) as -> by lia.
    rewrite Nat.sub_0_r. simpl. by rewrite take_drop.
  - simpl. case_decide as Hi.
    + rewrite IH by (rewrite ?length_insert; lia).
      set (t := i + alias_word_count - alias_copy_start).
      assert (Hti : i < length arr) by lia.
      destruct (lookup_lt_is_Some_2 arr i Hti) as [w Hw].
      rewrite (take_insert_ge arr alias_word_count t) by lia.
      rewrite (take_insert_ge arr i t) by lia.
      rewrite drop_insert_ge by lia.
      replace (t - t) with 0 by lia.
      assert (Ht : t < length arr) by lia.
      destruct (lookup_lt_is_Some_2 arr t Ht) as [w' Hw'].
      rewrite (drop_S _ _ _ Hw'). simpl.
      rewrite (take_S_r _ _ _ Hw).
      rewrite drop_app_le by (rewrite length_take; lia).
      rewrite <- app_assoc. simpl.
      unfold word_at. rewrite Hw. simpl.
      replace (S (i + alias_word_count) - alias_copy_start) with (S t)
        by lia.
      reflexivity.
    + assert (alias_copy_start = S i) as -> by lia.
      rewrite drop_ge by (rewrite length_take; lia). simpl.
      replace (i + alias_word_count - i) with alias_word_count by lia.
      by rewrite take_drop.
Qed.

Lemma copy_alias_body_spec (alias_words : list string) (i : nat)
    (arr : list string) :
  i + length alias_words <= length arr ->
  copy_alias_body alias_words i arr =
    take i arr ++ alias_words ++ drop (i + length alias_words) arr.
Proof.
  revert i arr. induction alias_words as [|w body IH]; intros i arr Hlen;
    simpl in *.
  - rewrite Nat.add_0_r. by rewrite take_drop.
  - rewrite IH by (rewrite length_insert; lia).
    rewrite take_insert_lt by lia.
    rewrite drop_insert_lt by lia.
    assert (Hi : i < length arr) by lia.
    destruct (lookup_lt_is_Some_2 arr i Hi) as [w' Hw'].
    rewrite (take_S_r _ _ _ Hw').
    rewrite insert_app_r_alt by (rewrite length_take; lia).
    rewrite length_take. replace (i - i `min` length arr) with 0 by lia.
    simpl. rewrite <- app_assoc. simpl.
    by rewrite Nat.add_succ_r.
Qed.

(** What the two loops of the expansion leave in the array: the
    replacement words, then the words from [alias_copy_start] on. *)
Lemma expand_aliases_found (aliases : alias_table) (words : list string)
    (n : nat) (alias_key : string) (alias_copy_start : nat)
    (alias_words : list string) :
  n <= length words ->
  alias_key_of words n = (alias_key, alias_copy_start) ->
  aliases !! alias_key = Some alias_words ->
  alias_copy_start <= length alias_words -> alias_copy_start <= n ->
  exists words',
    MR_trace_expand_aliases aliases words n
      = (words', n + length alias_words - alias_copy_start)
    /\ n + length alias_words - alias_copy_start <= length words'
    /\ take (n + length alias_words - alias_copy_start) words'
       = alias_words ++ drop alias_copy_start (take n words).
Proof.
  intros Hn Hkey Hfound Hbody Hstart.
  unfold MR_trace_expand_aliases, MR_trace_lookup_alias.
  rewrite Hkey, Hfound.
  pose proof (MR_ensure_big_enough_length (n + length alias_words) words
                MR_INIT_WORD_COUNT "") as Hbig.
  pose proof (MR_ensure_big_enough_take n (n + length alias_words) words
                MR_INIT_WORD_COUNT "" Hn) as Htk.
  set (arr := MR_ensure_big_enough (n + length alias_words) words
                MR_INIT_WORD_COUNT "") in *.
  eexists. split; [reflexivity|].
  rewrite move_words_up_spec by lia.
  rewrite copy_alias_body_spec
    by (rewrite !length_app, length_take, !length_drop, length_take; lia).
  simpl.
  rewrite drop_app_length'
    by (rewrite length_take; lia).
  rewrite Htk. split.
  - rewrite !length_app, !length_drop, length_take. lia.
  - rewrite app_assoc. rewrite take_app_length'; [done|].
    rewrite length_app, length_drop, length_take. lia.
Qed.

(** C9, as stated, fails in its last sentence: expansion is done once. In
    a table where [step] is itself an alias, of [next], registering the
    alias [s] for [step] makes the line [s] go to the handler of [step]
    and the line [step] go to the handler of [next]. *)
Lemma alias_of_an_alias_is_not_expanded :
  MR_trace_debug_cmd (MR_trace_add_alias "s" ["step"] aliases_step_is_next)
    "s"
  = Dispatch ["step"]
      (CallHandler (command "forward" "step" Handler.MR_trace_cmd_step)
         Handler.MR_trace_cmd_step)
  /\ MR_trace_debug_cmd
       (MR_trace_add_alias "s" ["step"] aliases_step_is_next) "step"
  = Dispatch ["next"]
      (CallHandler (command "forward" "next" Handler.MR_trace_cmd_next)
         Handler.MR_trace_cmd_next).
Proof. split; vm_compute; reflexivity. Qed.

Lemma expand_aliases_not_found (aliases : alias_table) (words : list string)
    (n : nat) :
  aliases !! (alias_key_of words n).1 = None ->
  MR_trace_expand_aliases aliases words n = (words, n).
Proof.
  unfold MR_trace_expand_aliases, MR_trace_lookup_alias.
  destruct (alias_key_of words n) as [key start]. simpl. by intros ->.
Qed.

Lemma alias_key_of_empty (words : list string) :
  alias_key_of words 0 = ("EMPTY", 0).
Proof. reflexivity. Qed.

Lemma alias_key_of_words (words : list string) (n : nat) (w : string)
    (rest : list string) :
  take n words = w :: rest ->
  alias_key_of words n =
    if bool_decide (is_Some (MR_trace_is_natural_number w))
    then ("NUMBER", 0) else (w, 1).
Proof.
  intros Htake.
  assert (Hn0 : 0 < n) by (destruct n; [by rewrite take_0 in Htake|lia]).
  unfold alias_key_of. case_decide; [lia|].
  by rewrite <- (word_at_take words n 0 Hn0), Htake.
Qed.

(** C9, amended. The key looked up is [EMPTY] for no words, [NUMBER] when
    the first word is a natural number, the first word itself otherwise.
    Without an alias for the key the words stay as they are. With one, the
    words become the replacement words followed by all the words (keys
    [EMPTY] and [NUMBER]) or by the words after the first (a named alias,
    whose replacement has at least one word, as the alias command
    ensures), in their order. Expansion is done once: after the alias [s]
    for [step] has been registered in a table where [step] is not itself
    an alias, the line [s] is dispatched as the line [step] is, to the
    handler of the command [step]. *)
Theorem alias_expansion_splices_once (aliases : alias_table)
    (words : list string) (n : nat) :
  n <= length words ->
  let expanded := words_of (MR_trace_expand_aliases aliases words n) in
  (take n words = [] ->
   expanded = default [] (aliases !! "EMPTY"))
  /\ (forall w rest,
        take n words = w :: rest ->
        is_Some (MR_trace_is_natural_number w) ->
        expanded = default [] (aliases !! "NUMBER") ++ w :: rest)
  /\ (forall w rest,
        take n words = w :: rest ->
        MR_trace_is_natural_number w = None ->
        match aliases !! w with
        | Some alias_words => alias_words <> [] -> expanded = alias_words ++ rest
        | None => expanded = w :: rest
        end)
  /\ (aliases !! "step" = None ->
      MR_trace_debug_cmd (MR_trace_add_alias "s" ["step"] aliases) "s"
      = MR_trace_debug_cmd (MR_trace_add_alias "s" ["step"] aliases) "step"
      /\ MR_trace_debug_cmd (MR_trace_add_alias "s" ["step"] aliases) "s"
         = Dispatch ["step"]
             (CallHandler
                (command "forward" "step" Handler.MR_trace_cmd_step)
                Handler.MR_trace_cmd_step)).
Proof.
  intros Hn expanded. subst expanded.
  split; [|split; [|split]].
  - intros Htake.
    assert (n = 0) as ->.
    { apply (f_equal length) in Htake. rewrite length_take in Htake.
      simpl in Htake. lia. }
    destruct (aliases !! "EMPTY") as [body|] eqn:Hbody; simpl.
    + destruct (expand_aliases_found aliases words 0 "EMPTY" 0 body)
        as (words' & -> & _ & Hw); try done; try lia.
      unfold words_of. simpl in *. rewrite Hw. by rewrite app_nil_r.
    + rewrite expand_aliases_not_found by done. done.
  - intros w rest Htake Hnum.
    assert (Hkey : alias_key_of words n = ("NUMBER", 0)).
    { rewrite (alias_key_of_words words n w rest Htake).
      by rewrite bool_decide_eq_true_2. }
    destruct (aliases !! "NUMBER") as [body|] eqn:Hbody; simpl.
    + destruct (expand_aliases_found aliases words n "NUMBER" 0 body)
        as (words' & -> & _ & Hw); try done; try lia.
      unfold words_of. simpl. rewrite Hw, Htake. done.
    + rewrite expand_aliases_not_found by (by rewrite Hkey).
      unfold words_of. simpl. by rewrite Htake.
  - intros w rest Htake Hnum.
    assert (Hkey : alias_key_of words n = (w, 1)).
    { rewrite (alias_key_of_words words n w rest Htake), Hnum.
      rewrite bool_decide_eq_false_2; [done|]. by intros [? ?]. }
    assert (Hn1 : 1 <= n).
    { destruct n; [by rewrite take_0 in Htake|lia]. }
    destruct (aliases !! w) as [body|] eqn:Hbody.
    + intros Hne.
      destruct (expand_aliases_found aliases words n w 1 body)
        as (words' & -> & _ & Hw); try done.
      { destruct body; [done|simpl; lia]. }
      unfold words_of. simpl. rewrite Hw, Htake. done.
    + rewrite expand_aliases_not_found by (by rewrite Hkey).
      unfold words_of. simpl. by rewrite Htake.
  - intros Hstep.
    assert (Hs : MR_trace_debug_cmd (MR_trace_add_alias "s" ["step"] aliases)
                   "s"
                 = Dispatch ["step"]
                     (CallHandler
                        (command "forward" "step" Handler.MR_trace_cmd_step)
                        Handler.MR_trace_cmd_step)).
    { unfold MR_trace_debug_cmd.
      destruct (MR_trace_parse_line "s") as [[arr k]| |] eqn:Hp;
        try (vm_compute in Hp; discriminate).
      assert (Hk : k = 1) by (vm_compute in Hp; congruence).
      assert (Harr : take 1 arr = ["s"]).
      { vm_compute in Hp. injection Hp as <- _. reflexivity. }
      assert (Hlen : 1 <= length arr).
      { vm_compute in Hp. injection Hp as <- _. simpl. lia. }
      subst k.
      destruct (expand_aliases_found (MR_trace_add_alias "s" ["step"] aliases)
                  arr 1 "s" 1 ["step"])
        as (words' & -> & _ & Hw); try done.
      { by rewrite (alias_key_of_words arr 1 "s" [] Harr). }
      { unfold MR_trace_add_alias. apply lookup_insert_eq. }
      simpl in *. rewrite Hw, Harr. reflexivity. }
    split; [|exact Hs]. rewrite Hs.
    unfold MR_trace_debug_cmd.
    destruct (MR_trace_parse_line "step") as [[arr k]| |] eqn:Hp;
      try (vm_compute in Hp; discriminate).
    assert (Hk : k = 1) by (vm_compute in Hp; congruence).
    assert (Harr : take 1 arr = ["step"]).
    { vm_compute in Hp. injection Hp as <- _. reflexivity. }
    subst k.
    rewrite expand_aliases_not_found.
    + simpl. rewrite Harr. reflexivity.
    + rewrite (alias_key_of_words arr 1 "step" [] Harr). simpl.
      unfold MR_trace_add_alias. by rewrite lookup_insert_ne.
Qed.

Lemma alias_expansion_splices_once_witness :
  words_of (MR_trace_expand_aliases (MR_trace_add_alias "s" ["step"] ∅)
              ["s"; "-a"; "3"] 3)
  = ["step"; "-a"; "3"].
Proof.
  pose proof (alias_expansion_splices_once
                (MR_trace_add_alias "s" ["step"] ∅) ["s"; "-a"; "3"] 3)
    as H.
  destruct H as (_ & _ & Hnamed & _); [simpl; lia|].
  specialize (Hnamed "s" ["-a"; "3"] eq_refl eq_refl).
  unfold MR_trace_add_alias in Hnamed. rewrite lookup_insert_eq in Hnamed.
  apply Hnamed. discriminate.
Defined.

(** ** The tokenizer and the quoting rules *)

Lemma MR_isspace_plain (c : ascii) :
  MR_isspace c = true ->
  Ascii.eqb c NUL = false /\ Ascii.eqb c ESCAPE_CHAR = false
  /\ Ascii.eqb c SINGLE_QUOTE_CHAR = false
  /\ Ascii.eqb c DOUBLE_QUOTE_CHAR = false.
Proof.
  intros H. repeat split;
    destruct c as [[] [] [] [] [] [] [] []]; try reflexivity;
    vm_compute in H; discriminate.
Qed.

Section Unread.

Variable after : list ascii.

Lemma unread_end (buf : list ascii) (pos : nat) :
  unread after buf pos [] -> char_at buf pos = NUL.
Proof.
  intros [Hd _]. unfold char_at.
  rewrite <- (Nat.add_0_r pos), <- lookup_drop, Hd. reflexivity.
Qed.

Lemma unread_cons (buf : list ascii) (pos : nat) (c : ascii)
    (rest : list ascii) :
  unread after buf pos (c :: rest) ->
  char_at buf pos = c /\ Ascii.eqb c NUL = false
  /\ unread after buf (S pos) rest.
Proof.
  intros [Hd Hno]. apply not_elem_of_cons in Hno as [Hc Hno].
  split; [|split].
  - unfold char_at.
    rewrite <- (Nat.add_0_r pos), <- lookup_drop, Hd. reflexivity.
  - apply Ascii.eqb_neq. congruence.
  - split; [|done].
    rewrite <- (Nat.add_1_r pos), <- (drop_drop buf 1 pos), Hd. reflexivity.
Qed.

Lemma unread_insert (buf : list ascii) (pos : nat) (rest : list ascii)
    (j : nat) (x : ascii) :
  j < pos -> unread after buf pos rest -> unread after (<[j := x]> buf) pos rest.
Proof. intros Hj [Hd Hno]. split; [|done]. by rewrite drop_insert_lt. Qed.

Lemma unread_length (buf : list ascii) (pos : nat) (rest : list ascii) :
  unread after buf pos rest -> pos + length rest < length buf.
Proof.
  intros [Hd _]. apply (f_equal length) in Hd.
  rewrite length_drop, length_app in Hd. simpl in Hd. lia.
Qed.

Lemma unread_copy_back (buf : list ascii) (pos lag : nat) (newpos : nat)
    (rest : list ascii) :
  lag <= pos -> pos < newpos ->
  unread after buf newpos rest ->
  unread after (copy_back buf pos lag) newpos rest.
Proof.
  intros Hlag Hpos Hun. unfold copy_back. case_decide; [done|].
  apply unread_insert; [lia|done].
Qed.

Lemma copy_back_length (buf : list ascii) (pos lag : nat) :
  length (copy_back buf pos lag) = length buf.
Proof. unfold copy_back. case_decide; [done|]. by rewrite length_insert. Qed.

End Unread.

Lemma lex_end_single (sq dq : bool) (c : ascii) (rest : list ascii) :
  negb dq && Ascii.eqb c SINGLE_QUOTE_CHAR = true ->
  lex_end sq dq (c :: rest) = lex_end (negb sq) dq rest.
Proof.
  intros H. apply andb_true_iff in H as [Hdq Hc].
  apply Ascii.eqb_eq in Hc as ->. simpl. by rewrite Hdq.
Qed.

Lemma lex_end_double (sq dq : bool) (c : ascii) (rest : list ascii) :
  negb sq && Ascii.eqb c DOUBLE_QUOTE_CHAR = true ->
  lex_end sq dq (c :: rest) = lex_end sq (negb dq) rest.
Proof.
  intros H. apply andb_true_iff in H as [Hsq Hc].
  apply Ascii.eqb_eq in Hc as ->. simpl. by rewrite Hsq.
Qed.

Lemma lex_end_escape (sq dq : bool) (c c' : ascii) (rest : list ascii) :
  Ascii.eqb c ESCAPE_CHAR = true ->
  lex_end sq dq (c :: c' :: rest) = lex_end sq dq rest
  /\ lex_end sq dq [c] = LoneBackslash.
Proof. intros H. simpl. by rewrite H. Qed.

Lemma lex_end_plain (sq dq : bool) (c : ascii) (rest : list ascii) :
  Ascii.eqb c ESCAPE_CHAR = false ->
  negb dq && Ascii.eqb c SINGLE_QUOTE_CHAR = false ->
  negb sq && Ascii.eqb c DOUBLE_QUOTE_CHAR = false ->
  lex_end sq dq (c :: rest) = lex_end sq dq rest.
Proof.
  intros He Hs Hd. simpl. rewrite He.
  rewrite (andb_comm (Ascii.eqb c SINGLE_QUOTE_CHAR)), Hs.
  by rewrite (andb_comm (Ascii.eqb c DOUBLE_QUOTE_CHAR)), Hd.
Qed.

Lemma lex_end_space (c : ascii) (rest : list ascii) :
  MR_isspace c = true ->
  lex_end false false (c :: rest) = lex_end false false rest.
Proof.
  intros H. apply MR_isspace_plain in H as (_ & He & Hs & Hd).
  apply lex_end_plain; simpl; done.
Qed.

Lemma break_off_loop_S (fuel : nat) (line : list ascii) (char_pos lag : nat)
    (single_quoted double_quoted : bool) :
  break_off_loop (S fuel) line char_pos lag single_quoted double_quoted =
    let c := char_at line char_pos in
    if Ascii.eqb c NUL then
      Scanned {| ws_line := line; ws_char_pos := char_pos; ws_lag := lag;
                 ws_single_quoted := single_quoted;
                 ws_double_quoted := double_quoted; ws_another := false |}
    else if negb single_quoted && negb double_quoted && MR_isspace c then
      Scanned {| ws_line := line; ws_char_pos := char_pos; ws_lag := lag;
                 ws_single_quoted := single_quoted;
                 ws_double_quoted := double_quoted; ws_another := true |}
    else if negb double_quoted && Ascii.eqb c SINGLE_QUOTE_CHAR then
      break_off_loop fuel line (S char_pos) (S lag)
        (negb single_quoted) double_quoted
    else if negb single_quoted && Ascii.eqb c DOUBLE_QUOTE_CHAR then
      break_off_loop fuel (copy_back line char_pos lag) (S char_pos) lag
        single_quoted (negb double_quoted)
    else if Ascii.eqb c ESCAPE_CHAR then
      if Ascii.eqb (char_at line (S char_pos)) NUL then
        Problem "bad backslash"
      else
        break_off_loop fuel (copy_back line (S char_pos) (S lag))
          (S (S char_pos)) (S lag) single_quoted double_quoted
    else
      break_off_loop fuel (copy_back line char_pos lag) (S char_pos) lag
        single_quoted double_quoted.
Proof. reflexivity. Qed.

Lemma word_scan_ok_step (after buf buf1 : list ascii) (sq dq sq1 dq1 : bool)
    (rest rest1 : list ascii) (r : scan_result word_scan) :
  length buf1 = length buf -> length rest1 <= length rest ->
  lex_end sq dq rest = lex_end sq1 dq1 rest1 ->
  word_scan_ok after buf1 sq1 dq1 rest1 r ->
  word_scan_ok after buf sq dq rest r.
Proof.
  intros Hbuf Hrest Hlex. destruct r as [ws|msg|]; simpl; [|by rewrite Hlex|done].
  intros (Hlen & Hlag & rest' & Hun & Hle & Hif).
  split; [congruence|]. split; [done|].
  exists rest'. split; [done|]. split; [lia|].
  rewrite Hlex. exact Hif.
Qed.

Lemma break_off_loop_lex (after : list ascii) (fuel : nat) (buf : list ascii)
    (pos lag : nat) (sq dq : bool) (rest : list ascii) :
  unread after buf pos rest -> lag <= pos -> length rest < fuel ->
  word_scan_ok after buf sq dq rest (break_off_loop fuel buf pos lag sq dq).
Proof.
  revert buf pos lag sq dq rest.
  induction fuel as [|fuel IH]; intros buf pos lag sq dq rest Hun Hlag Hfuel;
    [lia|].
  rewrite break_off_loop_S. cbv zeta.
  destruct rest as [|c rest].
  { rewrite (unread_end after buf pos Hun). simpl.
    repeat split; try done. exists []. repeat split; try done; apply Hun. }
  destruct (unread_cons after buf pos c rest Hun) as (-> & -> & Hun').
  simpl in Hfuel.
  destruct (negb sq && negb dq && MR_isspace c) eqn:Hspace.
  { apply andb_true_iff in Hspace as [Hq Hsp].
    apply andb_true_iff in Hq as [Hsq Hdq].
    apply negb_true_iff in Hsq, Hdq. subst sq dq. simpl.
    repeat split; try done. exists (c :: rest).
    repeat split; try done; try apply Hun. by exists c, rest. }
  destruct (negb dq && Ascii.eqb c SINGLE_QUOTE_CHAR) eqn:Hsingle.
  { eapply word_scan_ok_step; [reflexivity| |by apply lex_end_single|].
    2: { apply IH; [exact Hun'|lia|lia]. }
    simpl. lia. }
  destruct (negb sq && Ascii.eqb c DOUBLE_QUOTE_CHAR) eqn:Hdouble.
  { eapply word_scan_ok_step;
      [apply (copy_back_length buf pos lag)| |by apply lex_end_double|].
    2: { apply IH; [|lia|lia].
         apply unread_copy_back; [done|lia|exact Hun']. }
    simpl. lia. }
  destruct (Ascii.eqb c ESCAPE_CHAR) eqn:Hescape.
  { destruct rest as [|c' rest].
    - rewrite (unread_end after buf (S pos) Hun'). simpl.
      split; [done|]. by apply lex_end_escape.
    - destruct (unread_cons after buf (S pos) c' rest Hun')
        as (-> & -> & Hun'').
      eapply word_scan_ok_step;
        [apply (copy_back_length buf (S pos) (S lag))|
        |by apply (lex_end_escape sq dq c c' rest)|].
      2: { apply IH; [|lia|simpl in Hfuel; lia].
           apply unread_copy_back; [lia|lia|exact Hun'']. }
      simpl. lia. }
  eapply word_scan_ok_step;
    [apply (copy_back_length buf pos lag)| |by apply lex_end_plain|].
  2: { apply IH; [|lia|lia].
       apply unread_copy_back; [done|lia|exact Hun']. }
  simpl. lia.
Qed.

Lemma skip_spaces_S (fuel : nat) (line : list ascii) (char_pos : nat) :
  skip_spaces (S fuel) line char_pos =
    if negb (Ascii.eqb (char_at line char_pos) NUL)
       && MR_isspace (char_at line char_pos)
    then skip_spaces fuel line (S char_pos)
    else Scanned char_pos.
Proof. reflexivity. Qed.

Lemma skip_spaces_lex (after : list ascii) (fuel : nat) (buf : list ascii)
    (pos : nat) (rest : list ascii) :
  unread after buf pos rest -> length rest < fuel ->
  exists pos' rest',
    skip_spaces fuel buf pos = Scanned pos'
    /\ unread after buf pos' rest'
    /\ length rest' <= length rest
    /\ lex_end false false rest = lex_end false false rest'
    /\ (char_at buf pos' = NUL /\ rest' = []
        \/ exists c r, rest' = c :: r /\ char_at buf pos' = c
                       /\ Ascii.eqb c NUL = false).
Proof.
  revert pos rest.
  induction fuel as [|fuel IH]; intros pos rest Hun Hfuel; [lia|].
  rewrite skip_spaces_S. destruct rest as [|c rest].
  - rewrite (unread_end after buf pos Hun).
    change (negb (Ascii.eqb NUL NUL) && MR_isspace NUL) with false.
    exists pos, []. repeat split; try done; try apply Hun.
    left. split; [|done]. by apply (unread_end after).
  - destruct (unread_cons after buf pos c rest Hun) as (Hc & HcN & Hun').
    rewrite Hc, HcN. rewrite andb_true_l.
    destruct (MR_isspace c) eqn:Hsp.
    + destruct (IH (S pos) rest Hun') as (pos' & rest' & Hs & Hu & Hl & Hx & Hh);
        [simpl in Hfuel; lia|].
      exists pos', rest'. repeat split; try done; try apply Hu.
      * simpl. lia.
      * by rewrite lex_end_space.
    + exists pos, (c :: rest). repeat split; try done; try apply Hun.
      right. by exists c, rest.
Qed.

(** One word is broken off, and what is left to read ends as the line
    did; or the error is the one of the way the line ends. *)
Lemma break_off_one_word_lex (after : list ascii) (buf : list ascii)
    (pos : nat) (rest : list ascii) :
  unread after buf pos rest -> rest <> [] ->
  match MR_trace_break_off_one_word buf pos with
  | OutOfFuel => False
  | Problem msg => problem_of_end (lex_end false false rest) = Some msg
  | Scanned (buf', pos') =>
    length buf' = length buf
    /\ exists rest',
         unread after buf' pos' rest' /\ length rest' < length rest
         /\ lex_end false false rest = lex_end false false rest'
  end.
Proof.
  intros Hun Hne. unfold MR_trace_break_off_one_word.
  pose proof (unread_length after buf pos rest Hun) as Hlen.
  pose proof (break_off_loop_lex after (S (length buf)) buf pos 0 false false
                rest Hun) as Hok.
  destruct (break_off_loop (S (length buf)) buf pos 0 false false)
    as [ws|msg|]; simpl in Hok.
  - destruct Hok as (Hl & Hlag & rest' & Hun' & Hle & Hif); [lia..|].
    destruct (ws_another ws) eqn:Han.
    + destruct Hif as (-> & -> & (c & r & -> & Hsp) & Hlex).
      split; [by rewrite length_insert|].
      destruct (unread_cons after _ _ c r Hun') as (_ & _ & Hun'').
      exists r. split; [|split].
      * apply unread_insert; [lia|exact Hun''].
      * simpl in Hle. lia.
      * by rewrite Hlex, lex_end_space.
    + destruct Hif as (-> & Hlex).
      destruct (ws_single_quoted ws) eqn:Hsq; [by rewrite Hlex|].
      destruct (ws_double_quoted ws) eqn:Hdq; [by rewrite Hlex|].
      split; [by rewrite length_insert|].
      exists []. split; [|split].
      * destruct (decide (ws_lag ws = 0)) as [Hz|Hnz].
        -- rewrite Hz, Nat.sub_0_r. split; [|apply Hun'].
           rewrite drop_insert_ge by lia.
           destruct Hun' as [Hd _]. rewrite Hd.
           by rewrite Nat.sub_diag.
        -- apply unread_insert; [lia|exact Hun'].
      * destruct rest; [done|simpl; lia].
      * exact Hlex.
  - destruct Hok as [-> Hlex]; [lia..|]. by rewrite Hlex.
  - apply Hok; lia.
Qed.

(** The loop over the words ends with the words of a line that ends well,
    and with the error of the way the line ends otherwise. *)
Lemma break_into_words_loop_lex (after : list ascii) (fuel : nat)
    (buf : list ascii) (words : list nat) (token_number pos : nat)
    (rest : list ascii) :
  unread after buf pos rest -> length rest < fuel ->
  match break_into_words_loop fuel buf words token_number pos with
  | OutOfFuel => False
  | Problem msg => problem_of_end (lex_end false false rest) = Some msg
  | Scanned _ => problem_of_end (lex_end false false rest) = None
  end.
Proof.
  revert buf words token_number pos rest.
  induction fuel as [|fuel IH];
    intros buf words token_number pos rest Hun Hfuel; [lia|].
  rewrite break_into_words_loop_S.
  pose proof (unread_length after buf pos rest Hun) as Hlen.
  destruct (skip_spaces_lex after (S (length buf)) buf pos rest Hun)
    as (pos' & rest' & -> & Hun' & Hle & Hlex & Hhead); [lia|].
  destruct Hhead as [[-> ->]|(c & r & -> & -> & ->)].
  - simpl. by rewrite Hlex.
  - pose proof (break_off_one_word_lex after buf pos' (c :: r) Hun') as Hw.
    destruct (MR_trace_break_off_one_word buf pos') as [[buf1 pos1]|msg|].
    + destruct Hw as (Hl1 & rest1 & Hun1 & Hlt & Hlex1); [done|].
      rewrite Hlex, Hlex1. apply IH; [exact Hun1|lia].
    + rewrite Hlex. by apply Hw.
    + by apply Hw.
Qed.

Lemma buffer_of_unread (line : string) :
  exists after, unread after (buffer_of line) 0 (line_chars line).
Proof.
  unfold buffer_of, line_chars, unread. rewrite drop_0.
  induction (list_ascii_of_string line) as [|c l IH]; simpl.
  - exists []. split; [done|]. apply not_elem_of_nil.
  - destruct (Ascii.eqb_spec c NUL) as [->|Hne]; simpl.
    + exists (l ++ [NUL]). split; [done|]. apply not_elem_of_nil.
    + destruct IH as (after & Hd & Hno). exists after.
      split; [by rewrite Hd|]. apply not_elem_of_cons. split; [congruence|done].
Qed.

(** [MR_trace_break_into_words] is total, and its errors are those of the
    quoting rules. *)
Lemma MR_trace_break_into_words_lex (line : string) :
  match MR_trace_break_into_words line with
  | OutOfFuel => False
  | Problem msg =>
    problem_of_end (lex_end false false (line_chars line)) = Some msg
  | Scanned _ => problem_of_end (lex_end false false (line_chars line)) = None
  end.
Proof.
  destruct (buffer_of_unread line) as [after Hun].
  pose proof (unread_length after _ _ _ Hun) as Hlen.
  pose proof (break_into_words_loop_lex after (S (length (buffer_of line)))
                (buffer_of line) [] 0 0 (line_chars line) Hun) as H.
  unfold MR_trace_break_into_words.
  destruct (break_into_words_loop _ _ [] 0 0) as [[[buf' words] n]|msg|];
    apply H; lia.
Qed.

(** C8. For every line: if it ends inside single quotes (an unmatched
    single quote), the word splitter returns the error [unmatched single
    quote]; if it ends inside double quotes, the error [unmatched double
    quote]; if it ends on a backslash that has nothing left to escape, the
    error [bad backslash]. In each of these cases the result is the
    error, and no words. A line that ends well always gives words. Quotes
    and backslashes are read by the quoting rules of [lex_end], which are
    stated without the tokenizer. The lines [abc'] and [step \ ] (without
    the blank) are instances. *)
Theorem tokenizer_errors_follow_the_quoting_rules (line : string) :
  let ending := lex_end false false (line_chars line) in
  (ending = UnmatchedSingleQuote ->
   MR_trace_break_into_words line = Problem "unmatched single quote"
   /\ MR_trace_parse_line line = Problem "unmatched single quote")
  /\ (ending = UnmatchedDoubleQuote ->
      MR_trace_break_into_words line = Problem "unmatched double quote"
      /\ MR_trace_parse_line line = Problem "unmatched double quote")
  /\ (ending = LoneBackslash ->
      MR_trace_break_into_words line = Problem "bad backslash"
      /\ MR_trace_parse_line line = Problem "bad backslash")
  /\ (ending = Complete ->
      exists words, MR_trace_break_into_words line = Scanned words)
  /\ MR_trace_break_into_words "abc'" = Problem "unmatched single quote"
  /\ MR_trace_break_into_words ("abc" +:+ String DOUBLE_QUOTE_CHAR "")
     = Problem "unmatched double quote"
  /\ MR_trace_break_into_words "step \" = Problem "bad backslash".
Proof.
  intros ending.
  assert (Hgen : forall e msg, ending = e -> problem_of_end e = Some msg ->
            MR_trace_break_into_words line = Problem msg
            /\ MR_trace_parse_line line = Problem msg).
  { intros e msg He Hmsg. subst e. subst ending.
    pose proof (MR_trace_break_into_words_lex line) as H.
    unfold MR_trace_parse_line.
    destruct (MR_trace_break_into_words line) as [r|msg'|]; [|..|done].
    - rewrite H in Hmsg. discriminate.
    - rewrite H in Hmsg. by injection Hmsg as ->. }
  split; [|split; [|split; [|split]]].
  - intros He. by apply (Hgen _ _ He).
  - intros He. by apply (Hgen _ _ He).
  - intros He. by apply (Hgen _ _ He).
  - intros He. subst ending.
    pose proof (MR_trace_break_into_words_lex line) as H.
    destruct (MR_trace_break_into_words line) as [r|msg'|]; [by eexists|..].
    + rewrite He in H. discriminate.
    + done.
  - repeat split; vm_compute; reflexivity.
Qed.

Lemma tokenizer_errors_follow_the_quoting_rules_witness :
  MR_trace_break_into_words "print 'a b"
  = Problem "unmatched single quote".
Proof.
  pose proof (tokenizer_errors_follow_the_quoting_rules "print 'a b")
    as (Hsingle & _).
  apply Hsingle. reflexivity.
Defined.

(** ** Dispatch *)

(** Every entry of the table is the one that the lookup of its name
    finds: no name occurs twice before the end of the table. *)
Lemma command_names_are_unique :
  Forall (fun info =>
            match MR_cmd_name info with
            | Some name => MR_trace_valid_command name = Some info
            | None => True
            end) MR_trace_command_infos.
Proof.
  unfold MR_trace_command_infos.
  repeat (apply Forall_cons; split; [vm_compute; reflexivity|]).
  apply Forall_nil. done.
Qed.

(** Every entry with a handler has a category, and the other way round. *)
Lemma command_handlers_have_a_category :
  Forall (fun info =>
            is_Some (MR_cmd_function info) <-> is_Some (MR_cmd_category info))
    MR_trace_command_infos.
Proof.
  unfold MR_trace_command_infos.
  repeat (apply Forall_cons; split; [by rewrite !is_Some_alt|]).
  apply Forall_nil. done.
Qed.

(** X4. The dispatcher is exact: a first word that is the name of an entry
    of the command table reaches that very entry (the handler of the entry
    is the one called), a first word that names no entry gives the
    unknown-command message and keeps the dialogue going, and a handler is
    only ever called for an entry of the table that carries the typed name
    and a category. *)
Theorem dispatch_is_exact (words : list string) :
  let word := word_at words 0 in
  (forall info,
     info ∈ MR_trace_command_infos -> MR_cmd_name info = Some word ->
     MR_trace_valid_command word = Some info
     /\ MR_trace_handle_cmd words =
        match MR_cmd_function info with
        | Some f => CallHandler info f
        | None => CallNullPointer info
        end)
  /\ ((forall info,
         info ∈ MR_trace_command_infos -> MR_cmd_name info <> Some word) ->
      MR_trace_handle_cmd words =
        UnknownCommand
          ("Unknown command `" +:+ word +:+
           "'. Give the command `help' for help." +:+ newline)
          KEEP_INTERACTING)
  /\ (forall info f,
        MR_trace_handle_cmd words = CallHandler info f ->
        info ∈ MR_trace_command_infos /\ MR_cmd_name info = Some word
        /\ MR_cmd_function info = Some f
        /\ is_Some (MR_cmd_category info)).
Proof.
  intros word. split; [|split].
  - intros info Hin Hname.
    pose proof (proj1 (Forall_forall _ _) command_names_are_unique _ Hin)
      as Hlook.
    cbv beta in Hlook. rewrite Hname in Hlook. split; [done|].
    unfold MR_trace_handle_cmd. fold word. by rewrite Hlook.
  - intros Hno. unfold MR_trace_handle_cmd, MR_trace_valid_command.
    fold word. by rewrite (valid_command_loop_no_name _ _ Hno).
  - intros info f. unfold MR_trace_handle_cmd, MR_trace_valid_command.
    fold word.
    destruct (valid_command_loop MR_trace_command_infos word) as [info'|]
      eqn:Hlook; [|done].
    apply valid_command_loop_name in Hlook as [Hin Hname].
    destruct (MR_cmd_function info') as [f'|] eqn:Hf; [|done].
    intros [= <- <-]. repeat split; try done.
    apply (proj1 (Forall_forall _ _) command_handlers_have_a_category _ Hin).
    by eexists.
Qed.

Lemma dispatch_is_exact_witness :
  MR_trace_handle_cmd ["finish"; "2"] =
    CallHandler (command "forward" "finish" Handler.MR_trace_cmd_finish)
      Handler.MR_trace_cmd_finish
  /\ MR_trace_handle_cmd ["fnish"] =
    UnknownCommand
      ("Unknown command `fnish'. Give the command `help' for help." +:+
       newline)
      KEEP_INTERACTING.
Proof.
  split.
  - apply (proj1 (dispatch_is_exact ["finish"; "2"])
             (command "forward" "finish" Handler.MR_trace_cmd_finish)).
    + unfold MR_trace_command_infos. set_solver.
    + reflexivity.
  - apply (proj1 (proj2 (dispatch_is_exact ["fnish"]))).
    intros info Hin.
    pose proof (proj1 (Forall_forall _ _) command_names_are_unique _ Hin)
      as Hlook.
    cbv beta in Hlook. intros Hname. rewrite Hname in Hlook. vm_compute in Hlook. discriminate.
Defined.

(** ** Sourced files *)

Lemma source_lines_loop_chain (contents chain : list string) :
  source_lines_loop contents chain = chain ++ contents.
Proof.
  revert chain. induction contents as [|line contents IH]; intros chain.
  - by rewrite app_nil_r.
  - simpl. by rewrite IH, <- app_assoc.
Qed.

Lemma MR_trace_source_from_open_file_queue (fp : list string) (st : session) :
  MR_trace_source_from_open_file fp st
  = set_internal_interacting false (set_line_queue (fp ++ MR_line_queue st) st).
Proof.
  unfold MR_trace_source_from_open_file.
  rewrite source_lines_loop_chain. simpl.
  destruct fp as [|line fp]; [|done]. by destruct st.
Qed.

Lemma getlines_queue (prompt : string) (lines rest : list string)
    (st : session) :
  MR_line_queue st = lines ++ rest ->
  getlines prompt (length lines) st
  = (Some <$> lines, set_line_queue rest st).
Proof.
  revert st. induction lines as [|line lines IH]; intros st Hq.
  - simpl in *. subst rest. by destruct st.
  - simpl. unfold MR_trace_getline, MR_trace_getline_queue. rewrite Hq. simpl.
    rewrite (IH (set_line_queue (lines ++ rest) st) eq_refl). done.
Qed.

(** X5. Sourcing a file puts its lines in front of the lines already
    pending, in the order of the file: the next reads return the lines of
    the file one by one, show no prompt and take nothing from the terminal,
    and leave the session as it was before (but marked as not interacting).
    A file sourced later is read before a file sourced earlier, which is why
    the initialisation sources its files in the reverse of the order in
    which they are to run. *)
Theorem sourced_lines_are_read_first (fp fp_later : list string)
    (prompt : string) (st : session) :
  getlines prompt (length fp) (MR_trace_source_from_open_file fp st)
  = (Some <$> fp, set_internal_interacting false st)
  /\ MR_line_queue (MR_trace_source_from_open_file fp st)
     = fp ++ MR_line_queue st
  /\ MR_line_queue
       (MR_trace_source_from_open_file fp_later
          (MR_trace_source_from_open_file fp st))
     = fp_later ++ fp ++ MR_line_queue st
  /\ MR_trace_internal_interacting (MR_trace_source_from_open_file fp st)
     = false.
Proof.
  rewrite !MR_trace_source_from_open_file_queue. repeat split.
  rewrite (getlines_queue prompt fp (MR_line_queue st)); [|done].
  by destruct st.
Qed.

(** ** Reading commands *)

Lemma list_ascii_of_string_app (s t : string) :
  list_ascii_of_string (s +:+ t)
  = list_ascii_of_string s ++ list_ascii_of_string t.
Proof. induction s as [|c s IH]; [done|]. simpl. by rewrite <- IH. Qed.

Lemma replace_last_by_space_String (c : ascii) (s : string) :
  s <> "" ->
  replace_last_by_space (String c s) = String c (replace_last_by_space s).
Proof. by destruct s. Qed.

Lemma continue_line_loop_semicolon (ptr : string) (e sq dq : bool)
    (before after : string) :
  continue_line_loop ptr e sq dq = AtSemicolon before after ->
  ptr = before +:+ ";" +:+ after
  /\ forall rest,
       lex_end sq dq (pending e (list_ascii_of_string before ++ rest))
       = lex_end false false rest.
Proof.
  revert e sq dq before.
  induction ptr as [|c ptr IH]; intros e sq dq before; [done|].
  simpl. destruct e.
  { destruct (continue_line_loop ptr false sq dq) as [b a|] eqn:Hrec; [|done].
    intros [= <- <-]. destruct (IH _ _ _ _ Hrec) as [-> Hlex].
    split; [done|]. intros rest. simpl. apply Hlex. }
  destruct (Ascii.eqb c ESCAPE_CHAR) eqn:Hesc.
  { destruct (continue_line_loop ptr true sq dq) as [b a|] eqn:Hrec; [|done].
    intros [= <- <-]. destruct (IH _ _ _ _ Hrec) as [-> Hlex].
    split; [done|]. intros rest. apply Ascii.eqb_eq in Hesc as ->.
    apply Hlex. }
  destruct (negb dq && Ascii.eqb c SINGLE_QUOTE_CHAR) eqn:Hsq.
  { destruct (continue_line_loop ptr false (negb sq) dq) as [b a|] eqn:Hrec;
      [|done].
    intros [= <- <-]. destruct (IH _ _ _ _ Hrec) as [-> Hlex].
    split; [done|]. intros rest. simpl. rewrite Hesc.
    apply andb_true_iff in Hsq as [-> ->]. simpl. apply Hlex. }
  destruct (negb sq && Ascii.eqb c DOUBLE_QUOTE_CHAR) eqn:Hdq.
  { destruct (continue_line_loop ptr false sq (negb dq)) as [b a|] eqn:Hrec;
      [|done].
    intros [= <- <-]. destruct (IH _ _ _ _ Hrec) as [-> Hlex].
    split; [done|]. intros rest. simpl. rewrite Hesc.
    apply andb_true_iff in Hdq as [Hq ->].
    apply negb_true_iff in Hq as ->. simpl.
    replace (Ascii.eqb c SINGLE_QUOTE_CHAR && negb dq) with false; [apply Hlex|].
    symmetry. rewrite andb_comm. apply Hsq. }
  destruct (negb sq && negb dq && Ascii.eqb c ";"%char) eqn:Hsemi.
  { intros [= <- <-].
    apply andb_true_iff in Hsemi as [Hq Hc].
    apply andb_true_iff in Hq as [Hs Hd].
    apply negb_true_iff in Hs as ->. apply negb_true_iff in Hd as ->.
    apply Ascii.eqb_eq in Hc as ->. done. }
  destruct (continue_line_loop ptr false sq dq) as [b a|] eqn:Hrec; [|done].
  intros [= <- <-]. destruct (IH _ _ _ _ Hrec) as [-> Hlex].
  split; [done|]. intros rest. simpl. rewrite Hesc.
  rewrite (andb_comm (Ascii.eqb c SINGLE_QUOTE_CHAR)), Hsq.
  rewrite (andb_comm (Ascii.eqb c DOUBLE_QUOTE_CHAR)), Hdq. apply Hlex.
Qed.

Lemma continue_line_loop_end (ptr : string) (e sq dq e' sq' dq' : bool) :
  (e = true -> ptr <> "") ->
  continue_line_loop ptr e sq dq = AtEnd e' sq' dq' ->
  forall rest,
    lex_end sq dq
      (pending e
         (list_ascii_of_string
            (if e' then replace_last_by_space ptr else ptr) ++ rest))
    = lex_end sq' dq' rest.
Proof.
  revert e sq dq.
  induction ptr as [|c ptr IH]; intros e sq dq Hne.
  { destruct e; [by destruct Hne|]. simpl. by intros [= <- <- <-]. }
  assert (Hlast : forall e0 sq0 dq0,
            continue_line_loop ptr e0 sq0 dq0 = AtEnd e' sq' dq' ->
            e0 = false ->
            (if e' then replace_last_by_space (String c ptr) else String c ptr)
            = String c (if e' then replace_last_by_space ptr else ptr)).
  { intros e0 sq0 dq0 Hrec ->. destruct e'; [|done].
    apply replace_last_by_space_String. by intros ->. }
  simpl continue_line_loop. destruct e.
  { destruct (continue_line_loop ptr false sq dq) as [|e1 sq1 dq1] eqn:Hrec;
      [done|].
    intros [= <- <- <-] rest. rewrite (Hlast _ _ _ Hrec eq_refl).
    simpl. by apply (IH false). }
  destruct (Ascii.eqb c ESCAPE_CHAR) eqn:Hesc.
  { destruct (continue_line_loop ptr true sq dq) as [|e1 sq1 dq1] eqn:Hrec;
      [done|].
    intros [= <- <- <-] rest. apply Ascii.eqb_eq in Hesc as ->.
    destruct ptr as [|c' ptr'].
    - simpl in Hrec. injection Hrec as <- <- <-. done.
    - assert (Hptr : String c' ptr' <> "") by done.
      pose proof (IH true sq dq (fun _ => Hptr) Hrec rest) as Hlex.
      destruct e1.
      + rewrite (replace_last_by_space_String _ _ Hptr). apply Hlex.
      + apply Hlex. }
  destruct (negb dq && Ascii.eqb c SINGLE_QUOTE_CHAR) eqn:Hsq.
  { destruct (continue_line_loop ptr false (negb sq) dq) as [|e1 sq1 dq1]
      eqn:Hrec; [done|].
    intros [= <- <- <-] rest. rewrite (Hlast _ _ _ Hrec eq_refl).
    simpl. rewrite Hesc. apply andb_true_iff in Hsq as [-> ->]. simpl.
    by apply (IH false). }
  destruct (negb sq && Ascii.eqb c DOUBLE_QUOTE_CHAR) eqn:Hdq.
  { destruct (continue_line_loop ptr false sq (negb dq)) as [|e1 sq1 dq1]
      eqn:Hrec; [done|].
    intros [= <- <- <-] rest. rewrite (Hlast _ _ _ Hrec eq_refl).
    simpl. rewrite Hesc.
    rewrite (andb_comm (Ascii.eqb c SINGLE_QUOTE_CHAR)), Hsq.
    apply andb_true_iff in Hdq as [-> ->]. simpl. by apply (IH false). }
  destruct (negb sq && negb dq && Ascii.eqb c ";"%char) eqn:Hsemi; [done|].
  destruct (continue_line_loop ptr false sq dq) as [|e1 sq1 dq1] eqn:Hrec;
    [done|].
  intros [= <- <- <-] rest. rewrite (Hlast _ _ _ Hrec eq_refl).
  simpl. rewrite Hesc.
  rewrite (andb_comm (Ascii.eqb c SINGLE_QUOTE_CHAR)), Hsq.
  rewrite (andb_comm (Ascii.eqb c DOUBLE_QUOTE_CHAR)), Hdq. by apply (IH false).
Qed.

Lemma continue_line_loop_before (ptr : string) (e sq dq : bool)
    (before after : string) :
  continue_line_loop ptr e sq dq = AtSemicolon before after ->
  continue_line_loop before e sq dq = AtEnd false false false.
Proof.
  revert e sq dq before.
  induction ptr as [|c ptr IH]; intros e sq dq before; [done|].
  simpl. destruct e.
  { destruct (continue_line_loop ptr false sq dq) as [b a|] eqn:Hrec; [|done].
    intros [= <- <-]. simpl. by rewrite (IH _ _ _ _ Hrec). }
  destruct (Ascii.eqb c ESCAPE_CHAR) eqn:Hesc.
  { destruct (continue_line_loop ptr true sq dq) as [b a|] eqn:Hrec; [|done].
    intros [= <- <-]. simpl. by rewrite Hesc, (IH _ _ _ _ Hrec). }
  destruct (negb dq && Ascii.eqb c SINGLE_QUOTE_CHAR) eqn:Hsq.
  { destruct (continue_line_loop ptr false (negb sq) dq) as [b a|] eqn:Hrec;
      [|done].
    intros [= <- <-]. simpl. by rewrite Hesc, Hsq, (IH _ _ _ _ Hrec). }
  destruct (negb sq && Ascii.eqb c DOUBLE_QUOTE_CHAR) eqn:Hdq.
  { destruct (continue_line_loop ptr false sq (negb dq)) as [b a|] eqn:Hrec;
      [|done].
    intros [= <- <-]. simpl. by rewrite Hesc, Hsq, Hdq, (IH _ _ _ _ Hrec). }
  destruct (negb sq && negb dq && Ascii.eqb c ";"%char) eqn:Hsemi.
  { intros [= <- <-]. simpl.
    apply andb_true_iff in Hsemi as [Hq _].
    apply andb_true_iff in Hq as [Hs Hd].
    apply negb_true_iff in Hs as ->. by apply negb_true_iff in Hd as ->. }
  destruct (continue_line_loop ptr false sq dq) as [b a|] eqn:Hrec; [|done].
  intros [= <- <-]. simpl.
  by rewrite Hesc, Hsq, Hdq, Hsemi, (IH _ _ _ _ Hrec).
Qed.

(** X6. A line with an unquoted, unescaped semicolon is two
    commands: [MR_trace_get_command] returns the text before the first such
    semicolon, which is a complete command (its quotes are matched, it ends
    on no backslash and holds no such semicolon itself), and puts the text
    after it at the head of the queue, so that the next read returns it
    without a prompt and leaves the session as the first read left it. *)
Theorem semicolon_splits_a_line (prompt next_prompt : string) (st st1 : session)
    (line before after : string) :
  MR_trace_getline prompt st = (Some line, st1) ->
  continue_line_loop line false false false = AtSemicolon before after ->
  line = before +:+ ";" +:+ after
  /\ MR_trace_get_command prompt st
     = Some (before, MR_insert_line_at_head after st1)
  /\ MR_trace_getline next_prompt (MR_insert_line_at_head after st1)
     = (Some after, st1)
  /\ continue_line_loop before false false false = AtEnd false false false
  /\ lex_end false false (list_ascii_of_string before) = Complete.
Proof.
  intros Hget Hscan.
  destruct (continue_line_loop_semicolon _ _ _ _ _ _ Hscan) as [Hline Hlex].
  split; [done|]. split; [|split; [|split]].
  - unfold MR_trace_get_command. rewrite Hget. simpl.
    unfold MR_trace_continue_line. by rewrite Hscan.
  - unfold MR_trace_getline, MR_trace_getline_queue, MR_insert_line_at_head.
    simpl. by destruct st1.
  - by apply (continue_line_loop_before _ _ _ _ _ _ Hscan).
  - specialize (Hlex []). simpl in Hlex. by rewrite app_nil_r in Hlex.
Qed.

Lemma semicolon_splits_a_line_witness :
  MR_trace_get_command "mdb> " (sample_session [] ["step; print 'a;b'; retry"])
  = Some ("step",
          MR_insert_line_at_head " print 'a;b'; retry"
            (MR_trace_getline "mdb> "
               (sample_session [] ["step; print 'a;b'; retry"])).2)
  /\ MR_trace_get_command "mdb> "
       (MR_insert_line_at_head " print 'a;b'; retry"
          (MR_trace_getline "mdb> "
             (sample_session [] ["step; print 'a;b'; retry"])).2)
     = Some (" print 'a;b'",
             MR_insert_line_at_head " retry"
               (MR_trace_getline "mdb> "
                  (sample_session [] ["step; print 'a;b'; retry"])).2).
Proof.
  split.
  - apply (semicolon_splits_a_line "mdb> " "mdb> "
             (sample_session [] ["step; print 'a;b'; retry"]) _
             "step; print 'a;b'; retry" "step" " print 'a;b'; retry");
      reflexivity.
  - apply (semicolon_splits_a_line "mdb> " "mdb> " _ _
             " print 'a;b'; retry" " print 'a;b'" " retry"); reflexivity.
Defined.

Lemma MR_trace_getline_None (prompt : string) (st st' : session) :
  MR_trace_getline prompt st = (None, st') ->
  MR_line_queue st' = [] /\ mdb_in st' = [].
Proof.
  unfold MR_trace_getline, MR_trace_getline_queue, MR_trace_readline.
  destruct (MR_line_queue st) as [|l q] eqn:Hq; [|done]. simpl.
  destruct (mdb_in st) as [|l m] eqn:Hm.
  - by intros [= <-].
  - simpl. by destruct (MR_echo_commands st).
Qed.

Lemma get_command_loop_complete (fuel : nat) (cmd_chars ptr : string)
    (sq dq : bool) (st : session) (cmd : string) (st' : session) :
  (forall rest,
     lex_end false false (list_ascii_of_string cmd_chars ++ rest)
     = lex_end sq dq rest) ->
  get_command_loop fuel cmd_chars ptr sq dq st = Some (cmd, st') ->
  lex_end false false (list_ascii_of_string cmd) = Complete
  \/ (MR_line_queue st' = [] /\ mdb_in st' = []).
Proof.
  revert cmd_chars ptr sq dq st.
  induction fuel as [|fuel IH]; intros cmd_chars ptr sq dq st Hinv; [done|].
  simpl. unfold MR_trace_continue_line.
  destruct (continue_line_loop ptr false sq dq) as [before after|e' sq' dq']
    eqn:Hscan.
  - intros [= <- <-]. left.
    destruct (continue_line_loop_semicolon _ _ _ _ _ _ Hscan) as [_ Hlex].
    rewrite list_ascii_of_string_app, <- (app_nil_r (_ ++ _)), <- app_assoc.
    rewrite Hinv. apply (Hlex []).
  - assert (Hend : forall rest,
              lex_end false false
                (list_ascii_of_string
                   (cmd_chars +:+
                    (if e' then replace_last_by_space ptr else ptr)) ++ rest)
              = lex_end sq' dq' rest).
    { intros rest. rewrite list_ascii_of_string_app, <- app_assoc, Hinv.
      apply (continue_line_loop_end ptr false sq dq e' sq' dq'); done. }
    destruct (sq' || dq' || e') eqn:Hcont.
    + destruct (MR_trace_getline "> " st) as [[line|] st1] eqn:Hget.
      * by apply IH.
      * intros [= <- <-]. right. by apply (MR_trace_getline_None _ _ _ Hget).
    + intros [= <- <-]. left.
      apply orb_false_iff in Hcont as [Hq ->].
      apply orb_false_iff in Hq as [-> ->].
      specialize (Hend []). by rewrite app_nil_r in Hend.
Qed.

Lemma until_NUL_id (l : list ascii) : NUL ∉ l -> until_NUL l = l.
Proof.
  induction l as [|c l IH]; [done|]. intros Hnot. simpl.
  destruct (Ascii.eqb c NUL) eqn:Hc.
  - apply Ascii.eqb_eq in Hc as ->. destruct Hnot. by left.
  - f_equal. apply IH. intros Hin. apply Hnot. by right.
Qed.

(** X7. [MR_trace_get_command] always returns a command, and
    the reader and the tokenizer agree on what a complete command is: the
    command returned has its quotes matched and ends on no backslash, unless
    the input ran out while it was being read (no line is left in the queue
    or in [MR_mdb_in]). So the tokenizer can report an unmatched quote or a
    bad backslash only for the last command of the input. *)
Theorem open_quotes_only_at_end_of_input (prompt : string) (st : session) :
  exists cmd st',
    MR_trace_get_command prompt st = Some (cmd, st')
    /\ (lex_end false false (list_ascii_of_string cmd) = Complete
        \/ (MR_line_queue st' = [] /\ mdb_in st' = []))
    /\ (NUL ∉ list_ascii_of_string cmd ->
        forall msg,
          MR_trace_break_into_words cmd = Problem msg ->
          MR_line_queue st' = [] /\ mdb_in st' = []).
Proof.
  destruct (MR_trace_get_command_total prompt st) as [[cmd st'] Hcmd].
  exists cmd, st'. split; [done|].
  assert (Hdone : lex_end false false (list_ascii_of_string cmd) = Complete
                  \/ (MR_line_queue st' = [] /\ mdb_in st' = [])).
  { unfold MR_trace_get_command in Hcmd.
    destruct (MR_trace_getline prompt st) as [[line|] st1] eqn:Hget.
    - by apply (get_command_loop_complete _ "" line false false st1 cmd st'
                  (fun _ => eq_refl) Hcmd).
    - injection Hcmd as <- <-. by left. }
  split; [done|]. intros Hnul msg Hmsg.
  destruct Hdone as [Hcomplete|Hout]; [|done].
  pose proof (MR_trace_break_into_words_lex cmd) as Hlex.
  rewrite Hmsg in Hlex. unfold line_chars in Hlex.
  rewrite (until_NUL_id _ Hnul), Hcomplete in Hlex. done.
Qed.

(** ** Pages of reports *)

Lemma MR_trace_getline_effects (prompt : string) (st : session)
    (line : option string) (st' : session) :
  MR_trace_getline prompt st = (line, st') ->
  exists more,
    effects st' =
      effects st ++
      (if bool_decide (MR_line_queue st = []) then Prompt prompt :: more
       else more).
Proof.
  unfold MR_trace_getline, MR_trace_getline_queue, MR_trace_readline.
  destruct (MR_line_queue st) as [|l q] eqn:Hq; simpl.
  - destruct (mdb_in st) as [|l m] eqn:Hm; simpl.
    + intros [= <- <-]. by exists [].
    + destruct (MR_echo_commands st); intros [= <- <-]; simpl.
      * exists [Out l; Out newline]. by rewrite <- !app_assoc.
      * by exists [].
  - intros [= <- <-]. exists []. simpl. by rewrite app_nil_r.
Qed.

Lemma more_prompt_loop_effects (fuel : nat) (cmd : MR_Trace_Cmd_Info)
    (st : session) (m : more_end) :
  more_prompt_loop fuel cmd st = Some m ->
  exists more,
    effects (match m with GoOn _ s | QuitReport _ s => s end) =
      effects st ++
      (if bool_decide (MR_line_queue st = []) then Prompt "--more-- " :: more
       else more).
Proof.
  revert st. induction fuel as [|fuel IH]; intros st; [done|]. simpl.
  destruct (MR_trace_getline "--more-- " st) as [[buf|] st1] eqn:Hget;
    destruct (MR_trace_getline_effects _ _ _ _ Hget) as [more Hmore].
  - destruct (negb (Ascii.eqb (first_nonspace buf) NUL)
              && negb (MR_isspace (first_nonspace buf))).
    + destruct (Ascii.eqb (first_nonspace buf) "a");
        [intros [= <-]; by exists more|].
      destruct (Ascii.eqb (first_nonspace buf) "n");
        [intros [= <-]; by exists more|].
      destruct (Ascii.eqb (first_nonspace buf) "s");
        [intros [= <-]; by exists more|].
      destruct (Ascii.eqb (first_nonspace buf) "q");
        [intros [= <-]; by exists more|].
      intros Hrec. destruct (IH _ Hrec) as [more' Hmore'].
      rewrite Hmore'. simpl. rewrite Hmore.
      exists (more ++ Err ("unknown command, try again" +:+ newline) ::
              (if bool_decide (MR_line_queue st1 = [])
               then Prompt "--more-- " :: more' else more')).
      destruct (bool_decide (MR_line_queue st = []));
        rewrite <- !app_assoc; reflexivity.
    + intros [= <-]. by exists more.
  - intros [= <-]. by exists more.
Qed.

Lemma report_without_pause (MR_trace_var_print_list : list string -> Z)
    (cmd : MR_Trace_Cmd_Info) (event_info : MR_Event_Info) (st : session) :
  MR_scroll_control st = false
  \/ (MR_scroll_next st < MR_scroll_limit st - 1)%Z ->
  MR_trace_event_internal_report MR_trace_var_print_list cmd [] event_info st
  = Some (Reported cmd
            (set_scroll_next (MR_scroll_next st + 1)
               (write (EventReport (MR_event_number event_info)) st))).
Proof.
  intros Hno. unfold MR_trace_event_internal_report. simpl.
  replace (MR_scroll_control st
           && bool_decide (MR_scroll_next st + 0 >= MR_scroll_limit st - 1)%Z)
    with false; [done|].
  symmetry. apply andb_false_iff. destruct Hno as [Hoff|Hroom]; [by left|].
  right. apply bool_decide_eq_false. lia.
Qed.

Lemma reports_without_pause (MR_trace_var_print_list : list string -> Z)
    (cmd : MR_Trace_Cmd_Info) (events : list MR_Event_Info) (st : session) :
  MR_scroll_control st = false
  \/ (MR_scroll_next st + Z.of_nat (length events)
      <= MR_scroll_limit st - 1)%Z ->
  exists st',
    report_events MR_trace_var_print_list cmd events st
      = Some (Reported cmd st')
    /\ effects st' =
         effects st ++ ((fun e => EventReport (MR_event_number e)) <$> events)
    /\ MR_line_queue st' = MR_line_queue st /\ mdb_in st' = mdb_in st
    /\ MR_scroll_control st' = MR_scroll_control st
    /\ MR_scroll_limit st' = MR_scroll_limit st
    /\ MR_scroll_next st'
       = (MR_scroll_next st + Z.of_nat (length events))%Z.
Proof.
  revert st. induction events as [|e events IH]; intros st Hno.
  - exists st. simpl. rewrite app_nil_r, Z.add_0_r. done.
  - simpl report_events. rewrite report_without_pause.
    2:{ destruct Hno as [Hoff|Hroom]; [by left|right].
        simpl length in Hroom. lia. }
    destruct (IH (set_scroll_next (MR_scroll_next st + 1)
                    (write (EventReport (MR_event_number e)) st)))
      as (st' & Hrun & Heff & Hq & Hin & Hc & Hl & Hn).
    { simpl. destruct Hno as [Hoff|Hroom]; [by left|right].
      simpl length in Hroom. lia. }
    exists st'. split; [done|]. simpl in *.
    rewrite Heff, Hq, Hin, Hc, Hl, Hn, <- app_assoc. repeat split. lia.
Qed.

(** X8. With scrolling off, or as long as the lines printed since
    the last pause plus the reports to come stay within the page size minus
    one, event reports without a print list are printed one after the other
    with no pause: nothing is read, from the queue or from [MR_mdb_in], and
    the count of lines grows by one per report. Once the count has reached
    the page size minus one (scrolling on, no line pending in the queue),
    the next report starts by showing the [--more--] prompt. *)
Theorem a_page_holds_one_line_less_than_its_size
    (MR_trace_var_print_list : list string -> Z) (cmd : MR_Trace_Cmd_Info)
    (events : list MR_Event_Info) (st : session) :
  MR_scroll_control st = false
  \/ (MR_scroll_next st + Z.of_nat (length events)
      <= MR_scroll_limit st - 1)%Z ->
  exists st',
    report_events MR_trace_var_print_list cmd events st
      = Some (Reported cmd st')
    /\ effects st' =
         effects st ++ ((fun e => EventReport (MR_event_number e)) <$> events)
    /\ MR_line_queue st' = MR_line_queue st /\ mdb_in st' = mdb_in st
    /\ MR_scroll_next st'
       = (MR_scroll_next st + Z.of_nat (length events))%Z
    /\ (MR_scroll_control st = true ->
        (MR_scroll_next st + Z.of_nat (length events)
         = MR_scroll_limit st - 1)%Z ->
        MR_line_queue st = [] ->
        forall event_info, exists r more,
          MR_trace_event_internal_report MR_trace_var_print_list cmd []
            event_info st' = Some r
          /\ effects (report_session r)
             = effects st' ++ Prompt "--more-- " :: more).
Proof.
  intros Hno.
  destruct (reports_without_pause MR_trace_var_print_list cmd events st Hno)
    as (st' & Hrun & Heff & Hq & Hin & Hc & Hl & Hn).
  exists st'. repeat (split; [done|]).
  intros Hon Hfull Hempty event_info.
  unfold MR_trace_event_internal_report.
  replace (MR_scroll_control st'
           && bool_decide
                (MR_scroll_next st' + Z.of_nat (length (@nil string))
                 >= MR_scroll_limit st' - 1)%Z) with true.
  2:{ symmetry. rewrite Hc, Hon. apply bool_decide_eq_true_2.
      simpl length. lia. }
  cbv iota.
  destruct (more_prompt_loop_fuel
              (S (length (MR_line_queue st') + length (mdb_in st')))
              (S (lines_left st')) cmd st') as [_ [m Hm]];
    [unfold lines_left; lia..|].
  rewrite Hm.
  destruct (more_prompt_loop_effects _ _ _ _ Hm) as [more Hmore].
  rewrite Hq, Hempty in Hmore. simpl in Hmore.
  destruct m as [cmd1 s|cmd1 s].
  - eexists _, (more ++ [EventReport (MR_event_number event_info)]).
    split; [done|]. simpl. rewrite Hmore, <- app_assoc. done.
  - eexists _, more. split; [done|]. done.
Qed.

Lemma a_page_holds_one_line_less_than_its_size_witness :
  exists st',
    report_events (fun _ => 0%Z) sample_cmd
      [sample_event 1 MR_PORT_CALL; sample_event 2 MR_PORT_CALL]
      (sample_page 24 21 [] ["q"])
      = Some (Reported sample_cmd st')
    /\ effects st' = [EventReport 10; EventReport 10]
    /\ MR_scroll_next st' = 23%Z
    /\ exists r more,
         MR_trace_event_internal_report (fun _ => 0%Z) sample_cmd []
           (sample_event 1 MR_PORT_EXIT) st' = Some r
         /\ effects (report_session r)
            = effects st' ++ Prompt "--more-- " :: more.
Proof.
  destruct (a_page_holds_one_line_less_than_its_size (fun _ => 0%Z) sample_cmd
              [sample_event 1 MR_PORT_CALL; sample_event 2 MR_PORT_CALL]
              (sample_page 24 21 [] ["q"]))
    as (st' & Hrun & Heff & _ & _ & Hn & Hpause).
  { right. simpl. lia. }
  exists st'. repeat (split; [done|]).
  apply Hpause; done.
Defined.

(** ** Break points that exist *)

Lemma spy_point_exists_slot (table : spy_table) (n : Z) :
  spy_point_exists table n = true ->
  (0 <= n < MR_spy_point_next table)%Z
  /\ spy_exists table !! Z.to_nat n = Some true.
Proof.
  unfold spy_point_exists. intros H.
  apply andb_true_iff in H as [H Hex]. apply andb_true_iff in H as [H0 H1].
  apply bool_decide_eq_true in H0. apply bool_decide_eq_true in H1.
  split; [lia|].
  destruct (spy_exists table !! Z.to_nat n) as [[]|]; done.
Qed.

(** X9. Except in the [ignore *] case, the [ignore] command calls
    [MR_ignore_spy_point] once at most, and only for a break point that
    exists: the number is within the table and its slot is not deleted,
    whether it was typed or is the most recent break point. Otherwise the
    command writes one error message and calls nothing. It reads no input
    and the dialogue goes on in every case. *)
Theorem ignore_reaches_existing_break_points_only
    (MR_getopt_long : list string -> string -> list MR_option -> getopt_run)
    (n_initial : Z) (table : spy_table) (words : list string) (st : session)
    (ignore_when : MR_Spy_Ignore_When) (ignore_count : Z)
    (words1 : list string) (st1 : session) :
  MR_trace_options_ignore_count MR_getopt_long MR_SPY_IGNORE_ENTRY 1 words st
    = (true, ignore_when, ignore_count, words1, st1) ->
  ~ (length words1 = 2 /\ word_at words1 1 = "*") ->
  exists st',
    MR_trace_cmd_ignore MR_getopt_long n_initial table words st
      = (KEEP_INTERACTING, st')
    /\ MR_line_queue st' = MR_line_queue st1 /\ mdb_in st' = mdb_in st1
    /\ ((exists n,
           (0 <= n < MR_spy_point_next table)%Z
           /\ spy_exists table !! Z.to_nat n = Some true
           /\ (MR_trace_is_natural_number (word_at words1 1) = Some n
               \/ (length words1 = 1 /\ n = MR_most_recent_spy_point table))
           /\ effects st' =
                effects st1 ++
                [Call_MR_ignore_spy_point n ignore_when ignore_count;
                 Call_MR_maybe_print_spy_point n])
        \/ exists msg, effects st' = effects st1 ++ [Err msg]).
Proof.
  intros Hopts Hstar. unfold MR_trace_cmd_ignore. rewrite Hopts.
  destruct (decide (length words1 = 2)) as [Hlen|Hlen].
  - destruct (MR_trace_is_natural_number (word_at words1 1)) as [n|] eqn:Hn.
    + destruct (spy_point_exists table n) eqn:Hex.
      * eexists. split; [done|]. split; [done|]. split; [done|]. left.
        exists n. destruct (spy_point_exists_slot _ _ Hex) as [? ?].
        repeat split; try done; try lia; try (by left).
        simpl. by rewrite <- app_assoc.
      * eexists. split; [done|]. split; [done|]. split; [done|]. right.
        by eexists.
    + rewrite bool_decide_eq_true_2 by done. simpl.
      destruct (String.eqb (word_at words1 1) "*") eqn:Hw.
      { apply String.eqb_eq in Hw. by destruct Hstar. }
      rewrite bool_decide_eq_false_2 by lia.
      eexists. split; [done|]. split; [done|]. split; [done|]. right.
      by eexists.
  - rewrite bool_decide_eq_false_2 by done. simpl.
    destruct (decide (length words1 = 1)) as [Hone|Hone].
    + rewrite bool_decide_eq_true_2 by done.
      destruct (spy_point_exists table (MR_most_recent_spy_point table))
        eqn:Hex.
      * eexists. split; [done|]. split; [done|]. split; [done|]. left.
        exists (MR_most_recent_spy_point table).
        destruct (spy_point_exists_slot _ _ Hex) as [? ?].
        repeat split; try done; try lia; try (by right).
        simpl. by rewrite <- app_assoc.
      * eexists. split; [done|]. split; [done|]. split; [done|]. right.
        by eexists.
    + rewrite bool_decide_eq_false_2 by done.
      eexists. split; [done|]. split; [done|]. split; [done|]. right.
      by eexists.
Qed.

Lemma ignore_reaches_existing_break_points_only_witness :
  exists st',
    MR_trace_cmd_ignore getopt_long_no_options 77
      {| spy_exists := [true; false; true]; MR_most_recent_spy_point := 2 |}
      ["ignore"; "1"] (sample_session [] [])
      = (KEEP_INTERACTING, st')
    /\ effects st' =
         [Err ("mdb: break point #1 does not exist." +:+ newline)].
Proof.
  destruct (ignore_reaches_existing_break_points_only getopt_long_no_options
              77
              {| spy_exists := [true; false; true];
                 MR_most_recent_spy_point := 2 |}
              ["ignore"; "1"] (sample_session [] [])
              MR_SPY_IGNORE_ENTRY 1 ["ignore"; "1"] (sample_session [] []))
    as (st' & Hrun & _ & _ & _).
  { reflexivity. }
  { intros [_ Hw]. vm_compute in Hw. discriminate. }
  exists st'. split; [done|].
  vm_compute in Hrun. injection Hrun as <-. reflexivity.
Defined.

(** ** Completion of command names *)

Lemma drop_S_of_cons {A} (l : list A) (k : nat) (x : A) (r : list A) :
  drop k l = x :: r -> drop (S k) l = r.
Proof.
  intros H. rewrite <- (Nat.add_1_r k), <- drop_drop, H. done.
Qed.

Lemma completions_from (MR_strneq : string -> string -> nat -> bool)
    (word : string) (word_len : nat) (infos : list MR_Trace_Command_Info) :
  forall k fuel,
    drop k MR_trace_command_infos = infos -> length infos <= fuel ->
    completions MR_strneq fuel word word_len k
    = matching_commands MR_strneq infos word word_len.
Proof.
  induction infos as [|info infos IH]; intros k fuel Hdrop Hfuel.
  - destruct fuel as [|fuel]; [done|]. simpl.
    unfold MR_trace_command_completer_next. by rewrite Hdrop.
  - destruct fuel as [|fuel]; [simpl in Hfuel; lia|].
    pose proof (drop_S_of_cons _ _ _ _ Hdrop) as Hdrop'.
    assert (Hnext :
      MR_trace_command_completer_next MR_strneq word word_len k =
      match MR_cmd_name info with
      | None => (None, S k)
      | Some command =>
        if bool_decide (is_Some (MR_cmd_category info))
           && MR_strneq word command word_len
        then (Some command, S k)
        else MR_trace_command_completer_next MR_strneq word word_len (S k)
      end).
    { unfold MR_trace_command_completer_next. rewrite Hdrop, Hdrop'. done. }
    change (completions MR_strneq (S fuel) word word_len k)
      with (match MR_trace_command_completer_next MR_strneq word word_len k
            with
            | (Some command, data) =>
              command :: completions MR_strneq fuel word word_len data
            | (None, _) => []
            end).
    rewrite Hnext. simpl matching_commands.
    destruct (MR_cmd_name info) as [command|]; [|done].
    destruct (bool_decide (is_Some (MR_cmd_category info))
              && MR_strneq word command word_len).
    + f_equal. apply IH; [done|]. simpl in Hfuel. lia.
    + rewrite <- (IH (S k) (S fuel) Hdrop'); [done|]. simpl in Hfuel. lia.
Qed.

Lemma matching_commands_entry (MR_strneq : string -> string -> nat -> bool)
    (word : string) (word_len : nat) (infos : list MR_Trace_Command_Info)
    (command : string) :
  command ∈ matching_commands MR_strneq infos word word_len ->
  exists info,
    info ∈ infos /\ MR_cmd_name info = Some command
    /\ is_Some (MR_cmd_category info)
    /\ MR_strneq word command word_len = true.
Proof.
  induction infos as [|info infos IH]; simpl; [by intros ?%elem_of_nil|].
  destruct (MR_cmd_name info) as [name|] eqn:Hname;
    [|by intros ?%elem_of_nil].
  destruct (bool_decide (is_Some (MR_cmd_category info))
            && MR_strneq word name word_len) eqn:Hcond.
  - intros [->|Hin]%elem_of_cons.
    + apply andb_true_iff in Hcond as [Hcat Hpre].
      apply bool_decide_eq_true in Hcat.
      exists info. repeat split; try done. by left.
    + destruct (IH Hin) as (info' & ? & ? & ? & ?).
      exists info'. repeat split; try done. by right.
  - intros Hin. destruct (IH Hin) as (info' & ? & ? & ? & ?).
    exists info'. repeat split; try done. by right.
Qed.

(** X10. Called again and again, the completer of command names
    offers exactly the commands of the table that have a category and start
    like the word typed, in the order of the table, and then returns NULL.
    Every name it offers is a command that the dispatcher accepts and that
    has a handler; the two reserved entries [NUMBER] and [EMPTY], which the
    dispatcher would call through a null pointer, are never offered. *)
Theorem completer_offers_the_commands_with_a_handler
    (MR_strneq : string -> string -> nat -> bool) (word : string)
    (word_len : nat) :
  let offered :=
    completions MR_strneq (length MR_trace_command_infos) word word_len 0 in
  offered = matching_commands MR_strneq MR_trace_command_infos word word_len
  /\ (forall command arguments,
        command ∈ offered ->
        MR_strneq word command word_len = true
        /\ exists info f,
             MR_trace_handle_cmd (command :: arguments) = CallHandler info f
             /\ MR_cmd_name info = Some command)
  /\ ("NUMBER" ∉ offered) /\ ("EMPTY" ∉ offered).
Proof.
  intros offered.
  assert (Hoff : offered
                 = matching_commands MR_strneq MR_trace_command_infos word
                     word_len).
  { by apply completions_from. }
  assert (Hentry : forall command,
            command ∈ offered ->
            exists info,
              MR_trace_valid_command command = Some info
              /\ MR_cmd_name info = Some command
              /\ is_Some (MR_cmd_function info)
              /\ MR_strneq word command word_len = true).
  { intros command Hin. rewrite Hoff in Hin.
    destruct (matching_commands_entry _ _ _ _ _ Hin)
      as (info & Htab & Hname & Hcat & Hpre).
    exists info.
    pose proof (proj1 (Forall_forall _ _) command_names_are_unique _ Htab)
      as Hlook.
    pose proof (proj1 (Forall_forall _ _) command_handlers_have_a_category
                  _ Htab) as Hfun.
    cbv beta in Hlook, Hfun. rewrite Hname in Hlook.
    repeat split; try done. by apply Hfun. }
  split; [done|]. split; [|split].
  - intros command arguments Hin.
    destruct (Hentry _ Hin) as (info & Hlook & Hname & [f Hf] & Hpre).
    split; [done|]. exists info, f. split; [|done].
    unfold MR_trace_handle_cmd. change (word_at (command :: arguments) 0)
      with command. by rewrite Hlook, Hf.
  - intros Hin. destruct (Hentry _ Hin) as (info & Hlook & _ & [f Hf] & _).
    vm_compute in Hlook. injection Hlook as <-. discriminate.
  - intros Hin. destruct (Hentry _ Hin) as (info & Hlook & _ & [f Hf] & _).
    vm_compute in Hlook. injection Hlook as <-. discriminate.
Qed.

(** ** The forward movement commands *)

Lemma movement_cmd_opts_loop_stop_event (codes : list (ascii * string))
    (cmd : MR_Trace_Cmd_Info) :
  MR_trace_stop_event (movement_cmd_opts_loop codes cmd).2
  = MR_trace_stop_event cmd.
Proof.
  revert cmd. induction codes as [|[c arg] codes IH]; intros cmd; [done|].
  simpl. repeat case_match; try done; by rewrite IH.
Qed.

Lemma MR_trace_options_movement_cmd_cases
    (MR_getopt_long : list string -> string -> list MR_option -> getopt_run)
    (cmd : MR_Trace_Cmd_Info) (words : list string) (st : session)
    (ok : bool) (cmd1 : MR_Trace_Cmd_Info) (words1 : list string)
    (st1 : session) :
  MR_trace_options_movement_cmd MR_getopt_long cmd words st
    = (ok, cmd1, words1, st1) ->
  MR_trace_cmd cmd1 = MR_trace_cmd cmd
  /\ MR_trace_stop_depth cmd1 = MR_trace_stop_depth cmd
  /\ MR_trace_stop_event cmd1 = MR_trace_stop_event cmd
  /\ st1 = (if ok then st else MR_trace_usage_cur_cmd st).
Proof.
  intros H.
  destruct (MR_trace_options_movement_cmd_keeps _ _ _ _ _ _ _ _ H) as [? ?].
  repeat (split; [done|]).
  unfold MR_trace_options_movement_cmd in H.
  pose proof (movement_cmd_opts_loop_stop_event
                (go_codes (MR_getopt_long words MR_TRACE_MOVEMENT_OPTS
                             MR_trace_movement_cmd_opts)) cmd) as Hev.
  destruct (movement_cmd_opts_loop _ cmd) as [[c|] cmd2];
    injection H as <- <- <- <-; done.
Qed.

Ltac movement_handler :=
  intros;
  match goal with
  | |- context [MR_trace_options_movement_cmd ?g ?c ?w ?s] =>
    let H := fresh "Hopts" in
    destruct (MR_trace_options_movement_cmd g c w s)
      as [[[[] ?cmd1] ?words1] ?st1] eqn:H;
    apply MR_trace_options_movement_cmd_cases in H as (? & ? & ? & ->)
  end;
  unfold MR_trace_usage_cur_cmd, MR_trace_do_noop;
  repeat case_match; simplify_eq; simpl in *; repeat split; try done;
  by eexists.

Section MovementFrame.

Variable MR_getopt_long :
  list string -> string -> list MR_option -> getopt_run.
Variable MR_port_is_final : MR_Trace_Port -> bool.
Variable MR_trace_is_unsigned : string -> option Z.
Variables (words : list string) (cmd : MR_Trace_Cmd_Info)
  (event_info : MR_Event_Info) (st : session).

Lemma MR_trace_cmd_step_outcome :
  movement_outcome MR_CMD_GOTO cmd st
    (MR_trace_cmd_step MR_getopt_long words cmd event_info st).
Proof. unfold MR_trace_cmd_step, movement_outcome. movement_handler. Qed.

Lemma MR_trace_cmd_goto_outcome :
  movement_outcome MR_CMD_GOTO cmd st
    (MR_trace_cmd_goto MR_getopt_long MR_trace_is_unsigned words cmd
       event_info st).
Proof. unfold MR_trace_cmd_goto, movement_outcome. movement_handler. Qed.

Lemma MR_trace_cmd_next_outcome :
  movement_outcome MR_CMD_NEXT cmd st
    (MR_trace_cmd_next MR_getopt_long MR_port_is_final words cmd event_info
       st).
Proof. unfold MR_trace_cmd_next, movement_outcome. movement_handler. Qed.

Lemma MR_trace_cmd_finish_outcome :
  movement_outcome MR_CMD_FINISH cmd st
    (MR_trace_cmd_finish MR_getopt_long MR_port_is_final words cmd event_info
       st).
Proof. unfold MR_trace_cmd_finish, movement_outcome. movement_handler. Qed.

Lemma MR_trace_cmd_exception_outcome :
  movement_outcome MR_CMD_EXCP cmd st
    (MR_trace_cmd_exception MR_getopt_long words cmd event_info st).
Proof. unfold MR_trace_cmd_exception, movement_outcome. movement_handler. Qed.

Lemma MR_trace_cmd_return_outcome :
  movement_outcome MR_CMD_RETURN cmd st
    (MR_trace_cmd_return MR_getopt_long words cmd event_info st).
Proof. unfold MR_trace_cmd_return, movement_outcome. movement_handler. Qed.

Lemma MR_trace_cmd_forward_outcome :
  movement_outcome MR_CMD_RESUME_FORWARD cmd st
    (MR_trace_cmd_forward MR_getopt_long words cmd event_info st).
Proof. unfold MR_trace_cmd_forward, movement_outcome. movement_handler. Qed.

Lemma MR_trace_cmd_mindepth_outcome :
  movement_outcome MR_CMD_MIN_DEPTH cmd st
    (MR_trace_cmd_mindepth MR_getopt_long words cmd event_info st).
Proof. unfold MR_trace_cmd_mindepth, movement_outcome. movement_handler. Qed.

Lemma MR_trace_cmd_maxdepth_outcome :
  movement_outcome MR_CMD_MAX_DEPTH cmd st
    (MR_trace_cmd_maxdepth MR_getopt_long words cmd event_info st).
Proof. unfold MR_trace_cmd_maxdepth, movement_outcome. movement_handler. Qed.

End MovementFrame.

(** X11. The nine forward movement commands of the table
    that are modelled ([step], [goto], [next], [finish], [exception],
    [return], [forward], [mindepth], [maxdepth]) read no input and change no
    setting. When one of them is refused (bad options, bad arguments, a
    no-op at this port, a past event), the dialogue goes on, the kind of
    the decision, its stop depth and its stop event are as they were, and
    exactly one message on [MR_mdb_err] says why. When it is accepted, the
    decision has the kind that belongs to the command and nothing is
    written. *)
Theorem refused_movement_commands_keep_the_decision
    (MR_getopt : list string -> string -> getopt_run)
    (MR_getopt_long : list string -> string -> list MR_option -> getopt_run)
    (MR_port_is_final : MR_Trace_Port -> bool)
    (MR_trace_is_unsigned : string -> option Z)
    (f : Handler.t) (kind : MR_Trace_Cmd_Type) (words : list string)
    (cmd : MR_Trace_Cmd_Info) (event_info : MR_Event_Info) (st : session) :
  (f, kind) ∈
    [ (Handler.MR_trace_cmd_step, MR_CMD_GOTO);
      (Handler.MR_trace_cmd_goto, MR_CMD_GOTO);
      (Handler.MR_trace_cmd_next, MR_CMD_NEXT);
      (Handler.MR_trace_cmd_finish, MR_CMD_FINISH);
      (Handler.MR_trace_cmd_exception, MR_CMD_EXCP);
      (Handler.MR_trace_cmd_return, MR_CMD_RETURN);
      (Handler.MR_trace_cmd_forward, MR_CMD_RESUME_FORWARD);
      (Handler.MR_trace_cmd_mindepth, MR_CMD_MIN_DEPTH);
      (Handler.MR_trace_cmd_maxdepth, MR_CMD_MAX_DEPTH) ] ->
  exists next cmd' st',
    call_handler MR_getopt MR_getopt_long MR_port_is_final
      MR_trace_is_unsigned f words cmd event_info st
    = Some (Returns next, cmd', st')
    /\ MR_line_queue st' = MR_line_queue st /\ mdb_in st' = mdb_in st
    /\ MR_echo_commands st' = MR_echo_commands st
    /\ MR_scroll_control st' = MR_scroll_control st
    /\ MR_scroll_limit st' = MR_scroll_limit st
    /\ MR_scroll_next st' = MR_scroll_next st
    /\ MR_default_print_level st' = MR_default_print_level st
    /\ match next with
       | KEEP_INTERACTING =>
         MR_trace_cmd cmd' = MR_trace_cmd cmd
         /\ MR_trace_stop_depth cmd' = MR_trace_stop_depth cmd
         /\ MR_trace_stop_event cmd' = MR_trace_stop_event cmd
         /\ exists msg, effects st' = effects st ++ [Err msg]
       | STOP_INTERACTING =>
         MR_trace_cmd cmd' = kind /\ effects st' = effects st
       end.
Proof.
  intros Hin.
  assert (Hgen : forall r,
            movement_outcome kind cmd st r ->
            exists next cmd' st',
              Some (Returns r.1.1, r.1.2, r.2) = Some (Returns next, cmd', st')
              /\ MR_line_queue st' = MR_line_queue st
              /\ mdb_in st' = mdb_in st
              /\ MR_echo_commands st' = MR_echo_commands st
              /\ MR_scroll_control st' = MR_scroll_control st
              /\ MR_scroll_limit st' = MR_scroll_limit st
              /\ MR_scroll_next st' = MR_scroll_next st
              /\ MR_default_print_level st' = MR_default_print_level st
              /\ match next with
                 | KEEP_INTERACTING =>
                   MR_trace_cmd cmd' = MR_trace_cmd cmd
                   /\ MR_trace_stop_depth cmd' = MR_trace_stop_depth cmd
                   /\ MR_trace_stop_event cmd' = MR_trace_stop_event cmd
                   /\ exists msg, effects st' = effects st ++ [Err msg]
                 | STOP_INTERACTING =>
                   MR_trace_cmd cmd' = kind /\ effects st' = effects st
                 end).
  { intros [[next cmd'] st'] Hout. exists next, cmd', st'. split; [done|].
    destruct next; simpl in Hout.
    - destruct Hout as (? & ? & ? & msg & ->). repeat split; try done.
      by exists msg.
    - destruct Hout as [? ->]. done. }
  repeat (apply elem_of_cons in Hin as [[= -> ->]|Hin];
          [apply Hgen;
           first [ apply MR_trace_cmd_step_outcome
                 | apply MR_trace_cmd_goto_outcome
                 | apply MR_trace_cmd_next_outcome
                 | apply MR_trace_cmd_finish_outcome
                 | apply MR_trace_cmd_exception_outcome
                 | apply MR_trace_cmd_return_outcome
                 | apply MR_trace_cmd_forward_outcome
                 | apply MR_trace_cmd_mindepth_outcome
                 | apply MR_trace_cmd_maxdepth_outcome ]|]).
  by apply elem_of_nil in Hin.
Qed.

Lemma refused_movement_commands_keep_the_decision_witness :
  exists next cmd' st',
    call_handler getopt_no_options getopt_long_no_options
      (fun port => bool_decide (port = MR_PORT_EXIT)) (fun _ => None)
      Handler.MR_trace_cmd_finish ["finish"; "1"; "2"] sample_cmd
      (sample_event 4 MR_PORT_CALL) (sample_session ["print *"] [])
    = Some (Returns next, cmd', st')
    /\ next = KEEP_INTERACTING
    /\ MR_line_queue st' = ["print *"]
    /\ MR_trace_cmd cmd' = MR_CMD_GOTO.
Proof.
  destruct (refused_movement_commands_keep_the_decision getopt_no_options
              getopt_long_no_options
              (fun port => bool_decide (port = MR_PORT_EXIT)) (fun _ => None)
              Handler.MR_trace_cmd_finish MR_CMD_FINISH ["finish"; "1"; "2"]
              sample_cmd (sample_event 4 MR_PORT_CALL)
              (sample_session ["print *"] []))
    as (next & cmd' & st' & Hrun & Hq & _ & _ & _ & _ & _ & _ & Hout).
  { set_solver. }
  exists next, cmd', st'. split; [done|].
  vm_compute in Hrun. injection Hrun as <- <- <-. done.
Defined.

Lemma digits_value_nonneg (s : string) (acc n : Z) :
  (0 <= acc)%Z -> digits_value acc s = Some n -> (0 <= n)%Z.
Proof.
  revert acc. induction s as [|c s IH]; intros acc Hacc; simpl.
  - by intros [= <-].
  - destruct (MR_isdigit c) eqn:Hd; [|done]. apply IH.
    unfold MR_isdigit in Hd. apply andb_true_iff in Hd as [Hlo _].
    apply N.leb_le in Hlo. lia.
Qed.

(** What [MR_trace_is_natural_number] gives is an [int], and it is the
    number typed when an [int] holds that number. *)
Lemma to_int_range (z : Z) : (- 2 ^ 31 <= to_int z < 2 ^ 31)%Z.
Proof.
  unfold to_int, int_bits.
  change (2 ^ (32 - 1))%Z with 2147483648%Z.
  change (2 ^ 32)%Z with 4294967296%Z.
  change (2 ^ 31)%Z with 2147483648%Z.
  pose proof (Z.mod_pos_bound (z + 2147483648) 4294967296). lia.
Qed.

Lemma to_int_small (z : Z) : (- 2 ^ 31 <= z < 2 ^ 31)%Z -> to_int z = z.
Proof.
  unfold to_int, int_bits.
  change (2 ^ (32 - 1))%Z with 2147483648%Z.
  change (2 ^ 32)%Z with 4294967296%Z.
  change (2 ^ 31)%Z with 2147483648%Z.
  intros Hz. rewrite Z.mod_small by lia. lia.
Qed.

Lemma MR_trace_is_natural_number_int (word : string) (n : Z) :
  MR_trace_is_natural_number word = Some n ->
  (- 2 ^ 31 <= n < 2 ^ 31)%Z
  /\ forall N,
       digits_value 0 word = Some N -> (N < 2 ^ 31)%Z ->
       n = N /\ (0 <= N)%Z.
Proof.
  unfold MR_trace_is_natural_number. destruct word as [|c word]; [done|].
  destruct (digits_value 0 (String c word)) as [N'|] eqn:HN; [|done].
  intros [= <-]. split; [apply to_int_range|].
  intros N [= <-] Hsmall.
  pose proof (digits_value_nonneg _ _ _ (Z.le_refl 0) HN) as Hpos.
  split; [|done]. apply to_int_small.
  change (2 ^ 31)%Z with 2147483648%Z in *. lia.
Qed.

(** X12. Where [step] and [goto] send the program, once the
    options are accepted. [goto N] is accepted only for an event after the
    current one and stops at event N; for the current event or a past one
    it writes a message and the dialogue goes on. [step] stops one event
    ahead. [step N] adds to the current event the [int] [n] that the
    handler gets for N: for a number N that an [int] holds (N below 2^31),
    [n] is N and the program stops N events ahead (modulo the size of
    [MR_Unsigned]), N = 0 included: the stop event is then the current
    event, which [goto] refuses. *)
Theorem step_and_goto_targets
    (MR_getopt_long : list string -> string -> list MR_option -> getopt_run)
    (MR_trace_is_unsigned : string -> option Z)
    (words : list string) (cmd : MR_Trace_Cmd_Info)
    (event_info : MR_Event_Info) (st : session) (strict : bool)
    (cmd1 : MR_Trace_Cmd_Info) (words1 : list string) (st1 : session) :
  MR_trace_options_movement_cmd MR_getopt_long
    (set_trace_print_level (MR_default_print_level st)
       (set_trace_strict strict cmd)) words st
    = (true, cmd1, words1, st1) ->
  let now := MR_event_number event_info in
  let goto :=
    MR_trace_cmd_goto MR_getopt_long MR_trace_is_unsigned words cmd
      event_info st in
  let step := MR_trace_cmd_step MR_getopt_long words cmd event_info st in
  (strict = true ->
   forall w0 w1 n,
     words1 = [w0; w1] -> MR_trace_is_unsigned w1 = Some n ->
     ((now < n)%Z ->
      goto = (STOP_INTERACTING,
              set_trace_stop_event n (set_trace_cmd MR_CMD_GOTO cmd1), st1))
     /\ ((n <= now)%Z ->
         goto = (KEEP_INTERACTING, cmd1,
                 write (Err ("The debugger cannot go to a past event." +:+
                             newline)) st1)))
  /\ (strict = true ->
      forall cmd' st',
        goto = (STOP_INTERACTING, cmd', st') ->
        MR_trace_cmd cmd' = MR_CMD_GOTO
        /\ (now < MR_trace_stop_event cmd')%Z)
  /\ (strict = false ->
      forall w0,
        words1 = [w0] ->
        step = (STOP_INTERACTING,
                set_trace_stop_event (to_MR_Unsigned (now + 1))
                  (set_trace_cmd MR_CMD_GOTO cmd1), st1))
  /\ (strict = false ->
      forall w0 w1 n,
        words1 = [w0; w1] -> MR_trace_is_natural_number w1 = Some n ->
        step = (STOP_INTERACTING,
                set_trace_stop_event (to_MR_Unsigned (now + n))
                  (set_trace_cmd MR_CMD_GOTO cmd1), st1)
        /\ (- 2 ^ 31 <= n < 2 ^ 31)%Z
        /\ forall N,
             digits_value 0 w1 = Some N -> (N < 2 ^ 31)%Z ->
             n = N /\ (0 <= N)%Z
             /\ ((0 <= now)%Z -> (now + N < 2 ^ 64)%Z ->
                 to_MR_Unsigned (now + n) = (now + N)%Z)).
Proof.
  intros Hopts now goto step. split; [|split; [|split]].
  - intros -> w0 w1 n -> Hn. subst goto. unfold MR_trace_cmd_goto.
    rewrite Hopts. simpl. change (word_at [w0; w1] 1) with w1. rewrite Hn.
    split; intros Hcmp.
    + by rewrite bool_decide_eq_true_2.
    + rewrite bool_decide_eq_false_2; [done|]. fold now. lia.
  - intros -> cmd' st'. subst goto. unfold MR_trace_cmd_goto.
    rewrite Hopts.
    destruct (decide (length words1 = 2)); [|done].
    destruct (MR_trace_is_unsigned (word_at words1 1)) as [n|]; [|done].
    case_bool_decide; [|done]. intros [= <- <-]. done.
  - intros -> w0 ->. subst step. unfold MR_trace_cmd_step.
    by rewrite Hopts.
  - intros -> w0 w1 n -> Hn. subst step. unfold MR_trace_cmd_step.
    rewrite Hopts. simpl. change (word_at [w0; w1] 1) with w1. rewrite Hn.
    split; [done|].
    destruct (MR_trace_is_natural_number_int _ _ Hn) as [Hint Hfits].
    split; [done|]. intros N HN Hsmall.
    destruct (Hfits N HN Hsmall) as [-> Hpos]. repeat split; [done|].
    intros Hnow Hbound. unfold to_MR_Unsigned.
    apply Z.mod_small. unfold MR_Unsigned_bits. lia.
Qed.

Lemma step_and_goto_targets_witness :
  MR_trace_cmd_step sample_getopt_long ["step"; "25"] sample_cmd
    (sample_event 4 MR_PORT_CALL) (sample_session [] [])
  = (STOP_INTERACTING,
     set_trace_stop_event 35
       (set_trace_cmd MR_CMD_GOTO
          (set_trace_print_level MR_PRINT_LEVEL_SOME
             (set_trace_strict false sample_cmd))),
     sample_session [] []).
Proof.
  apply (proj1 (proj2 (proj2 (proj2
           (step_and_goto_targets sample_getopt_long (fun _ => None)
              ["step"; "25"] sample_cmd (sample_event 4 MR_PORT_CALL)
              (sample_session [] []) false _ _ _ eq_refl)))
           eq_refl "step" "25" 25%Z eq_refl eq_refl)).
Defined.

(** X13. [next] and [finish] decide alike and differ in the
    kind of the decision only. With the options accepted and D the stop
    depth (the current depth, or the current depth minus the number typed):
    at depth D on a final port the command is a no-op, the message [This
    command is a no-op from this port.] is written to [MR_mdb_err] and the
    dialogue goes on; in every other case the decision is NEXT, or FINISH,
    with stop depth D, and nothing is written. For a number between 0 and
    the current depth, D is their difference. *)
Theorem next_and_finish_cases
    (MR_getopt_long : list string -> string -> list MR_option -> getopt_run)
    (MR_port_is_final : MR_Trace_Port -> bool)
    (words : list string) (cmd : MR_Trace_Cmd_Info)
    (event_info : MR_Event_Info) (st : session)
    (cmd1 : MR_Trace_Cmd_Info) (words1 : list string) (st1 : session)
    (stop_depth : Z) :
  MR_trace_options_movement_cmd MR_getopt_long
    (set_trace_print_level (MR_default_print_level st)
       (set_trace_strict true cmd)) words st
    = (true, cmd1, words1, st1) ->
  fail_stop_depth (MR_call_depth event_info) words1 = Some stop_depth ->
  let D := to_MR_Unsigned stop_depth in
  let depth := MR_call_depth event_info in
  let final := MR_port_is_final (MR_trace_port event_info) in
  let next :=
    MR_trace_cmd_next MR_getopt_long MR_port_is_final words cmd event_info st
  in
  let finish :=
    MR_trace_cmd_finish MR_getopt_long MR_port_is_final words cmd event_info
      st in
  let noop :=
    write (Err ("This command is a no-op from this port." +:+ newline)) st1 in
  (depth = D -> final = true ->
   next = (KEEP_INTERACTING, cmd1, noop)
   /\ finish = (KEEP_INTERACTING, cmd1, noop))
  /\ (~ (depth = D /\ final = true) ->
      next = (STOP_INTERACTING,
              set_trace_stop_depth D (set_trace_cmd MR_CMD_NEXT cmd1), st1)
      /\ finish = (STOP_INTERACTING,
                   set_trace_stop_depth D (set_trace_cmd MR_CMD_FINISH cmd1),
                   st1))
  /\ (forall w0 w1 n,
        words1 = [w0; w1] -> MR_trace_is_natural_number w1 = Some n ->
        (0 <= n <= depth)%Z -> (depth < 2 ^ 31)%Z -> D = (depth - n)%Z).
Proof.
  intros Hopts Hdepth D depth final next finish noop.
  subst next finish noop. unfold MR_trace_cmd_next, MR_trace_cmd_finish.
  rewrite Hopts, Hdepth. fold depth D final. split; [|split].
  - intros HD ->. by rewrite bool_decide_eq_true_2.
  - intros Hnot.
    replace (bool_decide (depth = D) && final) with false; [done|].
    symmetry. apply andb_false_iff.
    destruct final; [left|by right].
    apply bool_decide_eq_false. intros HD. by apply Hnot.
  - intros w0 w1 n -> Hn Hrange Hsmall.
    destruct (fail_stop_depth_in_range depth n w0 w1 Hn Hrange Hsmall)
      as [Hsd HD].
    fold depth in Hdepth. rewrite Hsd in Hdepth. injection Hdepth as <-.
    done.
Qed.

Lemma next_and_finish_cases_witness :
  MR_trace_cmd_next sample_getopt_long
    (fun port => bool_decide (port = MR_PORT_EXIT)) ["next"] sample_cmd
    (sample_event 4 MR_PORT_EXIT) (sample_session [] [])
  = (KEEP_INTERACTING,
     set_trace_print_level MR_PRINT_LEVEL_SOME
       (set_trace_strict true sample_cmd),
     write (Err ("This command is a no-op from this port." +:+ newline))
       (sample_session [] []))
  /\ MR_trace_cmd_finish sample_getopt_long
       (fun port => bool_decide (port = MR_PORT_EXIT)) ["next"]
       sample_cmd (sample_event 4 MR_PORT_EXIT) (sample_session [] [])
     = (KEEP_INTERACTING,
        set_trace_print_level MR_PRINT_LEVEL_SOME
          (set_trace_strict true sample_cmd),
        write (Err ("This command is a no-op from this port." +:+ newline))
          (sample_session [] [])).
Proof.
  apply (proj1
           (next_and_finish_cases sample_getopt_long
              (fun port => bool_decide (port = MR_PORT_EXIT)) ["next"]
              sample_cmd (sample_event 4 MR_PORT_EXIT) (sample_session [] [])
              _ _ _ 4%Z eq_refl eq_refl)); reflexivity.
Defined.

(** ** Settings *)

Lemma MR_trace_options_movement_cmd_no_options
    (MR_getopt_long : list string -> string -> list MR_option -> getopt_run)
    (cmd : MR_Trace_Cmd_Info) (words : list string) (st : session) :
  go_codes (MR_getopt_long words MR_TRACE_MOVEMENT_OPTS
              MR_trace_movement_cmd_opts) = [] ->
  MR_trace_options_movement_cmd MR_getopt_long cmd words st
  = (true, cmd,
     go_words (MR_getopt_long words MR_TRACE_MOVEMENT_OPTS
                 MR_trace_movement_cmd_opts), st).
Proof. intros H. unfold MR_trace_options_movement_cmd. by rewrite H. Qed.

(** X14. [printlevel none], [printlevel some] and [printlevel
    all] read no input and set the default print level, and that level is
    the print level of the decision of each of the nine commands [step],
    [goto], [next], [finish], [exception], [return], [forward], [mindepth]
    and [maxdepth] given later and accepted without options of its own.
    The decision is strict for all of these but [step]. (The other
    movement commands do not take the default level: [continue] chooses its
    level by the strictness, and [retry] is silent where it must first
    finish the call or let it fail.) *)
Theorem printlevel_is_the_level_of_later_movements
    (MR_getopt : list string -> string -> getopt_run)
    (MR_getopt_long : list string -> string -> list MR_option -> getopt_run)
    (MR_port_is_final : MR_Trace_Port -> bool)
    (MR_trace_is_unsigned : string -> option Z)
    (w : string) (name : string) (level : MR_Trace_Print_Level)
    (st : session) :
  (name, level) ∈ [ ("none", MR_PRINT_LEVEL_NONE);
                    ("some", MR_PRINT_LEVEL_SOME);
                    ("all", MR_PRINT_LEVEL_ALL) ] ->
  exists st1,
    MR_trace_cmd_printlevel [w; name] st = (KEEP_INTERACTING, st1)
    /\ MR_default_print_level st1 = level
    /\ MR_line_queue st1 = MR_line_queue st /\ mdb_in st1 = mdb_in st
    /\ forall f strict words cmd event_info cmd' st',
         (f, strict) ∈
           [ (Handler.MR_trace_cmd_step, false);
             (Handler.MR_trace_cmd_goto, true);
             (Handler.MR_trace_cmd_next, true);
             (Handler.MR_trace_cmd_finish, true);
             (Handler.MR_trace_cmd_exception, true);
             (Handler.MR_trace_cmd_return, true);
             (Handler.MR_trace_cmd_forward, true);
             (Handler.MR_trace_cmd_mindepth, true);
             (Handler.MR_trace_cmd_maxdepth, true) ] ->
         go_codes (MR_getopt_long words MR_TRACE_MOVEMENT_OPTS
                     MR_trace_movement_cmd_opts) = [] ->
         call_handler MR_getopt MR_getopt_long MR_port_is_final
           MR_trace_is_unsigned f words cmd event_info st1
         = Some (Returns STOP_INTERACTING, cmd', st') ->
         MR_trace_print_level cmd' = level /\ MR_trace_strict cmd' = strict.
Proof.
  intros Hname.
  assert (Hset : exists st1,
            MR_trace_cmd_printlevel [w; name] st = (KEEP_INTERACTING, st1)
            /\ MR_default_print_level st1 = level
            /\ MR_line_queue st1 = MR_line_queue st
            /\ mdb_in st1 = mdb_in st).
  { unfold MR_trace_cmd_printlevel, write_if_interacting.
    repeat (apply elem_of_cons in Hname as [[= -> ->]|Hname];
            [simpl; destruct (MR_trace_internal_interacting st);
             by eexists|]).
    by apply elem_of_nil in Hname. }
  destruct Hset as (st1 & Hrun & Hlevel & Hq & Hin).
  exists st1. repeat (split; [done|]).
  intros f strict words cmd event_info cmd' st' Hf Hcodes.
  pose proof (fun c => MR_trace_options_movement_cmd_no_options
                         MR_getopt_long c words st1 Hcodes) as Hopts.
  repeat (apply elem_of_cons in Hf as [[= -> ->]|Hf];
          [simpl;
           unfold MR_trace_cmd_step, MR_trace_cmd_goto, MR_trace_cmd_next,
             MR_trace_cmd_finish, MR_trace_cmd_exception, MR_trace_cmd_return,
             MR_trace_cmd_forward, MR_trace_cmd_mindepth,
             MR_trace_cmd_maxdepth;
           rewrite Hopts, Hlevel; repeat case_match; simpl; intros ?;
           simplify_eq; done|]).
  by apply elem_of_nil in Hf.
Qed.

Lemma printlevel_is_the_level_of_later_movements_witness :
  exists st1 cmd' st',
    MR_trace_cmd_printlevel ["printlevel"; "all"] (sample_session [] [])
    = (KEEP_INTERACTING, st1)
    /\ call_handler sample_getopt sample_getopt_long (fun _ => false)
         (fun _ => None) Handler.MR_trace_cmd_finish ["finish"; "1"]
         sample_cmd (sample_event 4 MR_PORT_CALL) st1
       = Some (Returns STOP_INTERACTING, cmd', st')
    /\ MR_trace_print_level cmd' = MR_PRINT_LEVEL_ALL
    /\ MR_trace_strict cmd' = true.
Proof.
  destruct (printlevel_is_the_level_of_later_movements sample_getopt
              sample_getopt_long (fun _ => false) (fun _ => None)
              "printlevel" "all" MR_PRINT_LEVEL_ALL (sample_session [] []))
    as (st1 & Hrun & _ & _ & _ & Hlater).
  { set_solver. }
  exists st1.
  destruct (call_handler sample_getopt sample_getopt_long (fun _ => false)
              (fun _ => None) Handler.MR_trace_cmd_finish ["finish"; "1"]
              sample_cmd (sample_event 4 MR_PORT_CALL) st1)
    as [[[[next|status] cmd'] st']|] eqn:Hcall;
    vm_compute in Hrun; injection Hrun as <-; vm_compute in Hcall;
    try discriminate Hcall.
  injection Hcall as <- <- <-.
  eexists _, _. split; [reflexivity|]. split; [reflexivity|].
  eapply (Hlater Handler.MR_trace_cmd_finish true ["finish"; "1"] sample_cmd
            (sample_event 4 MR_PORT_CALL));
    [repeat constructor|reflexivity|reflexivity].
Defined.

(** X15. [scroll off] switches the pauses off for good: whatever
    the page size and the count of lines, any number of event reports is
    then printed with no [--more--] prompt and nothing is read. [scroll N]
    sets the page size to the [int] [n] that the handler gets for N, which
    is N for a number that an [int] holds (N below 2^31), and touches
    neither the switch nor the count of lines, so that with scrolling on,
    reports are printed without a pause as long as the count stays within
    [n - 1]. Neither command reads input. *)
Theorem scroll_command_governs_the_pauses
    (MR_trace_var_print_list : list string -> Z) (w : string) (st : session)
    (cmd : MR_Trace_Cmd_Info) (events : list MR_Event_Info) :
  let reports := (fun e => EventReport (MR_event_number e)) <$> events in
  (exists st1,
     MR_trace_cmd_scroll [w; "off"] st = (KEEP_INTERACTING, st1)
     /\ MR_line_queue st1 = MR_line_queue st /\ mdb_in st1 = mdb_in st
     /\ exists st2,
          report_events MR_trace_var_print_list cmd events st1
          = Some (Reported cmd st2)
          /\ effects st2 = effects st1 ++ reports
          /\ MR_line_queue st2 = MR_line_queue st /\ mdb_in st2 = mdb_in st)
  /\ (forall number n,
        MR_trace_is_natural_number number = Some n ->
        (- 2 ^ 31 <= n < 2 ^ 31)%Z
        /\ (forall N,
              digits_value 0 number = Some N -> (N < 2 ^ 31)%Z -> n = N)
        /\ exists st1,
          MR_trace_cmd_scroll [w; number] st = (KEEP_INTERACTING, st1)
          /\ MR_scroll_limit st1 = n
          /\ MR_scroll_control st1 = MR_scroll_control st
          /\ MR_scroll_next st1 = MR_scroll_next st
          /\ MR_line_queue st1 = MR_line_queue st /\ mdb_in st1 = mdb_in st
          /\ ((MR_scroll_next st + Z.of_nat (length events) <= n - 1)%Z ->
              exists st2,
                report_events MR_trace_var_print_list cmd events st1
                = Some (Reported cmd st2)
                /\ effects st2 = effects st1 ++ reports
                /\ MR_line_queue st2 = MR_line_queue st
                /\ mdb_in st2 = mdb_in st)).
Proof.
  intros reports. split.
  - assert (Hset : exists st1,
              MR_trace_cmd_scroll [w; "off"] st = (KEEP_INTERACTING, st1)
              /\ MR_line_queue st1 = MR_line_queue st
              /\ mdb_in st1 = mdb_in st /\ MR_scroll_control st1 = false).
    { unfold MR_trace_cmd_scroll, write_if_interacting. simpl.
      destruct (MR_trace_internal_interacting st); by eexists. }
    destruct Hset as (st1 & Hrun & Hq & Hin & Hoff).
    exists st1. repeat (split; [done|]).
    destruct (reports_without_pause MR_trace_var_print_list cmd events st1)
      as (st2 & Hrep & Heff & Hq2 & Hin2 & _); [by left|].
    exists st2. by rewrite Hq2, Hin2.
  - intros number n Hn.
    destruct (MR_trace_is_natural_number_int _ _ Hn) as [Hint Hfits].
    split; [done|]. split; [intros N HN Hsmall; by apply Hfits|].
    assert (Hword : number <> "off" /\ number <> "on").
    { split; intros ->; vm_compute in Hn; discriminate. }
    destruct Hword as [Hoff Hon].
    assert (Hset : exists st1,
              MR_trace_cmd_scroll [w; number] st = (KEEP_INTERACTING, st1)
              /\ MR_scroll_limit st1 = n
              /\ MR_scroll_control st1 = MR_scroll_control st
              /\ MR_scroll_next st1 = MR_scroll_next st
              /\ MR_line_queue st1 = MR_line_queue st
              /\ mdb_in st1 = mdb_in st).
    { unfold MR_trace_cmd_scroll, write_if_interacting. simpl.
      change (word_at [w; number] 1) with number.
      apply String.eqb_neq in Hoff, Hon. rewrite Hoff, Hon, Hn. simpl.
      destruct (MR_trace_internal_interacting st); by eexists. }
    destruct Hset as (st1 & Hrun & Hl & Hc & Hnx & Hq & Hin).
    exists st1. repeat (split; [done|]). intros Hroom.
    destruct (reports_without_pause MR_trace_var_print_list cmd events st1)
      as (st2 & Hrep & Heff & Hq2 & Hin2 & _).
    { right. rewrite Hnx, Hl. done. }
    exists st2. by rewrite Hq2, Hin2.
Qed.

Lemma scroll_command_governs_the_pauses_witness :
  exists st1,
    MR_trace_cmd_scroll ["scroll"; "3"] (sample_session [] [])
    = (KEEP_INTERACTING, st1)
    /\ MR_scroll_limit st1 = 3%Z
    /\ exists st2,
         report_events (fun _ => 0%Z) sample_cmd
           [sample_event 1 MR_PORT_CALL; sample_event 1 MR_PORT_EXIT] st1
         = Some (Reported sample_cmd st2)
         /\ effects st2
            = effects st1 ++ [EventReport 10; EventReport 10].
Proof.
  destruct (proj2 (scroll_command_governs_the_pauses (fun _ => 0%Z) "scroll"
                     (sample_session [] []) sample_cmd
                     [sample_event 1 MR_PORT_CALL;
                      sample_event 1 MR_PORT_EXIT]) "3" 3%Z eq_refl)
    as (_ & _ & st1 & Hrun & Hl & _ & _ & _ & _ & Hrep).
  exists st1. repeat (split; [done|]).
  destruct Hrep as (st2 & Hrep & Heff & _); [simpl; lia|].
  by exists st2.
Defined.

(** X16. With command echo switched on by [echo on], a line read
    from [MR_mdb_in] is written back to [MR_mdb_out] after the prompt,
    followed by a newline; a line taken from the queue is not echoed and
    shows no prompt. After [echo off] a line read from [MR_mdb_in] gives the
    prompt only. The two commands read no input themselves. *)
Theorem echo_repeats_typed_lines_only (w : string) (st : session)
    (prompt : string) :
  exists st_on st_off,
    MR_trace_cmd_echo [w; "on"] st = (KEEP_INTERACTING, st_on)
    /\ MR_trace_cmd_echo [w; "off"] st = (KEEP_INTERACTING, st_off)
    /\ MR_line_queue st_on = MR_line_queue st /\ mdb_in st_on = mdb_in st
    /\ MR_line_queue st_off = MR_line_queue st /\ mdb_in st_off = mdb_in st
    /\ (forall line rest,
          MR_line_queue st = [] -> mdb_in st = line :: rest ->
          (exists st2,
             MR_trace_getline prompt st_on = (Some line, st2)
             /\ effects st2
                = effects st_on ++ [Prompt prompt; Out line; Out newline])
          /\ exists st2,
               MR_trace_getline prompt st_off = (Some line, st2)
               /\ effects st2 = effects st_off ++ [Prompt prompt])
    /\ (forall line rest,
          MR_line_queue st = line :: rest ->
          exists st2,
            MR_trace_getline prompt st_on = (Some line, st2)
            /\ effects st2 = effects st_on /\ mdb_in st2 = mdb_in st).
Proof.
  assert (Hon : exists st_on,
            MR_trace_cmd_echo [w; "on"] st = (KEEP_INTERACTING, st_on)
            /\ MR_line_queue st_on = MR_line_queue st
            /\ mdb_in st_on = mdb_in st /\ MR_echo_commands st_on = true).
  { unfold MR_trace_cmd_echo, write_if_interacting. simpl.
    destruct (MR_echo_commands st) eqn:He; simpl;
      destruct (MR_trace_internal_interacting st); by eexists. }
  assert (Hoff : exists st_off,
            MR_trace_cmd_echo [w; "off"] st = (KEEP_INTERACTING, st_off)
            /\ MR_line_queue st_off = MR_line_queue st
            /\ mdb_in st_off = mdb_in st /\ MR_echo_commands st_off = false).
  { unfold MR_trace_cmd_echo, write_if_interacting. simpl.
    destruct (MR_trace_internal_interacting st); by eexists. }
  destruct Hon as (st_on & Hrun_on & Hq_on & Hin_on & He_on).
  destruct Hoff as (st_off & Hrun_off & Hq_off & Hin_off & He_off).
  exists st_on, st_off. repeat (split; [done|]). split.
  - intros line rest Hq Hin. split.
    + unfold MR_trace_getline, MR_trace_getline_queue, MR_trace_readline.
      rewrite Hq_on, Hq. simpl. rewrite Hin_on, Hin. simpl. rewrite He_on.
      eexists. split; [done|]. simpl. by rewrite <- !app_assoc.
    + unfold MR_trace_getline, MR_trace_getline_queue, MR_trace_readline.
      rewrite Hq_off, Hq. simpl. rewrite Hin_off, Hin. simpl. rewrite He_off.
      eexists. split; [done|]. done.
  - intros line rest Hq.
    unfold MR_trace_getline, MR_trace_getline_queue. rewrite Hq_on, Hq.
    eexists. split; [done|]. done.
Qed.

(** ** The alias command *)

Lemma split_number_prefix_count (raw : list string) (n : nat)
    (raw' : list string) (n' : nat) :
  n <= length raw -> split_number_prefix raw n = Scanned (raw', n') ->
  n' <= length raw'.
Proof.
  intros Hn. unfold split_number_prefix.
  destruct (bool_decide (0 < n) && MR_isdigit (first_char (word_at raw 0)));
    [|by intros [= <- <-]].
  destruct (number_prefix (word_at raw 0) 0 "") as [[count_buf s]| |];
    [|done..].
  destruct (negb (Ascii.eqb (first_char s) NUL)); [|by intros [= <- <-]].
  intros [= <- <-]. rewrite !length_insert.
  pose proof (MR_ensure_big_enough_length n raw MR_INIT_WORD_COUNT "") as Hbig.
  rewrite (shift_words_up_spec _ _ Hbig). simpl.
  rewrite length_app, length_take, length_drop. lia.
Qed.

Lemma MR_trace_parse_line_count (line : string) (words : list string)
    (n : nat) :
  MR_trace_parse_line line = Scanned (words, n) -> n <= length words.
Proof.
  unfold MR_trace_parse_line.
  destruct (MR_trace_break_into_words line) as [[raw k]| |] eqn:Hraw;
    [|done..].
  destruct (MR_trace_break_into_words_words _ _ _ Hraw) as [Hk _].
  destruct (split_number_prefix raw k) as [[raw' k']| |] eqn:Hsplit; [|done..].
  pose proof (split_number_prefix_count _ _ _ _ Hk Hsplit) as Hk'.
  unfold swap_number_first. case_match; intros [= <- <-];
    by rewrite ?length_insert.
Qed.

(** X17. The [alias] command keeps the alias table well formed:
    it reads no input and adds or replaces at most the alias it is given,
    and only when the replacement starts with the name of an entry of the
    command table; so, starting from the empty table, every replacement is
    non-empty and starts with such a name. With a table like that, a line
    whose first word is an alias is never answered by the unknown-command
    message: the words that go to the dispatcher are the replacement
    followed by the rest of the line, in order. *)
Theorem alias_command_registers_commands_only (words : list string)
    (aliases : alias_table) (st : session) :
  alias_bodies_are_commands ∅
  /\ (alias_bodies_are_commands aliases ->
      exists aliases' calls st',
        MR_trace_cmd_alias words aliases st
        = (KEEP_INTERACTING, aliases', calls, st')
        /\ alias_bodies_are_commands aliases'
        /\ MR_line_queue st' = MR_line_queue st /\ mdb_in st' = mdb_in st
        /\ (aliases' = aliases
            \/ (aliases' = <[word_at words 1 := drop 2 words]> aliases
                /\ 3 <= length words
                /\ is_Some (MR_trace_valid_command (word_at words 2)))))
  /\ (alias_bodies_are_commands aliases ->
      forall line parsed n w rest alias_words,
        MR_trace_parse_line line = Scanned (parsed, n) ->
        take n parsed = w :: rest ->
        MR_trace_is_natural_number w = None ->
        aliases !! w = Some alias_words ->
        exists d,
          MR_trace_debug_cmd aliases line = Dispatch (alias_words ++ rest) d
          /\ forall err next, d <> UnknownCommand err next).
Proof.
  split; [|split].
  - intros name alias_words Hlook. by rewrite lookup_empty in Hlook.
  - intros Hok. unfold MR_trace_cmd_alias.
    destruct (decide (length words = 1)) as [H1|H1].
    { eexists _, _, _. split; [done|]. repeat (split; [done|]). by left. }
    destruct (decide (length words = 2)) as [H2|H2].
    { eexists _, _, _. split; [done|]. repeat (split; [done|]). by left. }
    destruct (MR_trace_valid_command (word_at words 2)) as [info|] eqn:Hvalid.
    + eexists _, _, _. split; [done|]. split; [|split; [done|split; [done|]]].
      * intros name alias_words. unfold MR_trace_add_alias.
        destruct (decide (name = word_at words 1)) as [->|Hname].
        -- rewrite lookup_insert_eq. intros [= <-].
           destruct words as [|w0 [|w1 [|w2 rest]]]; simpl in *;
             try lia; try done.
           exists w2, rest. split; [done|]. by eexists.
        -- rewrite lookup_insert_ne by done. apply Hok.
      * right. split; [done|]. split; [|by eexists].
        destruct words as [|w0 [|w1 [|w2 rest]]]; simpl in *; try done; lia.
    + eexists _, _, _. split; [done|]. repeat (split; [done|]). by left.
  - intros Hok line parsed n w rest alias_words Hparse Htake Hnum Hlook.
    pose proof (MR_trace_parse_line_count _ _ _ Hparse) as Hn.
    destruct (Hok _ _ Hlook) as (command & more & -> & [info Hvalid]).
    assert (Hn1 : 1 <= n).
    { destruct n; [|lia]. by rewrite take_0 in Htake. }
    pose proof (alias_key_of_words parsed n w rest Htake) as Hkey.
    rewrite bool_decide_eq_false_2 in Hkey.
    2:{ rewrite Hnum. by intros [? ?]. }
    destruct (expand_aliases_found aliases parsed n w 1 (command :: more)
                Hn Hkey Hlook) as (words' & Hexp & Hlen & Htake');
      [simpl; lia|done|].
    unfold MR_trace_debug_cmd. rewrite Hparse, Hexp.
    destruct (decide (n + length (command :: more) - 1 = 0)) as [H0|_];
      [simpl in H0; lia|].
    rewrite Htake', Htake. simpl drop.
    eexists. split; [done|]. intros err next.
    unfold MR_trace_handle_cmd.
    change (word_at ((command :: more) ++ drop 0 rest) 0) with command.
    rewrite Hvalid. by destruct (MR_cmd_function info).
Qed.

Lemma alias_command_registers_commands_only_witness :
  exists d,
    MR_trace_debug_cmd (MR_trace_add_alias "f" ["finish"; "-a"] ∅) "f 2"
    = Dispatch (["finish"; "-a"] ++ ["2"]) d
    /\ forall err next, d <> UnknownCommand err next.
Proof.
  destruct (alias_command_registers_commands_only []
              (MR_trace_add_alias "f" ["finish"; "-a"] ∅)
              (sample_session [] [])) as (_ & _ & Hline).
  eapply Hline.
  - intros name alias_words Hlook. unfold MR_trace_add_alias in Hlook.
    apply lookup_insert_Some in Hlook as [[<- <-]|[_ Hlook]].
    + eexists _, _. split; [done|]. vm_compute. by eexists.
    + by rewrite lookup_empty in Hlook.
  - vm_compute. reflexivity.
  - reflexivity.
  - reflexivity.
  - unfold MR_trace_add_alias. by rewrite lookup_insert_eq.
Defined.

(** ** Enabling and disabling break points *)

Lemma enable_all_loop_spec (b : bool) (todo : list Spy.MR_Spy_Point) :
  forall (done : list Spy.MR_Spy_Point) (t : Spy.table) (printed : list Z)
         (count : Z),
    Spy.MR_spy_points t = done ++ todo ->
    Spy.enable_all_loop b (length todo) (Z.of_nat (length done)) t printed
      count
    = (Spy.set_spy_points (done ++ (enabled_if_exists b <$> todo)) t,
       printed ++ existing_slots (Z.of_nat (length done)) todo,
       (count
        + Z.of_nat (length (existing_slots (Z.of_nat (length done)) todo)))%Z).
Proof.
  induction todo as [|p todo IH]; intros done t printed count Hpoints.
  - simpl. rewrite !app_nil_r, Z.add_0_r. rewrite app_nil_r in Hpoints.
    rewrite <- Hpoints. by destruct t.
  - simpl Spy.enable_all_loop.
    rewrite bool_decide_eq_true_2.
    2:{ unfold Spy.MR_spy_point_next. rewrite Hpoints, length_app. simpl.
        lia. }
    rewrite Nat2Z.id, Hpoints. rewrite list_lookup_middle by done. simpl.
    assert (Hi : (Z.of_nat (length done) + 1)%Z
                 = Z.of_nat (length (done ++ [p]))).
    { rewrite length_app. simpl. lia. }
    assert (Hi' : (Z.of_nat (length done) + 1)%Z
                  = Z.of_nat (length (done ++ [Spy.set_spy_enabled b p]))).
    { rewrite length_app. simpl. lia. }
    unfold enabled_if_exists at 1.
    destruct (Spy.spy_exists p) eqn:Hex.
    + rewrite Hi'. rewrite IH.
      2:{ unfold Spy.enable_at. simpl. rewrite Nat2Z.id, Hpoints.
          rewrite alter_app_r_alt by lia. rewrite Nat.sub_diag. simpl.
          by rewrite <- app_assoc. }
      rewrite <- Hi'. simpl. rewrite <- !app_assoc. simpl.
      rewrite Nat2Z.inj_succ, <- Z.add_1_l, Z.add_assoc. reflexivity.
    + rewrite Hi. rewrite IH.
      2:{ by rewrite <- app_assoc. }
      rewrite <- Hi, <- !app_assoc. done.
Qed.

Lemma existing_slots_elem (points : list Spy.MR_Spy_Point) (i n : Z) :
  n ∈ existing_slots i points
  <-> (i <= n)%Z
      /\ Spy.spy_exists <$> points !! Z.to_nat (n - i) = Some true.
Proof.
  revert i. induction points as [|p points IH]; intros i; simpl.
  - split; [by intros ?%elem_of_nil|]. by intros [_ ?].
  - assert (Hrest : n ∈ existing_slots (i + 1) points
                    <-> (i < n)%Z
                        /\ Spy.spy_exists
                             <$> (p :: points) !! Z.to_nat (n - i)
                           = Some true).
    { rewrite IH. split.
      - intros [Hle Hex]. split; [lia|].
        replace (Z.to_nat (n - i)) with (S (Z.to_nat (n - (i + 1)))) by lia.
        done.
      - intros [Hlt Hex]. split; [lia|].
        replace (Z.to_nat (n - i)) with (S (Z.to_nat (n - (i + 1)))) in Hex
          by lia.
        done. }
    destruct (Spy.spy_exists p) eqn:Hp.
    + rewrite elem_of_cons, Hrest. split.
      * intros [->|[Hlt Hex]]; [|split; [lia|done]].
        split; [lia|]. rewrite Z.sub_diag. simpl. by rewrite Hp.
      * intros [Hle Hex].
        destruct (decide (n = i)) as [->|Hne]; [by left|right].
        split; [lia|done].
    + rewrite Hrest. split.
      * intros [Hlt Hex]. split; [lia|done].
      * intros [Hle Hex]. split; [|done].
        destruct (decide (n = i)) as [->|Hne]; [|lia].
        rewrite Z.sub_diag in Hex. simpl in Hex. congruence.
Qed.

(** X18. [enable *] and [disable *] go through the whole table:
    the enabled flag of every break point that exists is set, or cleared,
    a deleted one keeps its flag, no break point appears or disappears, and
    [MR_print_spy_point] is called once for each existing break point, with
    the number of that break point, in increasing order. When there is none,
    the table is as before and one message says so. No input is read. *)
Theorem enable_and_disable_all (b : bool) (no_recent : string) (w : string)
    (t : Spy.table) (st : session) :
  let points := Spy.MR_spy_points t in
  exists t' printed st',
    Spy.enable_or_disable b no_recent [w; "*"] t st
    = (KEEP_INTERACTING, t', printed, st')
    /\ Spy.MR_spy_points t' = enabled_if_exists b <$> points
    /\ Spy.MR_most_recent_spy_point t' = Spy.MR_most_recent_spy_point t
    /\ (forall i p,
          points !! i = Some p ->
          exists p',
            Spy.MR_spy_points t' !! i = Some p'
            /\ Spy.spy_exists p' = Spy.spy_exists p
            /\ Spy.spy_enabled p'
               = if Spy.spy_exists p then b else Spy.spy_enabled p)
    /\ printed = existing_slots 0 points
    /\ (forall n, n ∈ printed <-> Spy.exists_at t n = true)
    /\ MR_line_queue st' = MR_line_queue st /\ mdb_in st' = mdb_in st
    /\ effects st'
       = effects st ++
         (if decide (printed = [])
          then [Err ("There are no break points." +:+ newline)] else []).
Proof.
  intros points. unfold Spy.enable_or_disable. simpl.
  change (word_at [w; "*"] 1) with "*". simpl.
  pose proof (enable_all_loop_spec b (Spy.MR_spy_points t) [] t [] 0 eq_refl)
    as Hloop.
  simpl in Hloop. change (Z.of_nat 0) with 0%Z in Hloop.
  rewrite Hloop, Z.add_0_l. fold points.
  assert (Hlook : forall i p,
            points !! i = Some p ->
            exists p',
              (enabled_if_exists b <$> points) !! i = Some p'
              /\ Spy.spy_exists p' = Spy.spy_exists p
              /\ Spy.spy_enabled p'
                 = if Spy.spy_exists p then b else Spy.spy_enabled p).
  { intros i p Hp. exists (enabled_if_exists b p). split.
    - by rewrite list_lookup_fmap, Hp.
    - unfold enabled_if_exists.
      destruct (Spy.spy_exists p) eqn:Hex; simpl; by rewrite ?Hex. }
  assert (Hpr : forall n,
            n ∈ existing_slots 0 points <-> Spy.exists_at t n = true).
  { intros n. rewrite existing_slots_elem, Z.sub_0_r. unfold Spy.exists_at.
    fold points. split.
    - intros [Hle Hex]. rewrite Hex. simpl.
      rewrite bool_decide_eq_true_2 by done.
      rewrite bool_decide_eq_true_2; [done|].
      unfold Spy.MR_spy_point_next. fold points.
      destruct (points !! Z.to_nat n) eqn:Hl; [|done].
      apply lookup_lt_Some in Hl. lia.
    - intros H. apply andb_true_iff in H as [H Hex].
      apply andb_true_iff in H as [Hle _].
      apply bool_decide_eq_true in Hle. split; [done|].
      destruct (Spy.spy_exists <$> points !! Z.to_nat n) as [[]|]; done. }
  destruct (existing_slots 0 points) as [|z l] eqn:Hslots.
  - eexists _, _, _. split; [reflexivity|]. repeat (split; [done|]).
    done.
  - rewrite bool_decide_eq_false_2 by (simpl length; lia).
    eexists _, _, _. split; [reflexivity|]. repeat (split; [done|]).
    simpl. by rewrite app_nil_r.
Qed.

Lemma enable_and_disable_all_witness :
  exists t' printed st',
    Spy.MR_trace_cmd_disable ["disable"; "*"]
      {| Spy.MR_spy_points :=
           [ {| Spy.spy_exists := true; Spy.spy_enabled := true |};
             {| Spy.spy_exists := false; Spy.spy_enabled := true |};
             {| Spy.spy_exists := true; Spy.spy_enabled := false |} ];
         Spy.MR_most_recent_spy_point := 2 |}
      (sample_session [] [])
    = (KEEP_INTERACTING, t', printed, st')
    /\ Spy.MR_spy_points t'
       = [ {| Spy.spy_exists := true; Spy.spy_enabled := false |};
           {| Spy.spy_exists := false; Spy.spy_enabled := true |};
           {| Spy.spy_exists := true; Spy.spy_enabled := false |} ]
    /\ printed = [0%Z; 2%Z].
Proof.
  destruct (enable_and_disable_all false
              "There is no most recent break point." "disable"
              {| Spy.MR_spy_points :=
                   [ {| Spy.spy_exists := true; Spy.spy_enabled := true |};
                     {| Spy.spy_exists := false; Spy.spy_enabled := true |};
                     {| Spy.spy_exists := true; Spy.spy_enabled := false |} ];
                 Spy.MR_most_recent_spy_point := 2 |}
              (sample_session [] []))
    as (t' & printed & st' & Hrun & Hpoints & _ & _ & Hprinted & _).
  exists t', printed, st'. repeat split; done.
Defined.

(** ** Initialisation files and the source command *)

(** X19. The initialisation sources up to three files and the
    commands of the file named by [MERCURY_DEBUGGER_INIT] come first in the
    queue, then those of [.mdbrc] in the current directory, then those of
    [.mdbrc] in the home directory, then what was queued before; a file
    that cannot be opened adds nothing. Only the file of the environment
    variable is reported when it cannot be opened. Nothing is read from
    [MR_mdb_in]. The flag [ignore_errors] of [MR_trace_source] has no effect:
    the message is written with it as without it. *)
Theorem init_files_are_queued_in_order (getenv : string -> option string)
    (fopen : string -> option (list string)) (open_error : string -> string)
    (st : session) :
  let lines_of (name : option string) : list string :=
    default [] (name ≫= fopen) in
  let env_file := getenv "MERCURY_DEBUGGER_INIT" in
  let home_file := (fun env => env +:+ "/" +:+ ".mdbrc") <$> getenv "HOME" in
  let st' := source_init_files getenv fopen open_error st in
  MR_line_queue st'
  = lines_of env_file ++ lines_of (Some ".mdbrc") ++ lines_of home_file
    ++ MR_line_queue st
  /\ mdb_in st' = mdb_in st
  /\ effects st'
     = effects st ++
       match env_file with
       | Some init =>
         match fopen init with
         | Some _ => []
         | None =>
           [Err (init +:+ ": " +:+ open_error init +:+ "." +:+ newline)]
         end
       | None => []
       end
  /\ forall filename st0,
       MR_trace_source fopen open_error filename true st0
       = MR_trace_source fopen open_error filename false st0.
Proof.
  intros lines_of env_file home_file st'.
  assert (Hsrc : forall fp s,
            MR_line_queue (MR_trace_source_from_open_file fp s)
            = fp ++ MR_line_queue s
            /\ mdb_in (MR_trace_source_from_open_file fp s) = mdb_in s
            /\ effects (MR_trace_source_from_open_file fp s) = effects s).
  { intros fp s. by rewrite MR_trace_source_from_open_file_queue. }
  assert (Hhome : forall s,
            MR_line_queue
              (MR_trace_internal_init_from_home_dir getenv fopen s)
            = lines_of home_file ++ MR_line_queue s
            /\ mdb_in (MR_trace_internal_init_from_home_dir getenv fopen s)
               = mdb_in s
            /\ effects (MR_trace_internal_init_from_home_dir getenv fopen s)
               = effects s).
  { intros s. subst lines_of home_file.
    unfold MR_trace_internal_init_from_home_dir, MDBRC_FILENAME.
    destruct (getenv "HOME") as [home|]; [|done]. cbn.
    destruct (fopen (home +:+ "/" +:+ ".mdbrc")) as [fp|]; [|done].
    apply Hsrc. }
  assert (Hlocal : forall s,
            MR_line_queue (MR_trace_internal_init_from_local fopen s)
            = lines_of (Some ".mdbrc") ++ MR_line_queue s
            /\ mdb_in (MR_trace_internal_init_from_local fopen s) = mdb_in s
            /\ effects (MR_trace_internal_init_from_local fopen s)
               = effects s).
  { intros s. subst lines_of.
    unfold MR_trace_internal_init_from_local, MDBRC_FILENAME. cbn.
    destruct (fopen ".mdbrc") as [fp|]; [|done]. apply Hsrc. }
  assert (Henv : forall s,
            MR_line_queue
              (MR_trace_internal_init_from_env getenv fopen open_error s)
            = lines_of env_file ++ MR_line_queue s
            /\ mdb_in
                 (MR_trace_internal_init_from_env getenv fopen open_error s)
               = mdb_in s
            /\ effects
                 (MR_trace_internal_init_from_env getenv fopen open_error s)
               = effects s ++
                 match env_file with
                 | Some init =>
                   match fopen init with
                   | Some _ => []
                   | None =>
                     [Err (init +:+ ": " +:+ open_error init +:+ "." +:+
                           newline)]
                   end
                 | None => []
                 end).
  { intros s. subst lines_of env_file.
    unfold MR_trace_internal_init_from_env, MR_trace_source.
    destruct (getenv "MERCURY_DEBUGGER_INIT") as [init|];
      [|by rewrite app_nil_r]. cbn.
    destruct (fopen init) as [fp|]; [|done]. cbn.
    rewrite app_nil_r. apply Hsrc. }
  subst st'. unfold source_init_files.
  destruct (Hhome st) as (Hq1 & Hi1 & He1).
  destruct (Hlocal (MR_trace_internal_init_from_home_dir getenv fopen st))
    as (Hq2 & Hi2 & He2).
  destruct (Henv (MR_trace_internal_init_from_local fopen
                    (MR_trace_internal_init_from_home_dir getenv fopen st)))
    as (Hq3 & Hi3 & He3).
  split; [by rewrite Hq3, Hq2, Hq1|]. split; [by rewrite Hi3, Hi2, Hi1|].
  split; [by rewrite He3, He2, He1|]. done.
Qed.

(** X20. The [source] command with a file that can be opened
    makes the lines of the file the next lines read, in their order and
    without a prompt, after which the session is as it was when the command
    started (marked as not interacting). With a file that cannot be opened
    it writes the error message and queues nothing, whether the option
    [-i] (ignore errors) was given or not. *)
Theorem source_command_queues_the_file
    (fopen : string -> option (list string)) (open_error : string -> string)
    (MR_getopt_long : list string -> string -> list MR_option -> getopt_run)
    (words : list string) (st : session) (ignore_errors : bool)
    (w filename : string) (st1 : session) (prompt : string) :
  MR_trace_options_ignore MR_getopt_long false words st
    = (true, ignore_errors, [w; filename], st1) ->
  exists st2,
    MR_trace_cmd_source fopen open_error MR_getopt_long words st
    = (KEEP_INTERACTING, st2)
    /\ match fopen filename with
       | Some fp =>
         getlines prompt (length fp) st2
         = (Some <$> fp, set_internal_interacting false st1)
       | None =>
         st2 = write (Err (filename +:+ ": " +:+ open_error filename +:+
                           "." +:+ newline)) st1
       end.
Proof.
  intros Hopts. unfold MR_trace_cmd_source, MR_trace_source.
  rewrite Hopts. simpl. change (word_at [w; filename] 1) with filename.
  destruct (fopen filename) as [fp|]; eexists; (split; [done|]); [|done].
  simpl. rewrite MR_trace_source_from_open_file_queue.
  rewrite (getlines_queue prompt fp (MR_line_queue st1)); [|done].
  by destruct st1.
Qed.

Lemma source_command_queues_the_file_witness :
  exists st2,
    MR_trace_cmd_source
      (fun name => if String.eqb name "cmds" then Some ["step"; "print *"]
                   else None)
      (fun _ => "No such file or directory") getopt_long_no_options
      ["source"; "cmds"] (sample_session ["retry"] [])
    = (KEEP_INTERACTING, st2)
    /\ getlines "mdb> " 2 st2
       = ([Some "step"; Some "print *"],
          set_internal_interacting false (sample_session ["retry"] [])).
Proof.
  apply (source_command_queues_the_file
           (fun name => if String.eqb name "cmds" then Some ["step"; "print *"]
                        else None)
           (fun _ => "No such file or directory") getopt_long_no_options
           ["source"; "cmds"] (sample_session ["retry"] []) false "source"
           "cmds" (sample_session ["retry"] []) "mdb> " eq_refl).
Defined.

(** ** Retry *)

(** X21. What [retry] does with each result of [MR_trace_retry],
    once its arguments are accepted and it is not a no-op. A direct retry
    gives a GOTO decision for the next event, not strict, at the default
    print level, and queues nothing. A retry that must first finish the
    call, or first let it fail, gives a FINISH or FAIL decision, strict and
    silent, for the depth of the ancestor, and puts [retry -o] at the head
    of the queue: it is the next command read, with no prompt and before
    anything else that is pending, and unless [retry] has been made an alias
    it is dispatched to the handler of [retry] again. An error writes the
    problem and the dialogue goes on with the decision untouched. *)
Theorem retry_results
    (MR_getopt_long : list string -> string -> list MR_option -> getopt_run)
    (MR_port_is_entry : MR_Trace_Port -> bool)
    (MR_trace_retry :
       MR_Event_Info -> Z -> MR_Retry_Across_Io -> bool -> session ->
       MR_Retry_Result * string * session)
    (words : list string) (cmd : MR_Trace_Cmd_Info)
    (event_info : MR_Event_Info) (st st1 st2 : session)
    (ancestor_level : Z) (across_io : MR_Retry_Across_Io)
    (assume_all_io_is_tabled : bool) (result : MR_Retry_Result)
    (problem : string) (aliases : alias_table) (prompt : string) :
  retry_arguments MR_getopt_long words st
    = (Some (ancestor_level, across_io, assume_all_io_is_tabled), st1) ->
  bool_decide (ancestor_level = 0%Z)
    && MR_port_is_entry (MR_trace_port event_info) = false ->
  MR_trace_retry event_info ancestor_level across_io
    assume_all_io_is_tabled st1
    = (result, problem, st2) ->
  let outcome :=
    MR_trace_cmd_retry MR_getopt_long MR_port_is_entry MR_trace_retry words
      cmd event_info st in
  let first_kind (kind : MR_Trace_Cmd_Type) : Prop :=
    exists cmd',
      outcome = (STOP_INTERACTING, cmd', MR_insert_line_at_head "retry -o" st2)
      /\ MR_trace_cmd cmd' = kind
      /\ MR_trace_stop_depth cmd'
         = to_MR_Unsigned (MR_call_depth event_info - ancestor_level)
      /\ MR_trace_strict cmd' = true
      /\ MR_trace_print_level cmd' = MR_PRINT_LEVEL_NONE
      /\ MR_trace_get_command prompt (MR_insert_line_at_head "retry -o" st2)
         = Some ("retry -o", st2)
      /\ (aliases !! "retry" = None ->
          MR_trace_debug_cmd aliases "retry -o"
          = Dispatch ["retry"; "-o"]
              (CallHandler
                 (command "backward" "retry" Handler.MR_trace_cmd_retry)
                 Handler.MR_trace_cmd_retry)) in
  match result with
  | MR_RETRY_OK_DIRECT =>
    exists cmd',
      outcome = (STOP_INTERACTING, cmd', st2)
      /\ MR_trace_cmd cmd' = MR_CMD_GOTO
      /\ MR_trace_stop_event cmd'
         = to_MR_Unsigned (MR_event_number event_info + 1)
      /\ MR_trace_strict cmd' = false
      /\ MR_trace_print_level cmd' = MR_default_print_level st2
  | MR_RETRY_OK_FINISH_FIRST => first_kind MR_CMD_FINISH
  | MR_RETRY_OK_FAIL_FIRST => first_kind MR_CMD_FAIL
  | MR_RETRY_ERROR =>
    outcome = (KEEP_INTERACTING, cmd, write (Err (problem +:+ newline)) st2)
  end.
Proof.
  intros Hargs Hnoop Hretry outcome first_kind.
  assert (Hread : MR_trace_get_command prompt
                    (MR_insert_line_at_head "retry -o" st2)
                  = Some ("retry -o", st2)).
  { unfold MR_trace_get_command, MR_trace_getline, MR_trace_getline_queue,
      MR_insert_line_at_head. simpl. by destruct st2. }
  assert (Hdispatch : aliases !! "retry" = None ->
            MR_trace_debug_cmd aliases "retry -o"
            = Dispatch ["retry"; "-o"]
                (CallHandler
                   (command "backward" "retry" Handler.MR_trace_cmd_retry)
                   Handler.MR_trace_cmd_retry)).
  { intros Hnone. unfold MR_trace_debug_cmd.
    destruct (MR_trace_parse_line "retry -o") as [[ws n]| |] eqn:Hparse;
      [|vm_compute in Hparse; discriminate..].
    vm_compute in Hparse. injection Hparse as <- <-.
    rewrite expand_aliases_not_found; [done|]. done. }
  subst outcome first_kind. unfold MR_trace_cmd_retry.
  rewrite Hargs, Hnoop, Hretry.
  destruct result; [by eexists| | |done];
    eexists; repeat split; done.
Qed.

Lemma retry_results_witness :
  exists cmd',
    MR_trace_cmd_retry getopt_long_no_options
      (fun port => bool_decide (port = MR_PORT_CALL))
      (fun _ _ _ _ st => (MR_RETRY_OK_FAIL_FIRST, "", st))
      ["retry"; "1"] sample_cmd (sample_event 5 MR_PORT_EXIT)
      (sample_session ["print *"] [])
    = (STOP_INTERACTING, cmd',
       MR_insert_line_at_head "retry -o" (sample_session ["print *"] []))
    /\ MR_trace_cmd cmd' = MR_CMD_FAIL
    /\ MR_trace_get_command "mdb> "
         (MR_insert_line_at_head "retry -o" (sample_session ["print *"] []))
       = Some ("retry -o", sample_session ["print *"] []).
Proof.
  pose proof (retry_results getopt_long_no_options
                (fun port => bool_decide (port = MR_PORT_CALL))
                (fun _ _ _ _ st => (MR_RETRY_OK_FAIL_FIRST, "", st))
                ["retry"; "1"] sample_cmd (sample_event 5 MR_PORT_EXIT)
                (sample_session ["print *"] []) _ _ 1%Z
                MR_RETRY_IO_INTERACTIVE false MR_RETRY_OK_FAIL_FIRST ""
                ∅ "mdb> " eq_refl eq_refl eq_refl) as H.
  cbv zeta in H. destruct H as (cmd' & Hrun & Hkind & _ & _ & _ & Hread & _).
  by exists cmd'.
Defined.

(** ** The interactive loop *)

Lemma sum_list_app_plus (l1 l2 : list nat) :
  sum_list (l1 ++ l2) = sum_list l1 + sum_list l2.
Proof. induction l1 as [|x l1 IH]; simpl; [done|]. rewrite IH. lia. Qed.

Lemma string_length_append (s t : string) :
  String.length (s +:+ t) = String.length s + String.length t.
Proof. induction s as [|c s IH]; simpl; [done|]. by rewrite IH. Qed.

Lemma chars_left_queue_cons (line : string) (q : list string) (st : session) :
  chars_left (set_line_queue (line :: q) st)
  = S (String.length line) + chars_left (set_line_queue q st).
Proof. unfold chars_left. simpl. done. Qed.

Lemma chars_left_queue_id (st : session) :
  chars_left (set_line_queue (MR_line_queue st) st) = chars_left st.
Proof. done. Qed.

Lemma chars_left_empty (st : session) :
  MR_line_queue st = [] -> mdb_in st = [] -> chars_left st = 0.
Proof. unfold chars_left. by intros -> ->. Qed.

Lemma MR_trace_getline_chars (prompt : string) (st : session)
    (line : string) (st1 : session) :
  MR_trace_getline prompt st = (Some line, st1) ->
  chars_left st = S (String.length line) + chars_left st1.
Proof.
  unfold MR_trace_getline, MR_trace_getline_queue, MR_trace_readline,
    chars_left.
  destruct (MR_line_queue st) as [|l q] eqn:Hq; simpl.
  - destruct (mdb_in st) as [|l m] eqn:Hm; simpl; [done|].
    destruct (MR_echo_commands st); intros [= <- <-]; simpl;
      by rewrite Hq.
  - intros [= <- <-]. simpl. done.
Qed.

Lemma continue_line_loop_length (ptr : string) (e sq dq : bool)
    (before after : string) :
  continue_line_loop ptr e sq dq = AtSemicolon before after ->
  String.length ptr = S (String.length before + String.length after).
Proof.
  intros H. destruct (continue_line_loop_semicolon _ _ _ _ _ _ H) as [-> _].
  rewrite !string_length_append. simpl. lia.
Qed.

Lemma get_command_loop_chars (fuel : nat) (cmd_chars ptr : string)
    (sq dq : bool) (st : session) (cmd : string) (st' : session) :
  get_command_loop fuel cmd_chars ptr sq dq st = Some (cmd, st') ->
  chars_left st' <= chars_left st + String.length ptr.
Proof.
  revert cmd_chars ptr sq dq st.
  induction fuel as [|fuel IH]; intros cmd_chars ptr sq dq st; [done|].
  simpl. unfold MR_trace_continue_line.
  destruct (continue_line_loop ptr false sq dq) as [before after|e' sq' dq']
    eqn:Hscan.
  - intros [= <- <-]. unfold MR_insert_line_at_head.
    rewrite chars_left_queue_cons, chars_left_queue_id.
    rewrite (continue_line_loop_length _ _ _ _ _ _ Hscan). lia.
  - destruct (sq' || dq' || e').
    + destruct (MR_trace_getline "> " st) as [[line|] st1] eqn:Hget.
      * intros Hrec. apply IH in Hrec.
        rewrite (MR_trace_getline_chars _ _ _ _ Hget). lia.
      * intros [= <- <-].
        destruct (MR_trace_getline_None _ _ _ Hget) as [Hq Hm].
        rewrite (chars_left_empty _ Hq Hm). lia.
    + intros [= <- <-]. lia.
Qed.

(** A call of [MR_trace_get_command] uses up some of the input, unless
    there is none left, and then it returns [quit]. *)
Lemma MR_trace_get_command_chars (prompt : string) (st : session)
    (cmd : string) (st' : session) :
  MR_trace_get_command prompt st = Some (cmd, st') ->
  chars_left st' < chars_left st
  \/ (cmd = "quit" /\ MR_line_queue st' = [] /\ mdb_in st' = []
      /\ MR_line_queue st = [] /\ mdb_in st = []
      /\ st' = write (Prompt prompt) (set_internal_interacting true st)).
Proof.
  unfold MR_trace_get_command.
  destruct (MR_trace_getline prompt st) as [[line|] st1] eqn:Hget.
  - intros Hloop. left. apply get_command_loop_chars in Hloop.
    rewrite (MR_trace_getline_chars _ _ _ _ Hget). lia.
  - intros [= <- <-]. right.
    destruct (MR_trace_getline_None _ _ _ Hget) as [Hq Hm].
    repeat (split; [done|]).
    unfold MR_trace_getline, MR_trace_getline_queue, MR_trace_readline in Hget.
    destruct (MR_line_queue st) as [|l q] eqn:Hq0; [|done]. simpl in Hget.
    destruct (mdb_in st) as [|l m] eqn:Hm0.
    + by injection Hget as <-.
    + simpl in Hget. by destruct (MR_echo_commands st).
Qed.

Lemma number_prefix_fuel (s : string) (i : nat) (count_buf : string) :
  number_prefix s i count_buf <> OutOfFuel.
Proof.
  revert i count_buf. induction s as [|c s IH]; intros i count_buf; [done|].
  simpl. destruct (MR_isdigit c); [|done].
  destruct (decide (MR_NUMBER_LEN <= i)); [done|]. apply IH.
Qed.

Lemma MR_trace_debug_cmd_fuel (aliases : alias_table) (line : string) :
  MR_trace_debug_cmd aliases line <> NoFuel.
Proof.
  unfold MR_trace_debug_cmd, MR_trace_parse_line.
  pose proof (MR_trace_break_into_words_lex line) as Hlex.
  destruct (MR_trace_break_into_words line) as [[raw n]| |]; [|done..].
  pose proof (number_prefix_fuel (word_at raw 0) 0 "") as Hfuel.
  unfold split_number_prefix. repeat case_match; congruence.
Qed.

Lemma MR_trace_debug_cmd_quit (aliases : alias_table) :
  aliases !! "quit" = None ->
  MR_trace_debug_cmd aliases "quit"
  = Dispatch ["quit"]
      (CallHandler (command "misc" "quit" Handler.MR_trace_cmd_quit)
         Handler.MR_trace_cmd_quit).
Proof.
  intros Hnone. unfold MR_trace_debug_cmd.
  destruct (MR_trace_parse_line "quit") as [[words n]| |] eqn:Hparse;
    [|vm_compute in Hparse; discriminate..].
  vm_compute in Hparse. injection Hparse as <- <-.
  rewrite expand_aliases_not_found; [done|]. done.
Qed.

Lemma settings_handlers_read_nothing (words : list string) (st : session) :
  chars_left (MR_trace_cmd_printlevel words st).2 = chars_left st
  /\ chars_left (MR_trace_cmd_scroll words st).2 = chars_left st
  /\ chars_left (MR_trace_cmd_echo words st).2 = chars_left st
  /\ (MR_trace_cmd_printlevel words st).1 = KEEP_INTERACTING
  /\ (MR_trace_cmd_scroll words st).1 = KEEP_INTERACTING
  /\ (MR_trace_cmd_echo words st).1 = KEEP_INTERACTING.
Proof.
  unfold MR_trace_cmd_printlevel, MR_trace_cmd_scroll, MR_trace_cmd_echo,
    write_if_interacting, MR_trace_usage_cur_cmd.
  repeat split; repeat case_match; done.
Qed.

Lemma MR_trace_cmd_quit_chars
    (MR_getopt : list string -> string -> getopt_run) (words : list string)
    (st : session) (e : handler_end) (st' : session) :
  MR_trace_cmd_quit MR_getopt words st = (e, st') ->
  chars_left st' <= chars_left st
  /\ (e = Returns KEEP_INTERACTING \/ e = Exits EXIT_SUCCESS).
Proof.
  unfold MR_trace_cmd_quit, MR_trace_options_confirmed.
  destruct (confirmed_opts_loop _ false) as [[] confirmed].
  2:{ intros [= <- <-]. split; [done|by left]. }
  destruct (decide _); [|intros [= <- <-]; split; [done|by left]].
  destruct confirmed; simpl.
  { intros [= <- <-]. split; [done|by right]. }
  destruct (MR_trace_getline _ st) as [[line2|] st1] eqn:Hget.
  - pose proof (MR_trace_getline_chars _ _ _ _ Hget) as Hch.
    destruct (_ || _); intros [= <- <-]; (split; [simpl; unfold chars_left in *; simpl; lia|]);
      [by right|by left].
  - destruct (MR_trace_getline_None _ _ _ Hget) as [Hq Hm].
    intros [= <- <-]. split; [|by right].
    unfold chars_left. simpl. rewrite Hq, Hm. simpl. lia.
Qed.

Lemma call_handler_chars (MR_getopt : list string -> string -> getopt_run)
    (MR_getopt_long : list string -> string -> list MR_option -> getopt_run)
    (MR_port_is_final : MR_Trace_Port -> bool)
    (MR_trace_is_unsigned : string -> option Z) (f : Handler.t)
    (words : list string) (cmd : MR_Trace_Cmd_Info)
    (event_info : MR_Event_Info) (st : session) (e : handler_end)
    (cmd' : MR_Trace_Cmd_Info) (st' : session) :
  call_handler MR_getopt MR_getopt_long MR_port_is_final MR_trace_is_unsigned
    f words cmd event_info st = Some (e, cmd', st') ->
  chars_left st' <= chars_left st
  /\ forall status, e = Exits status -> status = EXIT_SUCCESS.
Proof.
  assert (Hmove : forall kind r,
            movement_outcome kind cmd st r ->
            Some (Returns r.1.1, r.1.2, r.2) = Some (e, cmd', st') ->
            chars_left st' <= chars_left st
            /\ forall status, e = Exits status -> status = EXIT_SUCCESS).
  { intros kind [[next c] s] Hout [= <- <- <-]. split; [|done].
    destruct next; simpl in Hout.
    - by destruct Hout as (_ & _ & _ & msg & ->).
    - by destruct Hout as [_ ->]. }
  destruct (settings_handlers_read_nothing words st)
    as (Hp & Hs & He & _).
  destruct f; simpl; try done;
    try (intros [= <- <- <-]; split; [lia|done]).
  - apply (Hmove _ _ (MR_trace_cmd_step_outcome _ _ _ _ _)).
  - apply (Hmove _ _ (MR_trace_cmd_goto_outcome _ _ _ _ _ _)).
  - apply (Hmove _ _ (MR_trace_cmd_next_outcome _ _ _ _ _ _)).
  - apply (Hmove _ _ (MR_trace_cmd_finish_outcome _ _ _ _ _ _)).
  - apply (Hmove _ _ (MR_trace_cmd_exception_outcome _ _ _ _ _)).
  - apply (Hmove _ _ (MR_trace_cmd_return_outcome _ _ _ _ _)).
  - apply (Hmove _ _ (MR_trace_cmd_forward_outcome _ _ _ _ _)).
  - apply (Hmove _ _ (MR_trace_cmd_mindepth_outcome _ _ _ _ _)).
  - apply (Hmove _ _ (MR_trace_cmd_maxdepth_outcome _ _ _ _ _)).
  - destruct (MR_trace_cmd_quit MR_getopt words st) as [e0 st0] eqn:Hquit.
    intros [= <- <- <-].
    destruct (MR_trace_cmd_quit_chars _ _ _ _ _ Hquit) as [Hle Hend].
    split; [done|]. intros status ->. by destruct Hend as [|[= <-]].
Qed.

(** X22. The interactive loop always ends on an input that is
    finite, provided [quit] has not been made an alias and is given no
    options by [MR_getopt]: within as many turns as there are characters
    and lines left to read plus one, it comes to a movement decision, to the
    exit of the process, to a call through the null handler of a reserved
    entry, or to a handler that is not modelled. Every turn but the last
    uses up input. A decision comes with the line count of the pager reset
    to 0 and with [MR_trace_must_check] set unless the decision is strict
    and silent; the process exits with [EXIT_SUCCESS] only. When no input is
    left at all, the loop shows its prompt and the question of [quit], and
    the process exits. *)
Theorem interaction_always_ends
    (MR_getopt : list string -> string -> getopt_run)
    (MR_getopt_long : list string -> string -> list MR_option -> getopt_run)
    (MR_port_is_final : MR_Trace_Port -> bool)
    (MR_trace_is_unsigned : string -> option Z)
    (aliases : alias_table) (event_info : MR_Event_Info) (fuel : nat)
    (cmd : MR_Trace_Cmd_Info) (st : session) :
  aliases !! "quit" = None ->
  MR_getopt ["quit"] "NYny" = {| go_codes := []; go_words := ["quit"] |} ->
  chars_left st < fuel ->
  let result :=
    interaction_loop MR_getopt MR_getopt_long MR_port_is_final
      MR_trace_is_unsigned fuel aliases cmd event_info st in
  match result with
  | NoFuelLeft => False
  | Decided cmd' st' =>
    MR_scroll_next st' = 0%Z
    /\ MR_trace_must_check cmd'
       = negb (MR_trace_strict cmd')
         || match MR_trace_print_level cmd' with
            | MR_PRINT_LEVEL_NONE => false
            | _ => true
            end
  | Exited status st' => status = EXIT_SUCCESS
  | CalledNull cmd_info st' => MR_cmd_function cmd_info = None
  | NotModelled f words st' => True
  end
  /\ (MR_line_queue st = [] -> mdb_in st = [] ->
      exists st',
        result = Exited EXIT_SUCCESS st'
        /\ effects st'
           = effects st ++
             [Prompt "mdb> "; Prompt "mdb: are you sure you want to quit? ";
              Call_MR_trace_maybe_close_source_window]).
Proof.
  intros Hquit Hopt Hfuel result. subst result.
  assert (Heof : forall fuel' cmd0 st0,
            MR_line_queue st0 = [] -> mdb_in st0 = [] ->
            exists st',
              interaction_loop MR_getopt MR_getopt_long MR_port_is_final
                MR_trace_is_unsigned (S fuel') aliases cmd0 event_info st0
              = Exited EXIT_SUCCESS st'
              /\ effects st'
                 = effects st0 ++
                   [Prompt "mdb> ";
                    Prompt "mdb: are you sure you want to quit? ";
                    Call_MR_trace_maybe_close_source_window]).
  { intros fuel' cmd0 st0 Hq Hm. simpl.
    unfold MR_trace_get_command, MR_trace_getline at 1,
      MR_trace_getline_queue, MR_trace_readline.
    rewrite Hq. simpl. rewrite Hm. rewrite (MR_trace_debug_cmd_quit _ Hquit).
    simpl. unfold MR_trace_cmd_quit, MR_trace_options_confirmed.
    rewrite Hopt. simpl.
    unfold MR_trace_getline, MR_trace_getline_queue, MR_trace_readline.
    simpl. rewrite Hq. simpl. rewrite Hm. simpl.
    eexists. split; [done|]. simpl. by rewrite <- !app_assoc. }
  split.
  - revert cmd st Hfuel.
    induction fuel as [|fuel IH]; intros cmd st Hfuel; [lia|].
    destruct (MR_trace_get_command_total "mdb> " st) as [[line st1] Hcmd].
    destruct (MR_trace_get_command_chars _ _ _ _ Hcmd)
      as [Hless|(_ & _ & _ & Hq & Hm & _)].
    2:{ destruct (Heof fuel cmd st Hq Hm) as (st' & -> & _). done. }
    simpl. rewrite Hcmd.
    pose proof (MR_trace_debug_cmd_fuel aliases line) as Hnofuel.
    destruct (MR_trace_debug_cmd aliases line)
      as [err next| next |words [info f|info|err next]| ] eqn:Hdebug;
      [| | | | |done].
    + apply IH. unfold chars_left in *. simpl. lia.
    + apply IH. lia.
    + destruct (call_handler _ _ _ _ f words cmd event_info _)
        as [[[e cmd'] st']|] eqn:Hcall; [|done].
      destruct (call_handler_chars _ _ _ _ _ _ _ _ _ _ _ _ Hcall)
        as [Hle Hexit].
      destruct e as [[]|status].
      * apply IH. unfold chars_left in *. simpl in *. lia.
      * done.
      * by apply Hexit.
    + unfold MR_trace_debug_cmd in Hdebug.
      destruct (MR_trace_parse_line line) as [[ws n]| |]; [|done..].
      destruct (MR_trace_expand_aliases aliases ws n) as [ws' n'].
      destruct (decide (n' = 0)); [done|].
      injection Hdebug as _ Hd. unfold MR_trace_handle_cmd in Hd.
      destruct (MR_trace_valid_command _) as [info'|]; [|done].
      destruct (MR_cmd_function info') eqn:Hf; [done|].
      by injection Hd as <-.
    + apply IH. unfold chars_left in *. simpl. lia.
  - intros Hq Hm. destruct fuel as [|fuel]; [lia|]. by apply Heof.
Qed.

Lemma interaction_always_ends_witness :
  match
    interaction_loop getopt_no_options getopt_long_no_options
      (fun port => bool_decide (port = MR_PORT_EXIT)) (fun _ => None) 40
      (MR_trace_add_alias "EMPTY" ["step"] ∅) sample_cmd
      (sample_event 4 MR_PORT_CALL)
      (sample_session [] ["scroll off; nxt"; ""])
  with
  | NoFuelLeft => False
  | Decided cmd' st' =>
    MR_scroll_next st' = 0%Z
    /\ MR_trace_must_check cmd'
       = negb (MR_trace_strict cmd')
         || match MR_trace_print_level cmd' with
            | MR_PRINT_LEVEL_NONE => false
            | _ => true
            end
  | Exited status st' => status = EXIT_SUCCESS
  | CalledNull cmd_info st' => MR_cmd_function cmd_info = None
  | NotModelled f words st' => True
  end.
Proof.
  pose proof (interaction_always_ends getopt_no_options
                getopt_long_no_options
                (fun port => bool_decide (port = MR_PORT_EXIT))
                (fun _ => None)
                (MR_trace_add_alias "EMPTY" ["step"] ∅)
                (sample_event 4 MR_PORT_CALL) 40 sample_cmd
                (sample_session [] ["scroll off; nxt"; ""])
                eq_refl eq_refl) as Hends.
  cbv zeta in Hends. apply Hends. vm_compute. lia.
Defined.

(** ** What the tokenizer computes *)

Lemma char_at_lookup (buf : list ascii) (i : nat) :
  i < length buf -> buf !! i = Some (char_at buf i).
Proof.
  intros Hi. apply lookup_lt_is_Some in Hi as [x Hx].
  unfold char_at. by rewrite Hx.
Qed.

Lemma unread_length_eq (after buf : list ascii) (pos : nat)
    (rest : list ascii) :
  unread after buf pos rest ->
  pos + length rest + S (length after) = length buf.
Proof.
  intros [Hd _].
  assert (Hlen : length (drop pos buf) = length rest + S (length after)).
  { rewrite Hd, length_app. done. }
  rewrite length_drop in Hlen. lia.
Qed.

Lemma unread_terminator (after buf : list ascii) (pos : nat)
    (rest : list ascii) :
  unread after buf pos rest -> buf !! (pos + length rest) = Some NUL.
Proof.
  intros [Hd _]. rewrite <- lookup_drop, Hd.
  rewrite lookup_app_r by done. by rewrite Nat.sub_diag.
Qed.

Lemma copy_back_written (buf : list ascii) (start : nat) (acc : list ascii)
    (char_pos lag : nat) :
  start + length acc + lag = char_pos -> char_pos < length buf ->
  (forall j x, acc !! j = Some x -> buf !! (start + j) = Some x) ->
  (forall j x,
     (acc ++ [char_at buf char_pos]) !! j = Some x ->
     copy_back buf char_pos lag !! (start + j) = Some x)
  /\ (forall i, i < start -> copy_back buf char_pos lag !! i = buf !! i).
Proof.
  intros Hpos Hlen Hacc. unfold copy_back.
  destruct (decide (lag = 0)) as [->|Hlag].
  - split; [|done]. intros j x [Hj|[Hj Hx]]%lookup_app_Some; [by apply Hacc|].
    apply list_lookup_singleton_Some in Hx as [Hj0 <-].
    replace (start + j) with char_pos by lia. by apply char_at_lookup.
  - split.
    + intros j x [Hj|[Hj Hx]]%lookup_app_Some.
      * rewrite list_lookup_insert_ne; [by apply Hacc|].
        apply lookup_lt_Some in Hj. lia.
      * apply list_lookup_singleton_Some in Hx as [Hj0 <-].
        replace (start + j) with (char_pos - lag) by lia.
        apply list_lookup_insert_eq. lia.
    + intros i Hi. apply list_lookup_insert_ne. lia.
Qed.

Lemma lex_end_Complete_nil (sq dq : bool) :
  lex_end sq dq [] = Complete -> sq = false /\ dq = false.
Proof. by destruct sq, dq. Qed.

(** The loop of [MR_trace_break_off_one_word] on a text that ends well:
    the characters of the word are moved down over the quotes and
    backslashes that were dropped, nothing before the word is touched, and
    what is left to read is what follows the word. [acc] holds the
    characters of the word found before [char_pos], which stand in the
    buffer from [start] on. *)
Lemma break_off_loop_word (after : list ascii) (fuel : nat) :
  forall (buf : list ascii) (char_pos lag : nat) (sq dq : bool)
         (rest : list ascii) (start : nat) (acc : list ascii),
    unread after buf char_pos rest -> length rest < fuel ->
    lex_end sq dq rest = Complete ->
    start + length acc + lag = char_pos ->
    (forall j x, acc !! j = Some x -> buf !! (start + j) = Some x) ->
    exists ws,
      break_off_loop fuel buf char_pos lag sq dq = Scanned ws
      /\ ws_single_quoted ws = false /\ ws_double_quoted ws = false
      /\ length (ws_line ws) = length buf
      /\ (forall i, i < start -> ws_line ws !! i = buf !! i)
      /\ (forall j x,
            (acc ++ (word_chars sq dq rest).1) !! j = Some x ->
            ws_line ws !! (start + j) = Some x)
      /\ start + length (acc ++ (word_chars sq dq rest).1) + ws_lag ws
         = ws_char_pos ws
      /\ lex_end false false (word_chars sq dq rest).2 = Complete
      /\ if ws_another ws then
           exists c,
             MR_isspace c = true
             /\ unread after (ws_line ws) (ws_char_pos ws)
                  (c :: (word_chars sq dq rest).2)
         else
           (word_chars sq dq rest).2 = []
           /\ unread after (ws_line ws) (ws_char_pos ws) [].
Proof.
  induction fuel as [|fuel IH];
    intros buf pos lag sq dq rest start acc Hun Hfuel Hlex Hpos Hacc; [lia|].
  rewrite break_off_loop_S. cbv zeta.
  pose proof (unread_length after buf pos rest Hun) as Hlen.
  destruct rest as [|c rest].
  { rewrite (unread_end after buf pos Hun).
    change (Ascii.eqb NUL NUL) with true. cbv iota.
    destruct (lex_end_Complete_nil _ _ Hlex) as [-> ->].
    eexists. split; [done|]. simpl. rewrite app_nil_r.
    repeat split; try done; try apply Hun; lia. }
  destruct (unread_cons after buf pos c rest Hun) as (Hc & HcN & Hun').
  rewrite Hc, HcN. simpl word_chars.
  destruct (negb sq && negb dq && MR_isspace c) eqn:Hspace.
  { apply andb_true_iff in Hspace as [Hq Hsp].
    apply andb_true_iff in Hq as [Hsq Hdq].
    apply negb_true_iff in Hsq, Hdq. subst sq dq.
    eexists. split; [done|]. simpl. rewrite app_nil_r.
    repeat split; try done; try lia.
    - by rewrite <- (lex_end_space c rest Hsp).
    - by exists c. }
  destruct (negb dq && Ascii.eqb c SINGLE_QUOTE_CHAR) eqn:Hsq.
  { destruct (IH buf (S pos) (S lag) (negb sq) dq rest start acc)
      as (ws & Hrun & H); try done; try lia.
    - simpl in Hfuel. lia.
    - by rewrite <- (lex_end_single sq dq c rest Hsq).
    - exists ws. split; [done|]. exact H. }
  assert (Hcopy :
    forall (sq' dq' : bool),
      lex_end sq' dq' rest = Complete ->
      exists ws,
        break_off_loop fuel (copy_back buf pos lag) (S pos) lag sq' dq'
        = Scanned ws
        /\ ws_single_quoted ws = false /\ ws_double_quoted ws = false
        /\ length (ws_line ws) = length buf
        /\ (forall i, i < start -> ws_line ws !! i = buf !! i)
        /\ (forall j x,
              (acc ++ c :: (word_chars sq' dq' rest).1) !! j = Some x ->
              ws_line ws !! (start + j) = Some x)
        /\ start + length (acc ++ c :: (word_chars sq' dq' rest).1)
           + ws_lag ws = ws_char_pos ws
        /\ lex_end false false (word_chars sq' dq' rest).2 = Complete
        /\ if ws_another ws then
             exists c0,
               MR_isspace c0 = true
               /\ unread after (ws_line ws) (ws_char_pos ws)
                    (c0 :: (word_chars sq' dq' rest).2)
           else
             (word_chars sq' dq' rest).2 = []
             /\ unread after (ws_line ws) (ws_char_pos ws) []).
  { intros sq' dq' Hlex'.
    destruct (copy_back_written buf start acc pos lag Hpos) as [Hw Hb];
      [lia|done|]. rewrite Hc in Hw.
    destruct (IH (copy_back buf pos lag) (S pos) lag sq' dq' rest start
                (acc ++ [c]))
      as (ws & Hrun & Hs & Hd & Hl & Hbelow & Hword & Hp & Hlx & Han);
      try done.
    - apply unread_copy_back; [lia|lia|done].
    - simpl in Hfuel. lia.
    - rewrite length_app. simpl. lia.
    - exists ws. split; [done|]. rewrite <- app_assoc in Hword, Hp.
      repeat split; try done.
      + by rewrite Hl, copy_back_length.
      + intros i Hi. by rewrite Hbelow, Hb. }
  destruct (negb sq && Ascii.eqb c DOUBLE_QUOTE_CHAR) eqn:Hdq.
  { destruct (Hcopy sq (negb dq)) as (ws & Hrun & H).
    - by rewrite <- (lex_end_double sq dq c rest Hdq).
    - exists ws. split; [done|].
      by destruct (word_chars sq (negb dq) rest) as [w r]. }
  destruct (Ascii.eqb c ESCAPE_CHAR) eqn:Hesc.
  { destruct rest as [|c' rest].
    { by rewrite (proj2 (lex_end_escape sq dq c c [] Hesc)) in Hlex. }
    destruct (unread_cons after buf (S pos) c' rest Hun')
      as (Hc' & HcN' & Hun'').
    rewrite Hc', HcN'.
    destruct (copy_back_written buf start acc (S pos) (S lag)) as [Hw Hb];
      [lia|simpl in Hlen; lia|done|]. rewrite Hc' in Hw.
    destruct (IH (copy_back buf (S pos) (S lag)) (S (S pos)) (S lag) sq dq
                rest start (acc ++ [c']))
      as (ws & Hrun & Hs & Hd & Hl & Hbelow & Hword & Hp & Hlx & Han);
      try done.
    - apply unread_copy_back; [lia|lia|done].
    - simpl in Hfuel. lia.
    - by rewrite <- (proj1 (lex_end_escape sq dq c c' rest Hesc)).
    - rewrite length_app. simpl. lia.
    - exists ws. split; [done|]. rewrite <- app_assoc in Hword, Hp.
      destruct (word_chars sq dq rest) as [w r].
      repeat split; try done.
      + by rewrite Hl, copy_back_length.
      + intros i Hi. by rewrite Hbelow, Hb. }
  destruct (Hcopy sq dq) as (ws & Hrun & H).
  - by rewrite <- (lex_end_plain sq dq c rest Hesc Hsq Hdq).
  - exists ws. split; [done|]. by destruct (word_chars sq dq rest) as [w r].
Qed.

Lemma word_chars_length (n : nat) :
  forall (l : list ascii) (sq dq : bool),
    length l <= n -> length (word_chars sq dq l).2 <= length l - 1.
Proof.
  induction n as [|n IH]; intros l sq dq Hn.
  { destruct l; [done|simpl in Hn; lia]. }
  destruct l as [|c l]; [done|]. simpl in Hn. simpl word_chars.
  repeat case_match; simpl; try lia;
    try (match goal with
         | H : word_chars ?a ?b ?k = (_, ?r) |- _ =>
           pose proof (IH k a b ltac:(simpl in *; lia)) as Hr;
           rewrite H in Hr; simpl in Hr; simpl in *; lia
         end).
  - pose proof (IH l (negb sq) dq ltac:(lia)). lia.
Qed.

Lemma word_chars_elem (n : nat) :
  forall (l : list ascii) (sq dq : bool) (x : ascii),
    length l <= n -> x ∈ (word_chars sq dq l).1 -> x ∈ l.
Proof.
  induction n as [|n IH]; intros l sq dq x Hn.
  { destruct l; [by intros ?%elem_of_nil|simpl in Hn; lia]. }
  destruct l as [|c l]; [by intros ?%elem_of_nil|]. simpl in Hn.
  simpl word_chars.
  repeat case_match; simpl; try (by intros ?%elem_of_nil);
    try (match goal with
         | H : word_chars ?a ?b ?k = (?w, _) |- _ =>
           pose proof (IH k a b x ltac:(simpl in *; lia)) as Hr;
           rewrite H in Hr; simpl in Hr;
           intros [->|Hin]%elem_of_cons; set_solver
         end).
  - intros Hin. right. apply (IH l (negb sq) dq); [lia|done].
Qed.

Lemma drop_spaces_length (l : list ascii) :
  length (drop_spaces l) <= length l.
Proof.
  induction l as [|c l IH]; [done|]. simpl.
  destruct (MR_isspace c); simpl; lia.
Qed.

Lemma split_words_S (fuel : nat) (l : list ascii) :
  split_words (S fuel) l =
    match drop_spaces l with
    | [] => []
    | c :: l' =>
      match word_chars false false (c :: l') with
      | (w, rest) => w :: split_words fuel rest
      end
    end.
Proof. reflexivity. Qed.

Lemma split_words_fuel (f1 : nat) :
  forall (f2 : nat) (l : list ascii),
    length l < f1 -> length l < f2 -> split_words f1 l = split_words f2 l.
Proof.
  induction f1 as [|f1 IH]; intros f2 l H1 H2; [lia|].
  destruct f2 as [|f2]; [lia|]. rewrite !split_words_S.
  pose proof (drop_spaces_length l) as Hd.
  destruct (drop_spaces l) as [|c l'] eqn:Hl; [done|].
  pose proof (word_chars_length (length (c :: l')) (c :: l') false false
                ltac:(done)) as Hw.
  destruct (word_chars false false (c :: l')) as [w rest]. simpl in Hw, Hd.
  f_equal. apply IH; lia.
Qed.

Lemma until_NUL_word (buf : list ascii) (w : list ascii) :
  forall start,
    (forall j x, w !! j = Some x -> buf !! (start + j) = Some x) ->
    buf !! (start + length w) = Some NUL -> NUL ∉ w ->
    until_NUL (drop start buf) = w.
Proof.
  induction w as [|c w IH]; intros start Hw Hend Hnul.
  - simpl in Hend. rewrite Nat.add_0_r in Hend.
    rewrite (drop_S _ _ _ Hend). done.
  - pose proof (Hw 0 c eq_refl) as H0. rewrite Nat.add_0_r in H0.
    rewrite (drop_S _ _ _ H0). simpl.
    destruct (Ascii.eqb c NUL) eqn:Hc.
    { apply Ascii.eqb_eq in Hc as ->. destruct Hnul. by left. }
    f_equal. apply IH.
    + intros j x Hj. replace (S start + j) with (start + S j) by lia.
      by apply Hw.
    + replace (S start + length w) with (start + length (c :: w))
        by (simpl; lia). done.
    + intros Hin. apply Hnul. by right.
Qed.

(** One word is broken off: its characters stand in the buffer from
    [pos] on and end in NUL, nothing before [pos] is touched, and what
    follows the word is left to read. *)
Lemma break_off_one_word_word (after buf : list ascii) (pos : nat)
    (rest : list ascii) :
  unread after buf pos rest -> rest <> [] ->
  lex_end false false rest = Complete ->
  exists buf1 pos1,
    MR_trace_break_off_one_word buf pos = Scanned (buf1, pos1)
    /\ length buf1 = length buf
    /\ (forall i, i < pos -> buf1 !! i = buf !! i)
    /\ (forall j x,
          (word_chars false false rest).1 !! j = Some x ->
          buf1 !! (pos + j) = Some x)
    /\ buf1 !! (pos + length (word_chars false false rest).1) = Some NUL
    /\ unread after buf1 pos1 (word_chars false false rest).2
    /\ lex_end false false (word_chars false false rest).2 = Complete
    /\ pos < pos1
    /\ pos + length (word_chars false false rest).1 <= pos1
    /\ (pos + length (word_chars false false rest).1 < pos1
        \/ (word_chars false false rest).2 = []).
Proof.
  intros Hun Hne Hlex.
  pose proof (unread_length after buf pos rest Hun) as Hlen.
  destruct (break_off_loop_word after (S (length buf)) buf pos 0 false false
              rest pos [] Hun)
    as (ws & Hrun & Hsq & Hdq & Hl & Hbelow & Hword & Hp & Hlx & Han);
    [lia|done|simpl; lia|intros j x Hj; by rewrite lookup_nil in Hj|].
  simpl in Hword, Hp. unfold MR_trace_break_off_one_word.
  rewrite Hrun, Hsq, Hdq.
  set (w := (word_chars false false rest).1) in *.
  set (rest' := (word_chars false false rest).2) in *.
  assert (Hidx : ws_char_pos ws - ws_lag ws = pos + length w) by lia.
  rewrite Hidx.
  assert (Hin : pos + length w < length (ws_line ws)).
  { destruct (ws_another ws).
    - destruct Han as (c & _ & Hun').
      pose proof (unread_length after _ _ _ Hun'). lia.
    - destruct Han as (_ & Hun').
      pose proof (unread_length after _ _ _ Hun'). lia. }
  eexists _, _. split; [done|].
  split; [by rewrite length_insert|].
  split.
  { intros i Hi. rewrite list_lookup_insert_ne by lia. by apply Hbelow. }
  split.
  { intros j x Hj. rewrite list_lookup_insert_ne; [by apply Hword|].
    apply lookup_lt_Some in Hj. lia. }
  split; [by apply list_lookup_insert_eq|].
  destruct (ws_another ws).
  - destruct Han as (c & Hsp & Hun').
    destruct (unread_cons after _ _ c rest' Hun') as (_ & _ & Hun'').
    split; [apply unread_insert; [lia|done]|].
    split; [done|]. split; [lia|]. split; [lia|]. left. lia.
  - destruct Han as (Hnil & Hun').
    pose proof (unread_length_eq after _ _ _ Hun) as He1.
    pose proof (unread_length_eq after _ _ _ Hun') as He2.
    simpl in He2.
    assert (Hrest : 0 < length rest) by (destruct rest; [done|simpl; lia]).
    split.
    { rewrite Hnil. destruct (decide (ws_lag ws = 0)) as [Hz|Hnz].
      - rewrite list_insert_id; [done|].
        replace (pos + length w) with (ws_char_pos ws + length (@nil ascii))
          by (simpl; lia).
        by apply (unread_terminator after).
      - apply unread_insert; [lia|done]. }
    split; [done|]. split; [lia|]. split; [lia|]. by right.
Qed.

Lemma skip_spaces_drop (after : list ascii) (fuel : nat) :
  forall (buf : list ascii) (pos : nat) (rest : list ascii),
    unread after buf pos rest -> length rest < fuel ->
    exists pos',
      skip_spaces fuel buf pos = Scanned pos'
      /\ pos <= pos' /\ unread after buf pos' (drop_spaces rest).
Proof.
  induction fuel as [|fuel IH]; intros buf pos rest Hun Hfuel; [lia|].
  rewrite skip_spaces_S. destruct rest as [|c rest].
  - rewrite (unread_end after buf pos Hun).
    change (negb (Ascii.eqb NUL NUL) && MR_isspace NUL) with false.
    by exists pos.
  - destruct (unread_cons after buf pos c rest Hun) as (Hc & HcN & Hun').
    rewrite Hc, HcN. simpl.
    destruct (MR_isspace c).
    + destruct (IH buf (S pos) rest Hun') as (pos' & Hs & Hle & Hu);
        [simpl in Hfuel; lia|].
      exists pos'. repeat split; try done; try apply Hu. lia.
    + by exists pos.
Qed.

Lemma lex_end_drop_spaces (rest : list ascii) :
  lex_end false false (drop_spaces rest) = lex_end false false rest.
Proof.
  induction rest as [|c rest IH]; [done|]. simpl drop_spaces.
  destruct (MR_isspace c) eqn:Hsp; [|done].
  by rewrite (lex_end_space c rest Hsp).
Qed.

(** The loop over the words of a text that ends well: the words found are
    those of [split_words], each standing in the final buffer at the offset
    stored for it. *)
Lemma break_into_words_loop_words (after : list ascii) (fuel : nat) :
  forall (buf : list ascii) (words : list nat) (token_number pos : nat)
         (rest : list ascii),
    unread after buf pos rest -> length rest < fuel ->
    lex_end false false rest = Complete -> token_number <= length words ->
    exists buf' words',
      break_into_words_loop fuel buf words token_number pos
      = Scanned (buf', words',
                 token_number + length (split_words fuel rest))
      /\ length buf' = length buf
      /\ (forall i, i < pos -> buf' !! i = buf !! i)
      /\ buf' !! (pos + length rest) = Some NUL
      /\ take token_number words' = take token_number words
      /\ forall i w,
           split_words fuel rest !! i = Some w ->
           exists offset,
             words' !! (token_number + i) = Some offset
             /\ cstring_at buf' offset = string_of_list_ascii w.
Proof.
  induction fuel as [|fuel IH];
    intros buf words tn pos rest Hun Hfuel Hlex Htn; [lia|].
  rewrite break_into_words_loop_S.
  pose proof (unread_length after buf pos rest Hun) as Hlen.
  pose proof (unread_length_eq after buf pos rest Hun) as Hleq.
  destruct (skip_spaces_drop after (S (length buf)) buf pos rest Hun)
    as (pos' & -> & Hle & Hun'); [lia|].
  rewrite split_words_S.
  pose proof (drop_spaces_length rest) as Hdl.
  pose proof (lex_end_drop_spaces rest) as Hlex'. rewrite Hlex in Hlex'.
  destruct (drop_spaces rest) as [|c rest1] eqn:Hdrop.
  { rewrite (unread_end after buf pos' Hun').
    change (Ascii.eqb NUL NUL) with true. cbv iota.
    exists buf, words. rewrite Nat.add_0_r.
    split; [done|]. split; [done|]. split; [done|].
    split; [by apply (unread_terminator after)|]. split; [done|].
    intros i w Hi. by rewrite lookup_nil in Hi. }
  destruct (unread_cons after buf pos' c rest1 Hun') as (Hc & HcN & _).
  rewrite Hc, HcN.
  destruct (break_off_one_word_word after buf pos' (c :: rest1) Hun')
    as (buf1 & pos1 & -> & Hl1 & Hbelow1 & Hword1 & Hend1 & Hun1 & Hlex1
        & Hlt1 & Hle1 & Hstable); [done|done|].
  destruct (word_chars false false (c :: rest1)) as [w rest'] eqn:Hwc.
  simpl in Hword1, Hend1, Hun1, Hlex1, Hle1, Hstable.
  pose proof (unread_length_eq after buf pos' (c :: rest1) Hun') as Hleq'.
  pose proof (unread_length_eq after buf1 pos1 rest' Hun1) as Hleq1.
  set (words1 := <[tn := pos']>
                   (MR_ensure_big_enough tn words MR_INIT_WORD_COUNT 0)).
  assert (Hbig : tn < length words1).
  { unfold words1. rewrite length_insert.
    apply MR_ensure_big_enough_length. }
  destruct (IH buf1 words1 (S tn) pos1 rest' Hun1)
    as (buf' & words' & -> & Hl' & Hbelow' & Hend' & Htake' & Hstr');
    [lia|done|lia|].
  exists buf', words'.
  split; [f_equal; f_equal; simpl; lia|].
  split; [lia|]. split.
  { intros i Hi. rewrite Hbelow' by lia. apply Hbelow1. lia. }
  split.
  { replace (pos + length rest) with (pos1 + length rest') by lia. done. }
  assert (Hoff : words' !! tn = Some pos').
  { rewrite <- (lookup_take_lt words' (S tn)) by lia.
    rewrite Htake', lookup_take_lt by lia.
    unfold words1. apply list_lookup_insert_eq.
    pose proof (MR_ensure_big_enough_length tn words MR_INIT_WORD_COUNT 0).
    lia. }
  split.
  { apply (f_equal (take tn)) in Htake'.
    rewrite !take_take in Htake'.
    replace (tn `min` S tn) with tn in Htake' by lia.
    rewrite Htake'. unfold words1. rewrite take_insert_ge by lia.
    by apply MR_ensure_big_enough_take. }
  intros [|i] w0 Hi.
  - simpl in Hi. injection Hi as <-. exists pos'.
    rewrite Nat.add_0_r. split; [done|].
    unfold cstring_at. f_equal. apply until_NUL_word.
    + intros j x Hj. pose proof (lookup_lt_Some _ _ _ Hj) as Hjl.
      rewrite Hbelow' by lia. by apply Hword1.
    + destruct Hstable as [Hs|Hs].
      * rewrite Hbelow' by lia. done.
      * subst rest'. simpl in Hend'. rewrite Nat.add_0_r in Hend'.
        destruct (decide (pos' + length w = pos1)) as [->|Hne]; [done|].
        rewrite Hbelow' by lia. done.
    + intros Hin.
      pose proof (word_chars_elem (length (c :: rest1)) (c :: rest1)
                    false false NUL ltac:(done)) as Hel.
      rewrite Hwc in Hel. simpl in Hel.
      destruct Hun' as [_ Hno]. by apply Hno, Hel.
  - simpl in Hi. destruct (Hstr' i w0 Hi) as (offset & Ho & Hs).
    exists offset. split; [|done].
    replace (tn + S i) with (S tn + i) by lia. done.
Qed.

(** On a line that ends well the tokenizer returns the words of the
    line. *)
Lemma break_into_words_words_of_line (line : string) :
  lex_end false false (line_chars line) = Complete ->
  words_result (MR_trace_break_into_words line) = Scanned (words_of_line line).
Proof.
  intros Hlex. unfold MR_trace_break_into_words, words_of_line.
  destruct (buffer_of_unread line) as (after & Hun).
  pose proof (unread_length after _ _ _ Hun) as Hlen. simpl in Hlen.
  destruct (break_into_words_loop_words after (S (length (buffer_of line)))
              (buffer_of line) [] 0 0 (line_chars line) Hun)
    as (buf' & words' & -> & _ & _ & _ & _ & Hstr); [lia|done|done|].
  rewrite (split_words_fuel (S (length (line_chars line)))
             (S (length (buffer_of line)))) by lia.
  set (ws := split_words (S (length (buffer_of line))) (line_chars line)) in *.
  unfold words_result, words_of. simpl. f_equal.
  apply list_eq. intros i. rewrite list_lookup_fmap.
  destruct (ws !! i) as [w|] eqn:Hw.
  - destruct (Hstr i w Hw) as (offset & Hoff & Hs). simpl in Hoff.
    rewrite lookup_take_lt by (by apply lookup_lt_Some in Hw).
    rewrite list_lookup_fmap, Hoff. simpl. by rewrite Hs.
  - apply lookup_ge_None in Hw. simpl.
    apply lookup_ge_None. rewrite length_take. lia.
Qed.

(** X23. What the tokenizer, which splits the line in place in
    its buffer, computes for every line. If the line ends inside single or
    double quotes, or on a backslash, the result is the matching error
    message. Otherwise it is exactly the words of the line: white space
    outside quotes separates words, single quotes and backslashes are
    dropped, double quotes are kept as part of the word, and a character
    after a backslash is taken as it is. *)
Theorem tokenizer_computes_the_words (line : string) :
  words_result (MR_trace_break_into_words line)
  = match problem_of_end (lex_end false false (line_chars line)) with
    | Some msg => Problem msg
    | None => Scanned (words_of_line line)
    end.
Proof.
  pose proof (MR_trace_break_into_words_lex line) as Hlex.
  destruct (lex_end false false (line_chars line)) eqn:Hend; simpl.
  - by apply break_into_words_words_of_line.
  - destruct (MR_trace_break_into_words line) as [r|msg|]; simpl in *;
      [done|by injection Hlex as ->|done].
  - destruct (MR_trace_break_into_words line) as [r|msg|]; simpl in *;
      [done|by injection Hlex as ->|done].
  - destruct (MR_trace_break_into_words line) as [r|msg|]; simpl in *;
      [done|by injection Hlex as ->|done].
Qed.

Lemma tokenizer_computes_the_words_witness :
  words_result
    (MR_trace_break_into_words
       ("print  'a b'c  " +:+ String DOUBLE_QUOTE_CHAR "d e" +:+
        String DOUBLE_QUOTE_CHAR " f\ g ''"))
  = Scanned
      ["print"; "a bc";
       String DOUBLE_QUOTE_CHAR "d e" +:+ String DOUBLE_QUOTE_CHAR "";
       "f g"; ""].
Proof.
  exact (tokenizer_computes_the_words
           ("print  'a b'c  " +:+ String DOUBLE_QUOTE_CHAR "d e" +:+
            String DOUBLE_QUOTE_CHAR " f\ g ''")).
Defined.

(** ** Numbers and empty lines as commands *)

Lemma MR_isdigit_plain (c : ascii) :
  MR_isdigit c = true ->
  MR_isspace c = false /\ Ascii.eqb c NUL = false
  /\ Ascii.eqb c ESCAPE_CHAR = false /\ Ascii.eqb c SINGLE_QUOTE_CHAR = false
  /\ Ascii.eqb c DOUBLE_QUOTE_CHAR = false /\ Ascii.eqb c ";"%char = false.
Proof.
  destruct c as [[] [] [] [] [] [] [] []]; vm_compute; intros H;
    try discriminate H; repeat split.
Qed.

Lemma digits_are_one_word (d : string) :
  all_digits d = true ->
  (NUL ∉ list_ascii_of_string d)
  /\ lex_end false false (list_ascii_of_string d) = Complete
  /\ word_chars false false (list_ascii_of_string d)
     = (list_ascii_of_string d, [])
  /\ continue_line_loop d false false false = AtEnd false false false.
Proof.
  induction d as [|c d IH]; simpl.
  { intros _. repeat split. apply not_elem_of_nil. }
  intros [Hc Hd]%andb_true_iff.
  destruct (IH Hd) as (Hnul & Hlex & Hword & Hcont).
  destruct (MR_isdigit_plain c Hc) as (Hsp & HN & Hesc & Hsq & Hdq & Hsemi).
  rewrite Hsp, Hesc, Hsq, Hdq, Hsemi, Hword, Hcont, Hlex. simpl.
  repeat split. apply not_elem_of_cons. split; [|done].
  intros <-. by rewrite Ascii.eqb_refl in HN.
Qed.

Lemma words_of_line_digits (d : string) :
  d <> "" -> all_digits d = true ->
  lex_end false false (line_chars d) = Complete /\ words_of_line d = [d].
Proof.
  intros Hne Hd.
  destruct (digits_are_one_word d Hd) as (Hnul & Hlex & Hword & _).
  unfold words_of_line, line_chars. rewrite (until_NUL_id _ Hnul).
  split; [done|]. rewrite split_words_S.
  destruct d as [|c d]; [done|]. simpl in Hd.
  apply andb_true_iff in Hd as [Hc _].
  destruct (MR_isdigit_plain c Hc) as (Hsp & _).
  change (list_ascii_of_string (String c d))
    with (c :: list_ascii_of_string d) in *.
  simpl drop_spaces. rewrite Hsp, Hword.
  destruct (length (c :: list_ascii_of_string d)); simpl;
    by rewrite string_of_list_ascii_of_string.
Qed.

(** A line that is a number of at most [MR_NUMBER_LEN] digits parses to
    that one word. *)
Lemma MR_trace_parse_line_number (d : string) :
  d <> "" -> all_digits d = true -> String.length d <= MR_NUMBER_LEN ->
  exists raw,
    MR_trace_parse_line d = Scanned (raw, 1) /\ 1 <= length raw
    /\ take 1 raw = [d].
Proof.
  intros Hne Hd Hlen.
  destruct (words_of_line_digits d Hne Hd) as [Hlex Hwords].
  pose proof (break_into_words_words_of_line d Hlex) as Htok.
  rewrite Hwords in Htok. unfold MR_trace_parse_line.
  destruct (MR_trace_break_into_words d) as [[raw n]| |] eqn:Hraw;
    [|done..].
  destruct (MR_trace_break_into_words_words _ _ _ Hraw) as [Hn _].
  simpl in Htok. injection Htok as Htake. unfold words_of in Htake.
  simpl in Htake.
  assert (Hn1 : n = 1).
  { apply (f_equal length) in Htake. rewrite length_take in Htake.
    simpl in Htake. lia. }
  subst n. exists raw.
  assert (Hw0 : word_at raw 0 = d).
  { destruct raw as [|w raw]; [done|]. simpl in Htake.
    rewrite take_0 in Htake. by injection Htake as ->. }
  unfold split_number_prefix. rewrite Hw0.
  rewrite (all_digits_first_char d Hne Hd). simpl.
  pose proof (number_prefix_digits d "" 0 "" Hd eq_refl) as Hnp.
  rewrite append_empty_r in Hnp. rewrite Hnp by done. simpl.
  rewrite swap_number_first_unchanged by (left; lia). done.
Qed.

Lemma MR_trace_debug_cmd_number (aliases : alias_table) (d : string) :
  aliases !! "NUMBER" = Some ["step"] ->
  d <> "" -> all_digits d = true -> String.length d <= MR_NUMBER_LEN ->
  MR_trace_debug_cmd aliases d
  = Dispatch ["step"; d]
      (CallHandler (command "forward" "step" Handler.MR_trace_cmd_step)
         Handler.MR_trace_cmd_step).
Proof.
  intros Halias Hne Hd Hlen.
  destruct (MR_trace_parse_line_number d Hne Hd Hlen)
    as (raw & Hparse & Hraw & Htake).
  pose proof (alias_key_of_words raw 1 d [] Htake) as Hkey.
  rewrite bool_decide_eq_true_2 in Hkey
    by (by apply is_natural_number_digits).
  destruct (expand_aliases_found aliases raw 1 "NUMBER" 0 ["step"] Hraw Hkey
              Halias) as (words' & Hexp & _ & Htake'); [simpl; lia|lia|].
  unfold MR_trace_debug_cmd. rewrite Hparse, Hexp. simpl.
  simpl in Htake'. rewrite Htake', Htake. reflexivity.
Qed.

Lemma MR_trace_debug_cmd_empty (aliases : alias_table) :
  aliases !! "EMPTY" = Some ["step"] ->
  MR_trace_debug_cmd aliases ""
  = Dispatch ["step"]
      (CallHandler (command "forward" "step" Handler.MR_trace_cmd_step)
         Handler.MR_trace_cmd_step).
Proof.
  intros Halias. unfold MR_trace_debug_cmd.
  change (MR_trace_parse_line "") with (@Scanned (list string * nat) ([], 0)).
  destruct (expand_aliases_found aliases [] 0 "EMPTY" 0 ["step"])
    as (words' & Hexp & _ & Htake'); [done|done|done|simpl; lia|lia|].
  rewrite Hexp. simpl. simpl in Htake'. rewrite Htake'. reflexivity.
Qed.

(** X24. With [NUMBER] and [EMPTY] aliased to [step], as the
    standard initialisation file does, a line typed at the prompt that is
    just a number N makes the program run on to the N-th event after the
    current one when an [int] holds N (N below 2^31), and an empty line to
    the next event: the loop ends at once with a GOTO decision for that
    event, which is not strict, carries the default print level and asks
    for checks; the line is the only input used and the line count of the
    pager is reset. For a number of at most 80 digits that an [int] does
    not hold, the decision is the same but for the stop event, to which
    the handler adds the [int] it gets for the number. All that is asked
    of [MR_getopt_long] is that it finds no option in the words [step] and
    [step N]. *)
Theorem a_number_steps_that_many_events
    (MR_getopt : list string -> string -> getopt_run)
    (MR_getopt_long : list string -> string -> list MR_option -> getopt_run)
    (MR_port_is_final : MR_Trace_Port -> bool)
    (MR_trace_is_unsigned : string -> option Z)
    (aliases : alias_table) (event_info : MR_Event_Info) (fuel : nat)
    (cmd : MR_Trace_Cmd_Info) (st : session) (line : string)
    (input : list string) :
  aliases !! "NUMBER" = Some ["step"] ->
  aliases !! "EMPTY" = Some ["step"] ->
  (line = "" ->
   MR_getopt_long ["step"] MR_TRACE_MOVEMENT_OPTS MR_trace_movement_cmd_opts
   = {| go_codes := []; go_words := ["step"] |}) ->
  (line <> "" ->
   MR_getopt_long ["step"; line] MR_TRACE_MOVEMENT_OPTS
     MR_trace_movement_cmd_opts
   = {| go_codes := []; go_words := ["step"; line] |}) ->
  MR_line_queue st = [] -> mdb_in st = line :: input ->
  all_digits line = true -> String.length line <= MR_NUMBER_LEN ->
  exists cmd' st',
    interaction_loop MR_getopt MR_getopt_long MR_port_is_final
      MR_trace_is_unsigned (S fuel) aliases cmd event_info st
    = Decided cmd' st'
    /\ MR_trace_cmd cmd' = MR_CMD_GOTO
    /\ MR_trace_stop_event cmd'
       = to_MR_Unsigned
           (MR_event_number event_info
            + default 1%Z (MR_trace_is_natural_number line))
    /\ (line = "" ->
        MR_trace_stop_event cmd'
        = to_MR_Unsigned (MR_event_number event_info + 1))
    /\ (forall N,
          line <> "" -> digits_value 0 line = Some N -> (N < 2 ^ 31)%Z ->
          MR_trace_stop_event cmd'
          = to_MR_Unsigned (MR_event_number event_info + N))
    /\ MR_trace_strict cmd' = false /\ MR_trace_must_check cmd' = true
    /\ MR_trace_print_level cmd' = MR_default_print_level st
    /\ MR_line_queue st' = [] /\ mdb_in st' = input
    /\ MR_scroll_next st' = 0%Z.
Proof.
  intros Hnumber Hempty Hopt0 Hopt1 Hq Hin Hd Hlen.
  destruct (digits_are_one_word line Hd) as (_ & _ & _ & Hcont).
  assert (Hget : exists st1,
            MR_trace_get_command "mdb> " st = Some (line, st1)
            /\ MR_line_queue st1 = [] /\ mdb_in st1 = input
            /\ MR_default_print_level st1 = MR_default_print_level st).
  { unfold MR_trace_get_command, MR_trace_getline, MR_trace_getline_queue,
      MR_trace_readline.
    rewrite Hq. simpl. rewrite Hin. simpl.
    destruct (MR_echo_commands st); simpl;
      unfold MR_trace_continue_line; rewrite Hcont; simpl;
      eexists; (split; [done|]); simpl; by rewrite Hq. }
  destruct Hget as (st1 & Hget & Hq1 & Hin1 & Hlevel).
  simpl interaction_loop. rewrite Hget.
  destruct (decide (line = "")) as [->|Hne].
  - rewrite (MR_trace_debug_cmd_empty _ Hempty). simpl.
    unfold MR_trace_cmd_step, MR_trace_options_movement_cmd.
    rewrite (Hopt0 eq_refl). simpl.
    eexists _, _. split; [done|]. simpl. rewrite Hlevel.
    repeat split; try done.
  - rewrite (MR_trace_debug_cmd_number _ _ Hnumber Hne Hd Hlen). simpl.
    unfold MR_trace_cmd_step, MR_trace_options_movement_cmd.
    rewrite (Hopt1 Hne). simpl. change (word_at ["step"; line] 1) with line.
    destruct (is_natural_number_digits line Hne Hd) as [n Hn]. rewrite Hn.
    destruct (MR_trace_is_natural_number_int _ _ Hn) as [_ Hfits].
    eexists _, _. split; [done|]. simpl. rewrite Hlevel.
    repeat split; try done.
    all: intros N _ HN Hsmall; by destruct (Hfits N HN Hsmall) as [-> _].
Qed.

Lemma a_number_steps_that_many_events_witness :
  exists cmd' st',
    interaction_loop getopt_no_options sample_getopt_long
      (fun _ => false) (fun _ => None) 1
      (MR_trace_add_alias "NUMBER" ["step"]
         (MR_trace_add_alias "EMPTY" ["step"] ∅))
      sample_cmd (sample_event 4 MR_PORT_CALL)
      (sample_session [] ["25"; "print *"])
    = Decided cmd' st'
    /\ MR_trace_cmd cmd' = MR_CMD_GOTO
    /\ MR_trace_stop_event cmd' = 35%Z
    /\ mdb_in st' = ["print *"].
Proof.
  destruct (a_number_steps_that_many_events getopt_no_options
              sample_getopt_long (fun _ => false) (fun _ => None)
              (MR_trace_add_alias "NUMBER" ["step"]
                 (MR_trace_add_alias "EMPTY" ["step"] ∅))
              (sample_event 4 MR_PORT_CALL) 0 sample_cmd
              (sample_session [] ["25"; "print *"]) "25" ["print *"])
    as (cmd' & st' & Hrun & Hkind & Hevent & _ & _ & _ & _ & _ & _ & Hin & _);
    try reflexivity.
  { unfold MR_NUMBER_LEN. simpl. lia. }
  exists cmd', st'. repeat split; try done.
Defined.
